(** * The EPUB reader ([Final.py]): pagination core and library

    A shallow embedding of the parts of [Final.py] that turn an EPUB package
    into logical pages: the metadata fallbacks ([EpubBook.__init__],
    [EpubBook._load], [get_epub_metadata]), the block extraction of
    [EpubBook._load], the character budget [chars_per_page], the greedy packer
    [paginate_book] and the page cache in front of it ([get_pages_for_book]);
    and of the library around them: the search box ([apply_search_filter]),
    the cover extraction ([extract_cover_image]), the SQLite helpers
    ([init_db] to [delete_book]), the page view ([build_page_view]), the
    progress badge of [BookCard], the reader's navigation ([show_page],
    [handle_keyboard], [open_reader], [continuar_click], [toggle_read]) and
    the import of a file ([on_file_picked]).

    Conventions.
    - Python [int] is [Z]; [len] of a string or list is [Z.of_nat] of its
      length.
    - Python [str] and [bytes] are [string]; a character is an [ascii], so the
      model covers code points below 256.
    - Python [float] is IEEE 754 binary64, computed with the Standard
      Library's executable specification [SpecFloat] (precision 53,
      [emax = 1024], round to nearest, ties to even).
    - A Python exception is the [Raise] case of [result]; the string is the
      exception's message.
    - An insertion-ordered [dict] whose iteration order matters is an
      association list ([pydict]); the page cache, which is only looked up
      and inserted into, is a [gmap]. *)

From Stdlib Require Import ZArith Lia List String Ascii Bool.
From Stdlib Require Import Floats.SpecFloat.
From Stdlib Require Floats.PrimFloat Floats.FloatOps.
From stdpp Require Import base option list gmap strings.

Local Open Scope string_scope.
Local Open Scope list_scope.
Local Open Scope Z_scope.

(** ** Exceptions *)

Inductive result (A : Type) : Type :=
| Ok (a : A)
| Raise (exc : string).
Arguments Ok {A} a.
Arguments Raise {A} exc.

Definition result_bind {A B : Type} (f : A -> result B) (r : result A) : result B :=
  match r with
  | Ok a => f a
  | Raise exc => Raise exc
  end.

#[global] Instance result_mbind : MBind result := @result_bind.
#[global] Instance result_mret : MRet result := @Ok.

(** ** Python floats *)

Module PyFloat.

Definition prec : Z := 53.
Definition emax : Z := 1024.

Definition is_finite (f : spec_float) : bool :=
  match f with
  | S754_zero _ | S754_finite _ _ _ => true
  | S754_infinity _ | S754_nan => false
  end.

(** [float(n)] for an [int] operand of a mixed [int * float] product:
    the nearest double, [OverflowError] when it is out of range. *)
Definition of_int (n : Z) : result spec_float :=
  let f := binary_normalize prec emax n 0 false in
  if is_finite f then Ok f else Raise "int too large to convert to float".

(** [x * y] on floats; an overflow yields an infinity, not an exception. *)
Definition mul (x y : spec_float) : spec_float := SFmul prec emax x y.

(** [a / b] on two [int]s: the correctly rounded quotient.  The two
    operands enter [SFdiv] as integer significands with exponent 0, which
    its quotient-and-remainder step accepts at any size. *)
Definition truediv (a b : Z) : result spec_float :=
  match b with
  | 0 => Raise "division by zero"
  | _ =>
      match a with
      | 0 => Ok (S754_zero (b <? 0))
      | _ =>
          let f := SFdiv prec emax
                     (S754_finite (a <? 0) (Z.to_pos (Z.abs a)) 0)
                     (S754_finite (b <? 0) (Z.to_pos (Z.abs b)) 0) in
          if is_finite f then Ok f
          else Raise "integer division result too large for a float"
      end
  end.

(** [int(x)]: truncation toward zero. *)
Definition to_int (f : spec_float) : result Z :=
  match f with
  | S754_zero _ => Ok 0
  | S754_finite s m e =>
      let a := match e with
               | Zneg p => Z.shiftr (Zpos m) (Zpos p)
               | _ => Z.shiftl (Zpos m) e
               end in
      Ok (if s then - a else a)
  | S754_infinity _ => Raise "cannot convert float infinity to integer"
  | S754_nan => Raise "cannot convert float NaN to integer"
  end.

(** The literal [0.35]: the double nearest to 35/100. *)
Definition lit_0_35 : spec_float := S754_finite false 6305039478318694 (-54).

End PyFloat.

(** ** [chars_per_page] *)

Definition chars_per_page (font_size : Z) : result Z :=
  let base := 3200 in
  q ← PyFloat.truediv (base * 18) (Z.max 10 font_size);
  n ← PyFloat.to_int q;
  Ok (Z.max 800 n).

(** ** Strings *)

(** [str.isspace] on the code points below 256. *)
Definition py_isspace (c : ascii) : bool :=
  let n := N_of_ascii c in
  ((9 <=? n) && (n <=? 13) || (28 <=? n) && (n <=? 32) || (n =? 133) || (n =? 160))%N.

Fixpoint lstrip_with (f : ascii -> bool) (s : string) : string :=
  match s with
  | EmptyString => EmptyString
  | String c r => if f c then lstrip_with f r else s
  end.

Fixpoint rstrip_with (f : ascii -> bool) (s : string) : string :=
  match s with
  | EmptyString => EmptyString
  | String c r =>
      match rstrip_with f r with
      | EmptyString => if f c then EmptyString else String c EmptyString
      | r' => String c r'
      end
  end.

(** [s.strip()] *)
Definition py_strip (s : string) : string :=
  rstrip_with py_isspace (lstrip_with py_isspace s).

Fixpoint has_char (c : ascii) (s : string) : bool :=
  match s with
  | EmptyString => false
  | String c' r => Ascii.eqb c' c || has_char c r
  end.

(** [s.lstrip(chars)]: [chars] is a set of characters, not a prefix. *)
Definition py_lstrip (chars : string) (s : string) : string :=
  lstrip_with (fun c => has_char c chars) s.

(** [s.split(sep)[0]] for a one-character separator. *)
Fixpoint split_head (sep : ascii) (s : string) : string :=
  match s with
  | EmptyString => EmptyString
  | String c r => if Ascii.eqb c sep then EmptyString else String c (split_head sep r)
  end.

(** [s.replace("../", "")]: every occurrence, scanning from the left,
    without rescanning what a removal brings together. *)
Fixpoint replace_updir (s : string) : string :=
  match s with
  | EmptyString => EmptyString
  | String c r =>
      match r with
      | String c2 (String c3 r') =>
          if Ascii.eqb c "." && Ascii.eqb c2 "." && Ascii.eqb c3 "/"
          then replace_updir r'
          else String c (replace_updir r)
      | _ => String c (replace_updir r)
      end
  end.

(** [os.path.basename] (POSIX): what follows the last slash. *)
Fixpoint basename (p : string) : string :=
  match p with
  | EmptyString => EmptyString
  | String c r =>
      if has_char "/" r then basename r
      else if Ascii.eqb c "/" then r else p
  end.

(** [sep.join(parts)] *)
Fixpoint py_join (sep : string) (parts : list string) : string :=
  match parts with
  | [] => EmptyString
  | [x] => x
  | x :: rest => x +:+ sep +:+ py_join sep rest
  end.

Definition b64_alphabet : string :=
  "ABCDEFGHIJKLMNOPQRSTUVWXYZabcdefghijklmnopqrstuvwxyz0123456789+/".

Definition b64_char (n : N) : ascii :=
  match String.get (N.to_nat n) b64_alphabet with
  | Some c => c
  | None => "="%char
  end.

(** [base64.b64encode(data).decode("utf-8")] *)
Fixpoint b64encode (data : string) : string :=
  match data with
  | EmptyString => EmptyString
  | String a EmptyString =>
      let n := (N_of_ascii a * 16)%N in
      String (b64_char (n / 64)) (String (b64_char (n mod 64)) "==")
  | String a (String b EmptyString) =>
      let n := ((N_of_ascii a * 256 + N_of_ascii b) * 4)%N in
      String (b64_char (n / 4096))
        (String (b64_char (n / 64 mod 64)) (String (b64_char (n mod 64)) "="))
  | String a (String b (String c r)) =>
      let n := (N_of_ascii a * 65536 + N_of_ascii b * 256 + N_of_ascii c)%N in
      String (b64_char (n / 262144))
        (String (b64_char (n / 4096 mod 64))
           (String (b64_char (n / 64 mod 64))
              (String (b64_char (n mod 64)) (b64encode r))))
  end.

(** [chr(n)] as a one-character string *)
Definition chr (n : nat) : string := String (ascii_of_nat n) EmptyString.

Definition newline : string := chr 10.

(** ** Insertion-ordered dictionaries *)

Definition pydict (V : Type) : Type := list (string * V).

(** [d[k] = v]: an existing key keeps its position. *)
Fixpoint dict_set {V : Type} (d : pydict V) (k : string) (v : V) : pydict V :=
  match d with
  | [] => [(k, v)]
  | (k', v') :: r =>
      if String.eqb k' k then (k', v) :: r else (k', v') :: dict_set r k v
  end.

Fixpoint dict_get {V : Type} (d : pydict V) (k : string) : option V :=
  match d with
  | [] => None
  | (k', v') :: r => if String.eqb k' k then Some v' else dict_get r k
  end.

(** [k in d] *)
Definition dict_mem {V : Type} (d : pydict V) (k : string) : bool :=
  match dict_get d k with Some _ => true | None => false end.

(** [d.keys()], in insertion order *)
Definition dict_keys {V : Type} (d : pydict V) : list string := map fst d.

(** ** Parsed markup

    The tree that [BeautifulSoup(content, "html.parser")] builds, restricted
    to tags and text nodes (comments, CDATA sections and the contents of
    script and style elements are left out). *)

#[warnings="-register-all"]
Inductive node : Type :=
| Tag (name : string) (attrs : gmap string string) (children : list node)
| NavigableString (s : string).

(** [elem.descendants]: every node below [elem], in document order. *)
Fixpoint descendants (elem : node) : list node :=
  match elem with
  | Tag _ _ cs =>
      (fix go (l : list node) : list node :=
         match l with
         | [] => []
         | c :: r => c :: descendants c ++ go r
         end) cs
  | NavigableString _ => []
  end.

(** The descendants of the [BeautifulSoup] object itself, whose children are
    the top-level nodes of the document. *)
Definition soup_descendants (soup : list node) : list node :=
  flat_map (fun c => c :: descendants c) soup.

(** [getattr(elem, "name", None)] *)
Definition elem_name (elem : node) : option string :=
  match elem with
  | Tag nm _ _ => Some nm
  | NavigableString _ => None
  end.

Definition name_in (names : list string) (elem : node) : bool :=
  match elem_name elem with
  | Some nm => existsb (String.eqb nm) names
  | None => false
  end.

(** [soup.find(names)]: the first tag, in document order, with one of the names. *)
Definition soup_find (names : list string) (soup : list node) : option node :=
  List.find (name_in names) (soup_descendants soup).

(** The stripped, non-empty strings below [elem]. *)
Definition stripped_strings (elem : node) : list string :=
  flat_map (fun d => match d with
                     | NavigableString s =>
                         match py_strip s with
                         | EmptyString => []
                         | t => [t]
                         end
                     | Tag _ _ _ => []
                     end) (descendants elem).

(** [elem.get_text(sep, strip=True)] *)
Definition get_text (sep : string) (elem : node) : string :=
  py_join sep (stripped_strings elem).

(** [elem.get(key)] *)
Definition elem_get (elem : node) (key : string) : option string :=
  match elem with
  | Tag _ a _ => a !! key
  | NavigableString _ => None
  end.

(** ** Records of [Final.py] *)

Record Settings : Type := {
  font_size : Z;
  theme : string;
  font_key : string;
  line_height : spec_float;
  margins : bool;
  bold : bool
}.

(** A [pathlib.Path]: its string and the [stem] that pathlib derives from it. *)
Record Path : Type := { path_str : string; stem : string }.

Module Book.
Record t : Type := {
  id : option Z;
  title : string;
  author : string;
  file_path : option Path;
  cover_path : option Path;
  is_favorite : bool;
  is_read : bool;
  tags : string;
  current_page : Z;
  total_pages : Z
}.
End Book.

(** A block dictionary: [{"type": "text", "text": ...}] or
    [{"type": "image", "data": ..., "alt": ...}]. *)
Inductive Block : Type :=
| TextBlock (text : string)
| ImageBlock (data : string) (alt : string).

Record ChapterPage : Type := {
  chapter_index : Z;
  chapter_title : string;
  page_in_chapter : Z;
  blocks : list Block
}.

(** A chapter dictionary: [{"title": ..., "blocks": ...}]. *)
Record Chapter : Type := { chap_title : string; chap_blocks : list Block }.

Record EpubBook : Type := {
  path : Path;
  title : string;
  author : string;
  chapters : list Chapter
}.

(** ** The EPUB package as [ebooklib] presents it *)

Inductive item : Type :=
| EpubImage (file_name : string) (content : string)
| EpubHtml (file_name : string) (soup : list node)
| EpubItem (file_name : string).

(** [get_metadata] returns a list of (value, attributes) pairs. *)
Record epub_package : Type := {
  dc_title : list (string * gmap string string);
  dc_creator : list (string * gmap string string);
  get_items : list item
}.

(** What lies outside the program: whether the optional libraries were
    imported, which files exist, and what [epub.read_epub] returns or raises. *)
Record world : Type := {
  epub_available : bool;
  path_exists : Path -> bool;
  read_epub : Path -> result epub_package
}.

(** ** [EpubBook] *)

(** Lines 364-365: [src.split("#")[0].lstrip("./").replace("../", "")]. *)
Definition normalize_src (src : string) : string :=
  let key := split_head "#" src in
  replace_updir (py_lstrip "./" key).

(** Lines 364-372: the key an [img] reference is looked up under. *)
Definition resolve_key (images : pydict string) (src : string) : string :=
  let key := normalize_src src in
  if dict_mem images key then key
  else
    let only_name := basename key in
    match List.find (fun k => String.eqb (basename k) only_name) (dict_keys images) with
    | Some k => k
    | None => key
    end.

(** One iteration of [for elem in soup.body.descendants]. *)
Definition visit_elem (images : pydict string) (blocks : list Block) (elem : node)
  : list Block :=
  let blocks :=
    if name_in ["p"; "h1"; "h2"; "h3"; "li"] elem then
      let text := get_text " " elem in
      match text with
      | EmptyString => blocks
      | _ => blocks ++ [TextBlock text]
      end
    else blocks in
  if name_in ["img"] elem then
    match elem_get elem "src" with
    | None | Some EmptyString => blocks
    | Some src =>
        let key := resolve_key images src in
        match dict_get images key with
        | Some content =>
            blocks ++ [ImageBlock (b64encode content)
                         (default EmptyString (elem_get elem "alt"))]
        | None => blocks
        end
    end
  else blocks.

(** The body of [for item in book.get_items()] for one HTML document:
    the chapter it contributes, if any. *)
Definition load_document (book_title : string) (images : pydict string)
    (soup : list node) : option Chapter :=
  match soup_find ["body"] soup with
  | None => None
  | Some body =>
      let heading := soup_find ["h1"; "h2"; "h3"] soup in
      let chap_title :=
        match heading with
        | Some h => get_text "" h
        | None => book_title
        end in
      match fold_left (visit_elem images) (descendants body) [] with
      | [] => None
      | blocks => Some {| chap_title := chap_title; chap_blocks := blocks |}
      end
  end.

Definition load_images (items : list item) : pydict string :=
  fold_left (fun images it =>
               match it with
               | EpubImage fn content => dict_set images fn content
               | _ => images
               end) items [].

(** [EpubBook._load], on the package that [epub.read_epub] returned;
    [title] and [author] start from the values [__init__] assigned. *)
Definition EpubBook_load (p : Path) (book : epub_package) : EpubBook :=
  let title := stem p in
  let author := "Desconocido" in
  let t := dc_title book in
  let a := dc_creator book in
  let title := match t with (v, _) :: _ => v | [] => title end in
  let author := match a with (v, _) :: _ => v | [] => author end in
  let images := load_images (get_items book) in
  let chapters :=
    fold_left (fun chapters it =>
                 match it with
                 | EpubHtml _ soup =>
                     match load_document title images soup with
                     | Some chap => chapters ++ [chap]
                     | None => chapters
                     end
                 | _ => chapters
                 end) (get_items book) [] in
  {| path := p; title := title; author := author; chapters := chapters |}.

(** [EpubBook(path)] *)
Definition EpubBook_init (w : world) (p : Path) : result EpubBook :=
  if negb (epub_available w) then
    Raise ("Las librer" +:+ chr 237 +:+ "as 'ebooklib' y 'beautifulsoup4' son necesarias."
           +:+ newline
           +:+ "Inst" +:+ chr 225 +:+ "lalas con: pip install ebooklib beautifulsoup4")
  else
    book ← read_epub w p;
    Ok (EpubBook_load p book).

Definition get_epub_metadata (w : world) (p : Path) : string * string :=
  if negb (epub_available w) then (stem p, EmptyString)
  else
    match read_epub w p with
    | Ok book =>
        let t := dc_title book in
        let a := dc_creator book in
        let title := match t with (v, _) :: _ => v | [] => stem p end in
        let author := match a with (v, _) :: _ => v | [] => EmptyString end in
        (title, author)
    | Raise _ => (stem p, EmptyString)
    end.

(** ** [paginate_book] *)

(** The variables the inner loop and [flush_page] share: the page list and
    the three [nonlocal]s. *)
Record pstate : Type := {
  st_pages : list ChapterPage;
  st_current_blocks : list Block;
  st_current_chars : Z;
  st_page_in_chapter : Z
}.

Definition flush_page (chap_index : Z) (chap_title : string) (st : pstate) : pstate :=
  match st_current_blocks st with
  | [] => st
  | current_blocks =>
      {| st_pages := st_pages st ++
                     [ {| chapter_index := chap_index;
                          chapter_title := chap_title;
                          page_in_chapter := st_page_in_chapter st;
                          blocks := current_blocks |} ];
         st_current_blocks := [];
         st_current_chars := 0;
         st_page_in_chapter := st_page_in_chapter st + 1 |}
  end.

Definition nonempty {A : Type} (l : list A) : bool :=
  match l with [] => false | _ => true end.

(** [current_blocks.append(blk); current_chars += n] *)
Definition append_block (st : pstate) (blk : Block) (n : Z) : pstate :=
  {| st_pages := st_pages st;
     st_current_blocks := st_current_blocks st ++ [blk];
     st_current_chars := st_current_chars st + n;
     st_page_in_chapter := st_page_in_chapter st |}.

(** [int(limit * 0.35)] *)
Definition image_cost (limit : Z) : result Z :=
  l ← PyFloat.of_int limit;
  PyFloat.to_int (PyFloat.mul l PyFloat.lit_0_35).

(** One iteration of [for blk in blocks]. *)
Definition add_block (limit : Z) (chap_index : Z) (chap_title : string)
    (st : pstate) (blk : Block) : result pstate :=
  match blk with
  | TextBlock text =>
      let length := Z.of_nat (String.length text) in
      let st :=
        if nonempty (st_current_blocks st) && (st_current_chars st + length >? limit)
        then flush_page chap_index chap_title st else st in
      Ok (append_block st blk length)
  | ImageBlock _ _ =>
      img_cost ← image_cost limit;
      let st :=
        if nonempty (st_current_blocks st) && (st_current_chars st + img_cost >? limit)
        then flush_page chap_index chap_title st else st in
      Ok (append_block st blk img_cost)
  end.

Fixpoint for_blocks (limit : Z) (chap_index : Z) (chap_title : string)
    (blocks : list Block) (st : pstate) : result pstate :=
  match blocks with
  | [] => Ok st
  | blk :: rest =>
      st' ← add_block limit chap_index chap_title st blk;
      for_blocks limit chap_index chap_title rest st'
  end.

(** The body of [for chap_index, chap in enumerate(epub_book.chapters)]. *)
Definition paginate_chapter (limit : Z) (pages : list ChapterPage)
    (chap_index : Z) (chap : Chapter) : result (list ChapterPage) :=
  st ← for_blocks limit chap_index (chap_title chap) (chap_blocks chap)
         {| st_pages := pages; st_current_blocks := [];
            st_current_chars := 0; st_page_in_chapter := 1 |};
  Ok (st_pages (flush_page chap_index (chap_title chap) st)).

Fixpoint for_chapters (limit : Z) (chap_index : Z) (chaps : list Chapter)
    (pages : list ChapterPage) : result (list ChapterPage) :=
  match chaps with
  | [] => Ok pages
  | chap :: rest =>
      pages' ← paginate_chapter limit pages chap_index chap;
      for_chapters limit (chap_index + 1) rest pages'
  end.

Definition paginate_book (epub_book : EpubBook) (settings : Settings)
  : result (list ChapterPage) :=
  limit ← chars_per_page (font_size settings);
  for_chapters limit 0 (chapters epub_book) [].

(** ** [get_pages_for_book] *)

(** [book.title or "(Sin título)"] *)
Definition title_or_placeholder (book : Book.t) : string :=
  match Book.title book with
  | EmptyString => "(Sin t" +:+ chr 237 +:+ "tulo)"
  | s => s
  end.

Definition message_page (book : Book.t) (msg : string) : list ChapterPage :=
  [ {| chapter_index := 0;
       chapter_title := title_or_placeholder book;
       page_in_chapter := 1;
       blocks := [TextBlock msg] |} ].

Definition with_title (book : Book.t) (s : string) : Book.t :=
  {| Book.id := Book.id book; Book.title := s; Book.author := Book.author book;
     Book.file_path := Book.file_path book; Book.cover_path := Book.cover_path book;
     Book.is_favorite := Book.is_favorite book; Book.is_read := Book.is_read book;
     Book.tags := Book.tags book; Book.current_page := Book.current_page book;
     Book.total_pages := Book.total_pages book |}.

Definition with_author (book : Book.t) (s : string) : Book.t :=
  {| Book.id := Book.id book; Book.title := Book.title book; Book.author := s;
     Book.file_path := Book.file_path book; Book.cover_path := Book.cover_path book;
     Book.is_favorite := Book.is_favorite book; Book.is_read := Book.is_read book;
     Book.tags := Book.tags book; Book.current_page := Book.current_page book;
     Book.total_pages := Book.total_pages book |}.

Definition with_progress (book : Book.t) (cur total : Z) : Book.t :=
  {| Book.id := Book.id book; Book.title := Book.title book;
     Book.author := Book.author book;
     Book.file_path := Book.file_path book; Book.cover_path := Book.cover_path book;
     Book.is_favorite := Book.is_favorite book; Book.is_read := Book.is_read book;
     Book.tags := Book.tags book; Book.current_page := cur;
     Book.total_pages := total |}.

Definition is_empty_string (s : string) : bool :=
  match s with EmptyString => true | _ => false end.

(** Lines 813-849: the freshly computed page list and the book as the
    [try] block leaves it. *)
Definition compute_pages (w : world) (settings : Settings) (book : Book.t)
  : list ChapterPage * Book.t :=
  match Book.file_path book with
  | None => (message_page book "No se encuentra el archivo del libro.", book)
  | Some p =>
      if negb (path_exists w p) then
        (message_page book "No se encuentra el archivo del libro.", book)
      else
        match EpubBook_init w p with
        | Raise exc =>
            (message_page book ("Error al leer el EPUB:" +:+ newline +:+ exc), book)
        | Ok eb =>
            let book :=
              if is_empty_string (Book.title book) && negb (is_empty_string (title eb))
              then with_title book (title eb) else book in
            let book :=
              if is_empty_string (Book.author book) && negb (is_empty_string (author eb))
              then with_author book (author eb) else book in
            match paginate_book eb settings with
            | Ok pages => (pages, book)
            | Raise exc =>
                (message_page book ("Error al leer el EPUB:" +:+ newline +:+ exc), book)
            end
        end
  end.

(** [get_pages_for_book]: the returned pages, the book record and the cache
    after the call.  The write to the database ([update_book_progress])
    copies the record out and leaves it unchanged. *)
Definition get_pages_for_book (w : world) (settings : Settings)
    (pages_cache : gmap Z (list ChapterPage)) (book : Book.t)
  : list ChapterPage * Book.t * gmap Z (list ChapterPage) :=
  match Book.id book ≫= (fun i => pages_cache !! i) with
  | Some pages => (pages, book, pages_cache)
  | None =>
      let '(pages, book) := compute_pages w settings book in
      let pages_cache :=
        match Book.id book with
        | Some i => <[i := pages]> pages_cache
        | None => pages_cache
        end in
      let total := Z.of_nat (List.length pages) in
      let cur := if Book.current_page book >=? total then 0 else Book.current_page book in
      (pages, with_progress book cur total, pages_cache)
  end.

(** ** Notions the statements below are phrased with *)

(** The cost that [add_block] charges for a block. *)
Definition block_cost (limit : Z) (blk : Block) : result Z :=
  match blk with
  | TextBlock text => Ok (Z.of_nat (String.length text))
  | ImageBlock _ _ => image_cost limit
  end.

(** The same cost once the image weight [ic] is known. *)
Definition cost_with (ic : Z) (blk : Block) : Z :=
  match blk with
  | TextBlock text => Z.of_nat (String.length text)
  | ImageBlock _ _ => ic
  end.

(** The greedy packer as a function on block lists: the page buffers that
    the loop flushes, in order, starting from buffer [cur] with running cost
    [chars]. *)
Fixpoint pack (limit : Z) (cost : Block -> Z) (cur : list Block) (chars : Z)
    (bs : list Block) : list (list Block) :=
  match bs with
  | [] => match cur with [] => [] | _ => [cur] end
  | b :: r =>
      if nonempty cur && (chars + cost b >? limit)
      then cur :: pack limit cost [b] (cost b) r
      else pack limit cost (cur ++ [b]) (chars + cost b) r
  end.

Fixpoint number_pages (chap_index : Z) (chap_title : string) (n : Z)
    (groups : list (list Block)) : list ChapterPage :=
  match groups with
  | [] => []
  | g :: r =>
      {| chapter_index := chap_index; chapter_title := chap_title;
         page_in_chapter := n; blocks := g |}
      :: number_pages chap_index chap_title (n + 1) r
  end.

Definition chapter_pages (limit ic : Z) (chap_index : Z) (chap : Chapter)
  : list ChapterPage :=
  number_pages chap_index (chap_title chap) 1
    (pack limit (cost_with ic) [] 0 (chap_blocks chap)).

Fixpoint all_pages (limit ic : Z) (chap_index : Z) (chaps : list Chapter)
  : list ChapterPage :=
  match chaps with
  | [] => []
  | chap :: rest =>
      chapter_pages limit ic chap_index chap
      ++ all_pages limit ic (chap_index + 1) rest
  end.

(** The pages of one chapter among a page list. *)
Definition pages_of_chapter (i : Z) (pages : list ChapterPage) : list ChapterPage :=
  filter (fun p => chapter_index p = i) pages.

(** [bs] occurs in [l] as a run of consecutive elements. *)
Definition segment_of {A : Type} (bs l : list A) : Prop :=
  exists pre post, l = pre ++ bs ++ post.

(** A text is trimmed when stripping leaves it unchanged. *)
Definition trimmed (s : string) : Prop := py_strip s = s.

(** Checks decided by evaluation over a finite range. *)
Definition budget_table_ok (d : Z) : bool :=
  match (q ← PyFloat.truediv (3200 * 18) d; n ← PyFloat.to_int q; Ok (Z.max 800 n)) with
  | Ok l => l =? Z.max 800 (3200 * 18 / d)
  | Raise _ => false
  end.

Definition image_cost_ok (limit : Z) : bool :=
  match image_cost limit with
  | Ok c => (0 <=? c) && (limit * 35 / 100 - 1 <=? c) && (c <=? limit * 35 / 100)
  | Raise _ => false
  end.

(** A text block as the extractor leaves it: non-empty and already stripped. *)
Definition text_ok (blk : Block) : Prop :=
  match blk with
  | TextBlock text => trimmed text /\ text <> ""
  | ImageBlock _ _ => True
  end.

(** A string that starts and ends with a character outside [f]. *)
Definition solid (f : ascii -> bool) (s : string) : Prop :=
  (exists c r, s = String c r /\ f c = false) /\ rstrip_with f s = s.

(** The running cost of a page buffer. *)
Definition total_cost (cost : Block -> Z) (g : list Block) : Z :=
  foldr (fun b acc => cost b + acc) 0 g.

(** The texts of the text blocks of a block list, in order. *)
Definition texts_of (bs : list Block) : list string :=
  flat_map (fun b => match b with TextBlock t => [t] | ImageBlock _ _ => [] end) bs.

(** The text block, if any, that an element contributes. *)
Definition elem_texts (elem : node) : list string :=
  if name_in ["p"; "h1"; "h2"; "h3"; "li"] elem then
    match get_text " " elem with
    | EmptyString => []
    | t => [t]
    end
  else [].




(** ** Cross-check against the machine's doubles *)

Definition spec_float_eqb (x y : spec_float) : bool :=
  match x, y with
  | S754_zero s, S754_zero s' => Bool.eqb s s'
  | S754_infinity s, S754_infinity s' => Bool.eqb s s'
  | S754_nan, S754_nan => true
  | S754_finite s m e, S754_finite s' m' e' => Bool.eqb s s' && Pos.eqb m m' && Z.eqb e e'
  | _, _ => false
  end.

(** The product [limit * 0.35] computed by the processor's own binary64
    multiplication (Rocq's primitive floats), read back as a [spec_float]. *)
Definition machine_product (limit : Z) : spec_float :=
  match PyFloat.of_int limit with
  | Ok l =>
      FloatOps.Prim2SF
        (PrimFloat.mul (FloatOps.SF2Prim l) (FloatOps.SF2Prim PyFloat.lit_0_35))
  | Raise _ => S754_nan
  end.

Definition machine_agrees (limit : Z) : bool :=
  match PyFloat.of_int limit with
  | Ok l => spec_float_eqb (machine_product limit) (PyFloat.mul l PyFloat.lit_0_35)
  | Raise _ => false
  end.

(** ** Sample data *)

(** [Settings(font_size=fs)]: the dataclass defaults around a font size. *)
Definition settings_of_font_size (fs : Z) : Settings :=
  {| font_size := fs; theme := "sepia"; font_key := "default";
     line_height := S754_finite false 6305039478318694 (-52);
     margins := true; bold := false |}.

Definition sample_path : Path := {| path_str := "books/novel.epub"; stem := "novel" |}.

Definition text_of_length (n : nat) : string := string_of_list_ascii (repeat "a"%char n).

Definition book_of_chapters (chaps : list Chapter) : EpubBook :=
  {| path := sample_path; title := "novel"; author := "Desconocido"; chapters := chaps |}.

(** A package without metadata and without items. *)
Definition bare_package : epub_package :=
  {| dc_title := []; dc_creator := []; get_items := [] |}.

Definition world_with (pkg : epub_package) : world :=
  {| epub_available := true; path_exists := fun _ => true; read_epub := fun _ => Ok pkg |}.

Definition plain (name : string) (text : string) : node :=
  Tag name ∅ [NavigableString text].

(** [<html><body><h2>Intro</h2><p>one</p><p>two</p></body></html>] *)
Definition heading_doc : list node :=
  [ Tag "html" ∅ [ Tag "body" ∅ [ plain "h2" "Intro"; plain "p" "one"; plain "p" "two" ] ] ].

(** [<html><body><p>before</p><img src=".cover.png"/><p>after</p></body></html>] *)
Definition dot_image_doc : list node :=
  [ Tag "html" ∅
      [ Tag "body" ∅
          [ plain "p" "before"; Tag "img" {[ "src" := ".cover.png" ]} []; plain "p" "after" ] ] ].

Definition sample_book (i : Z) (cur total : Z) : Book.t :=
  {| Book.id := Some i; Book.title := "novel"; Book.author := "";
     Book.file_path := Some sample_path; Book.cover_path := None;
     Book.is_favorite := false; Book.is_read := false; Book.tags := "";
     Book.current_page := cur; Book.total_pages := total |}.

Definition three_pages : list ChapterPage :=
  [ {| chapter_index := 0; chapter_title := "c"; page_in_chapter := 1;
       blocks := [TextBlock "one"] |};
    {| chapter_index := 0; chapter_title := "c"; page_in_chapter := 2;
       blocks := [TextBlock "two"] |};
    {| chapter_index := 0; chapter_title := "c"; page_in_chapter := 3;
       blocks := [TextBlock "three"] |} ].


(** * The library around the paginator

    The rest of [Final.py] that carries logic of its own: how pages come
    out in order, the search box, the cover extraction, the SQLite helpers,
    the page view, the reader's navigation and the import of a file. *)

(** ** Reading order *)

(** [p] comes before [q] in reading order: an earlier chapter, or the same
    chapter and a smaller page number. *)
Definition page_before (p q : ChapterPage) : Prop :=
  chapter_index p < chapter_index q \/
  (chapter_index p = chapter_index q /\ page_in_chapter p < page_in_chapter q).

(** What a page weighs against the budget. *)
Definition page_cost (ic : Z) (p : ChapterPage) : Z :=
  total_cost (cost_with ic) (blocks p).

(** An image block whose data is the encoding of an image resource of the
    package. *)
Definition image_from (items : list item) (blk : Block) : Prop :=
  match blk with
  | ImageBlock data _ =>
      exists fn content, EpubImage fn content ∈ items /\ data = b64encode content
  | TextBlock _ => True
  end.

(** [it] is an image resource stored under the name [fn]. *)
Definition image_named (fn : string) (it : item) : Prop :=
  match it with
  | EpubImage fn' _ => fn' = fn
  | _ => False
  end.

(** [<html><body><li><p>text</p></li></body></html>] *)
Definition nested_doc : list node :=
  [ Tag "html" ∅ [ Tag "body" ∅ [ Tag "li" ∅ [ plain "p" "text" ] ] ] ].

(** ** More of Python's strings *)

(** [c.lower()] for a code point below 256: the capitals of ASCII and of
    Latin-1 (192 to 222, the multiplication sign 215 apart) move up by 32. *)
Definition lower_char (c : ascii) : ascii :=
  let n := N_of_ascii c in
  if ((65 <=? n) && (n <=? 90) || (192 <=? n) && (n <=? 222) && negb (n =? 215))%N
  then ascii_of_N (n + 32) else c.

(** [s.lower()].  On code points below 256 lower-casing works character
    by character.  Beyond them it does not (a capital sigma at the end of a
    word becomes a final sigma), so what is proved below about the search
    uses of lower-casing only that it commutes with trimming, which holds
    of [str.lower] on every string. *)
Fixpoint py_lower (s : string) : string :=
  match s with
  | EmptyString => EmptyString
  | String c r => String (lower_char c) (py_lower r)
  end.

(** [s.startswith(prefix)] *)
Fixpoint py_startswith (s prefix : string) {struct prefix} : bool :=
  match prefix with
  | EmptyString => true
  | String p pr =>
      match s with
      | EmptyString => false
      | String c r => Ascii.eqb c p && py_startswith r pr
      end
  end.

(** [sub in s] *)
Fixpoint py_in (sub s : string) : bool :=
  py_startswith s sub ||
  match s with
  | EmptyString => false
  | String _ r => py_in sub r
  end.

(** ** The search box *)

(** [apply_search_filter]; [value] is [search_field.value]. *)
Definition apply_search_filter (value : option string) (book_list : list Book.t)
  : list Book.t :=
  let text := py_lower (py_strip (default EmptyString value)) in
  if is_empty_string text then book_list
  else
    List.filter (fun b => py_in text (py_lower (Book.title b))
                          || py_in text (py_lower (Book.author b))
                          || py_in text (py_lower (Book.tags b)))
      book_list.

(** ** [extract_cover_image] *)

(** A manifest item as this function reads it: [file_name], [media_type]
    and [get_content()]. *)
Record resource : Type := {
  res_file_name : string;
  res_media_type : string;
  res_content : string
}.

(** What the function meets outside the program: whether [ebooklib] was
    imported, what [epub.read_epub] returns or raises, and which files can
    be opened for writing. *)
Record cover_world : Type := {
  cover_epub_available : bool;
  cover_read_epub : Path -> result (list resource);
  cover_writable : string -> bool
}.

Definition COVERS_DIR : string := "covers".

Definition is_image (it : resource) : bool :=
  py_startswith (res_media_type it) "image".

Definition named_cover (it : resource) : bool :=
  py_in "cover" (py_lower (res_file_name it)) && is_image it.

(** The two [for item in book.get_items()] loops. *)
Definition select_cover (items : list resource) : option resource :=
  match List.find named_cover items with
  | Some it => Some it
  | None => List.find is_image items
  end.

Definition cover_extension (media_type : string) : string :=
  if py_in "png" media_type then ".png" else ".jpg".

(** [Path(COVERS_DIR) / (file_path.stem + ext)], with the separator of
    POSIX; the name ends in the extension just added, so its stem is the
    stem of [file_path]. *)
Definition cover_out_path (file_path : Path) (ext : string) : Path :=
  {| path_str := COVERS_DIR +:+ "/" +:+ stem file_path +:+ ext;
     stem := stem file_path |}.

(** [extract_cover_image]: the path it returns and the files (name to
    content) after the call.  The directory [COVERS_DIR] is taken to exist
    or to be creatable: [os.makedirs] stands outside the [try]. *)
Definition extract_cover_image (w : cover_world) (files : gmap string string)
    (file_path : Path) : option Path * gmap string string :=
  if negb (cover_epub_available w) then (None, files)
  else
    match cover_read_epub w file_path with
    | Raise _ => (None, files)
    | Ok items =>
        match select_cover items with
        | None => (None, files)
        | Some cover_item =>
            let ext := cover_extension (res_media_type cover_item) in
            let out_path := cover_out_path file_path ext in
            if cover_writable w (path_str out_path)
            then (Some out_path, <[path_str out_path := res_content cover_item]> files)
            else (None, files)
        end
    end.

(** ** The database

    The three tables of [init_db]: [books] as its rows in rowid order, with
    the counter that AUTOINCREMENT keeps (the largest rowid ever handed
    out), and the single rows of [settings] and [last_read].  Integers
    bound to a statement must fit SQLite's 64 bits: the driver raises
    [OverflowError] otherwise, before anything is written. *)

Record book_row : Type := {
  row_id : Z;
  row_title : string;
  row_file_path : string;
  row_cover_path : option string;
  row_is_favorite : Z;
  row_is_read : Z;
  row_current_page : Z;
  row_total_pages : Z;
  row_author : option string;
  row_tags : option string
}.

Record database : Type := {
  db_books : list book_row;
  db_sequence : Z;
  db_settings : option (Z * string);
  db_last_read : option (option Z * Z)
}.

Definition sqlite_int (n : Z) : bool := (- 2 ^ 63 <=? n) && (n <? 2 ^ 63).

Definition overflow : string := "Python int too large to convert to SQLite INTEGER".

(** [1 if b else 0] *)
Definition bool_int (b : bool) : Z := if b then 1 else 0.

(** A database file that does not exist yet. *)
Definition empty_db : database :=
  {| db_books := []; db_sequence := 0; db_settings := None; db_last_read := None |}.

(** [init_db], on the content of the database file. *)
Definition init_db (db : database) : database :=
  {| db_books := db_books db;
     db_sequence := db_sequence db;
     db_settings := match db_settings db with
                    | None => Some (18, "sepia")
                    | Some row => Some row
                    end;
     db_last_read := match db_last_read db with
                     | None => Some (None, 0)
                     | Some row => Some row
                     end |}.

Definition load_settings (conn : database) : Settings :=
  match db_settings conn with
  | Some (fs, th) =>
      {| font_size := fs; theme := th; font_key := "default";
         line_height := S754_finite false 6305039478318694 (-52);
         margins := true; bold := false |}
  | None => settings_of_font_size 18
  end.

Definition save_settings (conn : database) (settings : Settings) : result database :=
  if negb (sqlite_int (font_size settings)) then Raise overflow
  else
    Ok {| db_books := db_books conn;
          db_sequence := db_sequence conn;
          db_settings := match db_settings conn with
                         | Some _ => Some (font_size settings, theme settings)
                         | None => None
                         end;
          db_last_read := db_last_read conn |}.

Definition save_last_read (conn : database) (book : Book.t) : result database :=
  match Book.id book with
  | None => Ok conn
  | Some i =>
      if negb (sqlite_int i && sqlite_int (Book.current_page book)) then Raise overflow
      else
        Ok {| db_books := db_books conn;
              db_sequence := db_sequence conn;
              db_settings := db_settings conn;
              db_last_read := match db_last_read conn with
                              | Some _ => Some (Some i, Book.current_page book)
                              | None => None
                              end |}
  end.

(** The [page] column is never NULL: only [init_db] and [save_last_read]
    write it. *)
Definition load_last_read (conn : database) : option Z * Z :=
  match db_last_read conn with
  | None => (None, 0)
  | Some (book_id, page) => (book_id, page)
  end.

(** One row of [load_books]; [mk_path] is the constructor [Path]. *)
Definition book_of_row (mk_path : string -> Path) (row : book_row) : Book.t :=
  {| Book.id := Some (row_id row);
     Book.title := row_title row;
     Book.author := default EmptyString (row_author row);
     Book.file_path := Some (mk_path (row_file_path row));
     Book.cover_path := match row_cover_path row with
                        | None | Some EmptyString => None
                        | Some s => Some (mk_path s)
                        end;
     Book.is_favorite := negb (row_is_favorite row =? 0);
     Book.is_read := negb (row_is_read row =? 0);
     Book.tags := default EmptyString (row_tags row);
     Book.current_page := row_current_page row;
     Book.total_pages := row_total_pages row |}.

Definition load_books (mk_path : string -> Path) (conn : database) : list Book.t :=
  map (book_of_row mk_path) (db_books conn).

(** The rowid AUTOINCREMENT gives the next row: one more than the largest
    rowid that has ever existed in the table. *)
Definition next_rowid (conn : database) : Z :=
  fold_right (fun row m => Z.max (row_id row) m) (db_sequence conn) (db_books conn) + 1.

Definition with_id (book : Book.t) (i : Z) : Book.t :=
  {| Book.id := Some i; Book.title := Book.title book; Book.author := Book.author book;
     Book.file_path := Book.file_path book; Book.cover_path := Book.cover_path book;
     Book.is_favorite := Book.is_favorite book; Book.is_read := Book.is_read book;
     Book.tags := Book.tags book; Book.current_page := Book.current_page book;
     Book.total_pages := Book.total_pages book |}.

Definition row_of_book (i : Z) (book : Book.t) : book_row :=
  {| row_id := i;
     row_title := Book.title book;
     row_file_path := match Book.file_path book with
                      | Some p => path_str p
                      | None => EmptyString
                      end;
     row_cover_path := match Book.cover_path book with
                       | Some p => Some (path_str p)
                       | None => None
                       end;
     row_is_favorite := bool_int (Book.is_favorite book);
     row_is_read := bool_int (Book.is_read book);
     row_current_page := Book.current_page book;
     row_total_pages := Book.total_pages book;
     row_author := Some (Book.author book);
     row_tags := Some (Book.tags book) |}.

(** [insert_book]: the database after the INSERT and the book with the
    [lastrowid] as its id. *)
Definition insert_book (conn : database) (book : Book.t) : result (database * Book.t) :=
  if negb (sqlite_int (Book.current_page book) && sqlite_int (Book.total_pages book))
  then Raise overflow
  else
    let new_id := next_rowid conn in
    if negb (sqlite_int new_id) then Raise "database or disk is full"
    else
      Ok ({| db_books := db_books conn ++ [row_of_book new_id book];
             db_sequence := new_id;
             db_settings := db_settings conn;
             db_last_read := db_last_read conn |},
          with_id book new_id).

(** [UPDATE books SET ... WHERE id = ?] *)
Definition update_rows (i : Z) (f : book_row -> book_row) (conn : database) : database :=
  {| db_books := map (fun row => if row_id row =? i then f row else row) (db_books conn);
     db_sequence := db_sequence conn;
     db_settings := db_settings conn;
     db_last_read := db_last_read conn |}.

(** [update_book_progress]; an error of the driver is swallowed and
    leaves the table as it was. *)
Definition update_book_progress (conn : database) (book : Book.t) : database :=
  match Book.id book with
  | None => conn
  | Some i =>
      if sqlite_int (Book.current_page book) && sqlite_int (Book.total_pages book)
         && sqlite_int i
      then
        update_rows i
          (fun row =>
             {| row_id := row_id row; row_title := row_title row;
                row_file_path := row_file_path row; row_cover_path := row_cover_path row;
                row_is_favorite := row_is_favorite row;
                row_is_read := bool_int (Book.is_read book);
                row_current_page := Book.current_page book;
                row_total_pages := Book.total_pages book;
                row_author := row_author row; row_tags := row_tags row |}) conn
      else conn
  end.

Definition update_book_flags (conn : database) (book : Book.t) : result database :=
  match Book.id book with
  | None => Ok conn
  | Some i =>
      if negb (sqlite_int i) then Raise overflow
      else
        Ok (update_rows i
              (fun row =>
                 {| row_id := row_id row; row_title := row_title row;
                    row_file_path := row_file_path row;
                    row_cover_path := row_cover_path row;
                    row_is_favorite := bool_int (Book.is_favorite book);
                    row_is_read := bool_int (Book.is_read book);
                    row_current_page := row_current_page row;
                    row_total_pages := row_total_pages row;
                    row_author := row_author row;
                    row_tags := Some (Book.tags book) |}) conn)
  end.

(** [delete_book]: the database and the files after the call;
    [removable] tells whether [os.remove] succeeds on a file. *)
Definition delete_book (removable : string -> bool) (conn : database)
    (files : gmap string string) (book : Book.t)
  : result (database * gmap string string) :=
  match Book.id book with
  | None => Ok (conn, files)
  | Some i =>
      if negb (sqlite_int i) then Raise overflow
      else
        let conn :=
          {| db_books := List.filter (fun row => negb (row_id row =? i)) (db_books conn);
             db_sequence := db_sequence conn;
             db_settings := db_settings conn;
             db_last_read := db_last_read conn |} in
        match Book.cover_path book with
        | Some c =>
            match files !! path_str c with
            | Some _ =>
                if removable (path_str c) then Ok (conn, delete (path_str c) files)
                else Ok (conn, files)
            | None => Ok (conn, files)
            end
        | None => Ok (conn, files)
        end
  end.

(** A path constructor for the examples: the stem is the base name up to
    its first dot. *)
Definition sample_mk_path (s : string) : Path :=
  {| path_str := s; stem := split_head "." (basename s) |}.

(** Assignments to single fields of a book. *)
Definition with_is_read (book : Book.t) (r : bool) : Book.t :=
  {| Book.id := Book.id book; Book.title := Book.title book;
     Book.author := Book.author book;
     Book.file_path := Book.file_path book; Book.cover_path := Book.cover_path book;
     Book.is_favorite := Book.is_favorite book; Book.is_read := r;
     Book.tags := Book.tags book; Book.current_page := Book.current_page book;
     Book.total_pages := Book.total_pages book |}.

Definition with_is_favorite (book : Book.t) (f : bool) : Book.t :=
  {| Book.id := Book.id book; Book.title := Book.title book;
     Book.author := Book.author book;
     Book.file_path := Book.file_path book; Book.cover_path := Book.cover_path book;
     Book.is_favorite := f; Book.is_read := Book.is_read book;
     Book.tags := Book.tags book; Book.current_page := Book.current_page book;
     Book.total_pages := Book.total_pages book |}.

Definition with_tags (book : Book.t) (t : string) : Book.t :=
  {| Book.id := Book.id book; Book.title := Book.title book;
     Book.author := Book.author book;
     Book.file_path := Book.file_path book; Book.cover_path := Book.cover_path book;
     Book.is_favorite := Book.is_favorite book; Book.is_read := Book.is_read book;
     Book.tags := t; Book.current_page := Book.current_page book;
     Book.total_pages := Book.total_pages book |}.

(** [b.id == i] *)
Definition has_id (i : Z) (b : Book.t) : bool :=
  match Book.id b with
  | Some j => j =? i
  | None => false
  end.

(** ** The page view *)

(** The literal [1.4]: the double nearest to 14/10. *)
Definition lit_1_4 : spec_float := S754_finite false 6305039478318694 (-52).

(** [int(settings.font_size * 1.4)] *)
Definition title_size (font_size : Z) : result Z :=
  l ← PyFloat.of_int font_size;
  PyFloat.to_int (PyFloat.mul l lit_1_4).

(** [FONT_FAMILIES.get(key)] *)
Definition font_family_of (key : string) : option string :=
  if String.eqb key "serif" then Some "Times New Roman"
  else if String.eqb key "sans" then Some "Arial"
  else None.

(** [get_theme_colors]: background and text colour. *)
Definition get_theme_colors (settings : Settings) : string * string :=
  if String.eqb (theme settings) "light" then ("white", "black")
  else if String.eqb (theme settings) "dark" then ("black", "white")
  else ("#F5E3C8", "#5B4636").

Inductive text_align : Type := Center | Justify.

(** An [ft.TextStyle]; a field left out is [None]. *)
Record text_style : Type := {
  ts_size : Z;
  ts_height : option spec_float;
  ts_color : string;
  ts_font_family : option string;
  ts_bold : bool
}.

(** The controls of a page: an [ft.Text], an empty [ft.Container] of a
    given height, and an [ft.Container] around an [ft.Image]. *)
Inductive control : Type :=
| FtText (value : string) (align : option text_align) (style : text_style)
| FtSpace (height : Z)
| FtImage (src_base64 : string).

(** The controls that [for blk in page_data.blocks] appends. *)
Definition block_controls (settings : Settings) (text_color : string) (blk : Block)
  : list control :=
  match blk with
  | TextBlock text =>
      [ FtText text (Some Justify)
          {| ts_size := font_size settings;
             ts_height := Some (line_height settings);
             ts_color := text_color;
             ts_font_family := font_family_of (font_key settings);
             ts_bold := bold settings |};
        FtSpace 10 ]
  | ImageBlock data _ => [ FtImage data ]
  end.

(** [build_page_view]: the controls of the column it returns. *)
Definition build_page_view (settings : Settings) (text_color : string)
    (page_data : ChapterPage) : result (list control) :=
  controls ←
    (if page_in_chapter page_data =? 1 then
       size ← title_size (font_size settings);
       Ok [ FtText (chapter_title page_data) (Some Center)
              {| ts_size := size;
                 ts_height := Some (line_height settings);
                 ts_color := text_color;
                 ts_font_family := font_family_of (font_key settings);
                 ts_bold := true |};
            FtSpace 15 ]
     else Ok []);
  let controls := controls ++ flat_map (block_controls settings text_color)
                                (blocks page_data) in
  match controls with
  | [] =>
      Ok [ FtText "(Sin contenido)" None
             {| ts_size := font_size settings; ts_height := None;
                ts_color := text_color; ts_font_family := None; ts_bold := false |} ]
  | _ => Ok controls
  end.

(** What a list of controls shows of the book: the body texts and the
    images, in order, as blocks. *)
Definition shown_blocks (controls : list control) : list (string + string) :=
  flat_map (fun c => match c with
                     | FtText value (Some Justify) _ => [inl value]
                     | FtImage data => [inr data]
                     | _ => []
                     end) controls.

Definition block_content (blk : Block) : string + string :=
  match blk with
  | TextBlock text => inl text
  | ImageBlock data _ => inr data
  end.

(** The chapter titles among the controls. *)
Definition shown_titles (controls : list control) : list string :=
  flat_map (fun c => match c with
                     | FtText value (Some Center) _ => [value]
                     | _ => []
                     end) controls.

Definition title_size_ok (fs : Z) : bool :=
  match title_size fs with
  | Ok n => n =? fs * 14 / 10
  | Raise _ => false
  end.

(** ** The reader

    The variables that the closures of [main] share: the connection, the
    book list, the page cache, the open book and the page index, and what
    [show_page] last put into the reader's widgets.  [current_book] refers
    to one of the objects of [books]; it is kept as that object's position
    in the list, so that what is assigned to the open book is assigned to
    the list's book.  An exception that leaves an event handler is the
    [Raise] case; what the variables hold at that moment is not modelled. *)

Record reader_view : Type := {
  page_data : ChapterPage;
  body : list control;
  label_chapter : Z;
  label_page : Z;
  label_global : Z;
  label_total : Z;
  slider_min : Z;
  slider_max : Z;
  slider_divisions : Z;
  slider_value : Z
}.

Record app : Type := {
  conn : database;
  books : list Book.t;
  pages_cache : gmap Z (list ChapterPage);
  current_book : option nat;
  current_page_index : Z;
  reader : option reader_view
}.

(** The open book, if any. *)
Definition open_book (st : app) : option Book.t :=
  current_book st ≫= (fun i => books st !! i).

Definition with_index (st : app) (idx : Z) : app :=
  {| conn := conn st; books := books st; pages_cache := pages_cache st;
     current_book := current_book st; current_page_index := idx;
     reader := reader st |}.

(** [get_pages_for_book(book)] for the book at position [i], with the
    write to the database that ends the computing branch. *)
Definition get_pages_at (w : world) (settings : Settings) (st : app) (i : nat)
    (book : Book.t) : list ChapterPage * Book.t * app :=
  let '(pages, book', cache') := get_pages_for_book w settings (pages_cache st) book in
  let conn' :=
    match Book.id book ≫= (fun k => pages_cache st !! k) with
    | Some _ => conn st
    | None => update_book_progress (conn st) book'
    end in
  (pages, book',
   {| conn := conn'; books := <[i := book']> (books st); pages_cache := cache';
      current_book := current_book st; current_page_index := current_page_index st;
      reader := reader st |}).

Definition show_page (w : world) (settings : Settings) (st : app) : result app :=
  match current_book st with
  | None => Ok st
  | Some i =>
      match books st !! i with
      | None => Ok st
      | Some book =>
          let '(pages, book, st) := get_pages_at w settings st i book in
          match pages with
          | [] => Ok st
          | _ =>
              let len := Z.of_nat (length pages) in
              let idx := current_page_index st in
              let idx := if idx <? 0 then 0 else idx in
              let idx := if idx >=? len then len - 1 else idx in
              let book := with_progress (with_is_read book true) idx len in
              let conn1 := update_book_progress (conn st) book in
              conn2 ← save_last_read conn1 book;
              match pages !! Z.to_nat idx with
              | None => Raise "list index out of range"
              | Some pd =>
                  controls ← build_page_view settings (snd (get_theme_colors settings)) pd;
                  Ok {| conn := conn2;
                        books := <[i := book]> (books st);
                        pages_cache := pages_cache st;
                        current_book := Some i;
                        current_page_index := idx;
                        reader :=
                          Some {| page_data := pd;
                                  body := controls;
                                  label_chapter := chapter_index pd + 1;
                                  label_page := page_in_chapter pd;
                                  label_global := idx + 1;
                                  label_total := len;
                                  slider_min := 0;
                                  slider_max := len - 1;
                                  slider_divisions := Z.max (len - 1) 1;
                                  slider_value := idx |} |}
              end
          end
      end
  end.

(** [on_slider_change], on the slider's value as [int] gives it. *)
Definition on_slider_change (w : world) (settings : Settings) (value : Z) (st : app)
  : result app :=
  show_page w settings (with_index st value).

Definition handle_keyboard (w : world) (settings : Settings) (key : string) (st : app)
  : result app :=
  match current_book st with
  | None => Ok st
  | Some i =>
      if String.eqb key "ArrowRight" || String.eqb key "Arrow Right" then
        match books st !! i with
        | None => Ok st
        | Some book =>
            let '(pages, _, st) := get_pages_at w settings st i book in
            if current_page_index st <? Z.of_nat (length pages) - 1
            then show_page w settings (with_index st (current_page_index st + 1))
            else Ok st
        end
      else if String.eqb key "ArrowLeft" || String.eqb key "Arrow Left" then
        if current_page_index st >? 0
        then show_page w settings (with_index st (current_page_index st - 1))
        else Ok st
      else Ok st
  end.

(** [open_reader(book)] for the book at position [i]: [apply_theme_to_reader]
    shows the page, and so does the last line. *)
Definition open_reader (w : world) (settings : Settings) (i : nat) (st : app)
  : result app :=
  match books st !! i with
  | None => Ok st
  | Some book =>
      let st := {| conn := conn st; books := books st; pages_cache := pages_cache st;
                   current_book := Some i; current_page_index := Book.current_page book;
                   reader := reader st |} in
      st ← show_page w settings st;
      show_page w settings st
  end.

(** The position of the first element that satisfies [f]. *)
Fixpoint find_index {A : Type} (f : A -> bool) (l : list A) : option nat :=
  match l with
  | [] => None
  | x :: r => if f x then Some 0%nat else S <$> find_index f r
  end.

Definition with_current_page (book : Book.t) (cur : Z) : Book.t :=
  with_progress book cur (Book.total_pages book).

Definition continuar_click (w : world) (settings : Settings) (st : app) : result app :=
  let '(last_book_id, last_page) := load_last_read (conn st) in
  let found :=
    match last_book_id with
    | Some k =>
        match find_index (has_id k) (books st) with
        | Some i =>
            match books st !! i with
            | Some b =>
                let last_page :=
                  if Book.total_pages b >? 0
                  then Z.max 0 (Z.min last_page (Book.total_pages b - 1))
                  else Z.max 0 last_page in
                Some (i, <[i := with_current_page b last_page]> (books st))
            | None => None
            end
        | None => None
        end
    | None => None
    end in
  match found with
  | Some (i, books') =>
      open_reader w settings i
        {| conn := conn st; books := books'; pages_cache := pages_cache st;
           current_book := current_book st; current_page_index := current_page_index st;
           reader := reader st |}
  | None =>
      match books st with
      | [] => Ok st
      | _ =>
          match find_index Book.is_read (books st) with
          | Some i => open_reader w settings i st
          | None => open_reader w settings 0%nat st
          end
      end
  end.

(** [toggle_read] of the menu of the book at position [i]. *)
Definition toggle_read (i : nat) (st : app) : result app :=
  match books st !! i with
  | None => Ok st
  | Some book =>
      let book :=
        if Book.is_read book
        then with_progress (with_is_read book false) 0 (Book.total_pages book)
        else with_is_read book true in
      let conn1 := update_book_progress (conn st) book in
      conn2 ← update_book_flags conn1 book;
      Ok {| conn := conn2; books := <[i := book]> (books st);
            pages_cache := pages_cache st; current_book := current_book st;
            current_page_index := current_page_index st; reader := reader st |}
  end.

(** The reader is open on the stored book [k], whose pages are in the
    cache, at a page of the book. *)
Definition reading (st : app) (k : Z) (pages : list ChapterPage) : Prop :=
  exists i book,
    current_book st = Some i /\ books st !! i = Some book /\ Book.id book = Some k /\
    pages_cache st !! k = Some pages /\ pages <> [] /\
    0 <= current_page_index st < Z.of_nat (length pages).

(** A library of one stored book of three pages, open in the reader. *)
Definition sample_app (idx : Z) : app :=
  {| conn := init_db {| db_books := [row_of_book 1 (sample_book 1 0 3)];
                        db_sequence := 1; db_settings := None; db_last_read := None |};
     books := [sample_book 1 0 3];
     pages_cache := {[ 1 := three_pages ]};
     current_book := Some 0%nat;
     current_page_index := idx;
     reader := None |}.

(** ** The progress badge *)

(** [BookCard.__init__]: [int((book.current_page + 1) / book.total_pages * 100)],
    or 0 for a book without pages. *)
Definition card_progress (book : Book.t) : result Z :=
  if Book.total_pages book >? 0 then
    q ← PyFloat.truediv (Book.current_page book + 1) (Book.total_pages book);
    h ← PyFloat.of_int 100;
    PyFloat.to_int (PyFloat.mul q h)
  else Ok 0.

(** ** Importing a book *)

(** What ebooklib's [get_metadata] gives [get_epub_metadata]: a list of
    values, where the value of an element without text, as [<dc:title/>],
    is [None]. *)
Record metadata : Type := {
  md_title : list (option string);
  md_creator : list (option string)
}.

Record import_world : Type := {
  import_epub_available : bool;
  import_read_epub : Path -> result metadata
}.

(** [get_epub_metadata] (lines 393 to 405) on such values: [t[0][0]] is
    the first value, [None] or not. *)
Definition get_epub_metadata_opt (iw : import_world) (p : Path)
  : option string * option string :=
  if negb (import_epub_available iw) then (Some (stem p), Some EmptyString)
  else
    match import_read_epub iw p with
    | Ok book =>
        let t := md_title book in
        let a := md_creator book in
        let title := match t with v :: _ => v | [] => Some (stem p) end in
        let author := match a with v :: _ => v | [] => Some EmptyString end in
        (title, author)
    | Raise _ => (Some (stem p), Some EmptyString)
    end.

(** The world of [get_epub_metadata] above, in which every value is
    present. *)
Definition import_world_of (w : world) : import_world :=
  {| import_epub_available := epub_available w;
     import_read_epub := fun p =>
       book ← read_epub w p;
       Ok {| md_title := (fun v => Some (fst v)) <$> dc_title book;
             md_creator := (fun v => Some (fst v)) <$> dc_creator book |} |}.

(** The row [i] with NULL in the column [author]. *)
Definition null_author (i : Z) (conn : database) : database :=
  update_rows i
    (fun row =>
       {| row_id := row_id row; row_title := row_title row;
          row_file_path := row_file_path row; row_cover_path := row_cover_path row;
          row_is_favorite := row_is_favorite row; row_is_read := row_is_read row;
          row_current_page := row_current_page row;
          row_total_pages := row_total_pages row;
          row_author := None; row_tags := row_tags row |}) conn.

(** [insert_book] on the [Book] that [on_file_picked] builds, whose title
    and author are what [get_epub_metadata] returned and may be [None].
    The column [title] is [NOT NULL] (line 86): the INSERT raises
    [sqlite3.IntegrityError] on [None], and nothing is stored.  The column
    [author] is nullable (line 93) and holds NULL for [None].  In the
    record an author [None] is written as the empty string: of a record's
    author the program reads [book.author or ""] and [not book.author]
    only (lines 620, 833 and 1140). *)
Definition insert_picked (conn : database) (title author : option string)
    (book : Book.t) : result (database * Book.t) :=
  match title with
  | None => Raise "NOT NULL constraint failed: books.title"
  | Some t =>
      r ← insert_book conn (with_author (with_title book t) (default EmptyString author));
      let '(conn', book') := r in
      Ok (match author with
          | Some _ => conn'
          | None => null_author (next_rowid conn) conn'
          end, book')
  end.

(** [on_file_picked]; [picked] is the path of the first picked file, if
    any file was picked.  The result is the state and the files after the
    call, and the exception that ended it, if one did: the cover is
    written before the INSERT is tried. *)
Definition on_file_picked (iw : import_world) (cw : cover_world)
    (files : gmap string string) (picked : option Path) (st : app)
  : app * gmap string string * option string :=
  match picked with
  | None => (st, files, None)
  | Some path =>
      let '(title, author) := get_epub_metadata_opt iw path in
      let '(cover_path, files) := extract_cover_image cw files path in
      let new_book :=
        {| Book.id := None; Book.title := EmptyString; Book.author := EmptyString;
           Book.file_path := Some path; Book.cover_path := cover_path;
           Book.is_favorite := false; Book.is_read := false; Book.tags := "";
           Book.current_page := 0; Book.total_pages := 0 |} in
      match insert_picked (conn st) title author new_book with
      | Raise exc => (st, files, Some exc)
      | Ok (conn', new_book) =>
          ({| conn := conn'; books := books st ++ [new_book];
              pages_cache := pages_cache st; current_book := current_book st;
              current_page_index := current_page_index st; reader := reader st |},
           files, None)
      end
  end.

(** ** The record and the page cache

    [get_pages_for_book] returns a cached list without touching the
    record.  What keeps the record and the cached list together is the
    program around it: every assignment to [pages_cache], to the list
    [books], to a record's [current_page] or [total_pages], and every
    statement on the database is one of the writes below. *)

(** The record agrees with the page list cached under its id. *)
Definition record_agrees (cache : gmap Z (list ChapterPage)) (book : Book.t) : Prop :=
  forall k pages,
    Book.id book = Some k -> cache !! k = Some pages ->
    Book.total_pages book = Z.of_nat (length pages) /\
    (0 < Book.total_pages book -> Book.current_page book < Book.total_pages book).

(** [id INTEGER PRIMARY KEY AUTOINCREMENT] (line 85): the ids of the rows
    differ, and none is above the largest id handed out so far. *)
Definition database_ok (db : database) : Prop :=
  NoDup (row_id <$> db_books db) /\
  Forall (fun i => i <= db_sequence db) (row_id <$> db_books db).

(** The state of [main] before the first event (lines 589 to 599). *)
Definition start (mk_path : string -> Path) (db : database) : app :=
  {| conn := init_db db; books := load_books mk_path (init_db db); pages_cache := ∅;
     current_book := None; current_page_index := 0; reader := None |}.

Definition with_books (st : app) (bs : list Book.t) : app :=
  {| conn := conn st; books := bs; pages_cache := pages_cache st;
     current_book := current_book st; current_page_index := current_page_index st;
     reader := reader st |}.

Definition with_conn (st : app) (c : database) : app :=
  {| conn := c; books := books st; pages_cache := pages_cache st;
     current_book := current_book st; current_page_index := current_page_index st;
     reader := reader st |}.

(** Lines 1051 to 1056 of [toggle_read]. *)
Definition toggled (book : Book.t) : Book.t :=
  if Book.is_read book
  then with_progress (with_is_read book false) 0 (Book.total_pages book)
  else with_is_read book true.

(** Lines 1355 to 1359 of [continuar_click]. *)
Definition resumed (b : Book.t) (last_page : Z) : Book.t :=
  with_current_page b
    (if Book.total_pages b >? 0
     then Z.max 0 (Z.min last_page (Book.total_pages b - 1))
     else Z.max 0 last_page).

(** One write of the program.  A handler that raises half way has made
    some of its writes and not the others, so the writes are listed one by
    one; the handlers are sequences of them. *)
Inductive step : app -> app -> Prop :=
| step_get_pages w settings st i book :
    (* get_pages_for_book, lines 809 to 857 *)
    books st !! i = Some book ->
    step st (snd (get_pages_at w settings st i book))
| step_show_page st i book k pages idx :
    (* show_page, lines 873 to 875, on the list that line 864 obtained *)
    books st !! i = Some book ->
    Book.id book = Some k ->
    pages_cache st !! k = Some pages ->
    0 <= idx < Z.of_nat (length pages) ->
    step st (with_books st
               (<[i := with_progress (with_is_read book true) idx
                         (Z.of_nat (length pages))]> (books st)))
| step_toggle_read st i book :
    (* toggle_read, lines 1051 to 1056 *)
    books st !! i = Some book ->
    step st (with_books st (<[i := toggled book]> (books st)))
| step_toggle_favorite st i book :
    (* toggle_favorite, line 1035 *)
    books st !! i = Some book ->
    step st (with_books st
               (<[i := with_is_favorite book (negb (Book.is_favorite book))]> (books st)))
| step_save_tags st i book tags :
    (* save_tags, line 1079 *)
    books st !! i = Some book ->
    step st (with_books st (<[i := with_tags book tags]> (books st)))
| step_continuar st i book last_page :
    (* continuar_click, lines 1355 to 1359 *)
    books st !! i = Some book ->
    step st (with_books st (<[i := resumed book last_page]> (books st)))
| step_update_book_progress st book :
    step st (with_conn st (update_book_progress (conn st) book))
| step_update_book_flags st book conn' :
    update_book_flags (conn st) book = Ok conn' ->
    step st (with_conn st conn')
| step_save_last_read st book conn' :
    save_last_read (conn st) book = Ok conn' ->
    step st (with_conn st conn')
| step_save_settings st settings conn' :
    save_settings (conn st) settings = Ok conn' ->
    step st (with_conn st conn')
| step_delete_book st removable files book conn' files' :
    (* do_delete, line 1109 *)
    delete_book removable (conn st) files book = Ok (conn', files') ->
    step st (with_conn st conn')
| step_remove st i :
    (* do_delete, line 1111 *)
    step st (with_books st (delete i (books st)))
| step_import st title author new_book conn' book' :
    (* on_file_picked, lines 665 and 666 *)
    insert_picked (conn st) title author new_book = Ok (conn', book') ->
    step st {| conn := conn'; books := books st ++ [book'];
               pages_cache := pages_cache st; current_book := current_book st;
               current_page_index := current_page_index st; reader := reader st |}
| step_select st cb idx rd :
    (* current_book, current_page_index and the widgets of the reader *)
    step st {| conn := conn st; books := books st; pages_cache := pages_cache st;
               current_book := cb; current_page_index := idx; reader := rd |}.

(** The states the program can be in: it starts on a database file, and
    goes on by the writes above. *)
Inductive reachable (mk_path : string -> Path) (db : database) : app -> Prop :=
| reach_start : database_ok db -> reachable mk_path db (start mk_path db)
| reach_step st st' :
    reachable mk_path db st -> step st st' -> reachable mk_path db st'.

(** What holds of every such state. *)
Definition library_ok (st : app) : Prop :=
  database_ok (conn st) /\
  NoDup (Book.id <$> books st) /\
  Forall (fun b => exists k, Book.id b = Some k /\ k <= db_sequence (conn st)) (books st) /\
  (forall k pages, pages_cache st !! k = Some pages -> k <= db_sequence (conn st)) /\
  Forall (record_agrees (pages_cache st)) (books st).

(** A database with one book, left at page 8 of 9 by an earlier run. *)
Definition stale_db : database :=
  {| db_books := [row_of_book 1 (sample_book 1 7 9)];
     db_sequence := 1; db_settings := None; db_last_read := Some (Some 1, 7) |}.

(** * Proofs *)

(** * Binary64 facts *)

Section FloatFacts.
Import PyFloat.

Lemma digits2_pos_size p : digits2_pos p = Pos.size p.
Proof. induction p; simpl; congruence. Qed.

Lemma Zdigits2_upper m n : 0 <= m < 2 ^ n -> 0 <= n -> Zdigits2 m <= n.
Proof.
  intros [Hm Hlt] Hn. destruct m as [|p|p]; simpl; [lia| |lia].
  rewrite digits2_pos_size.
  pose proof (Pos.size_le p) as Hs.
  apply (Pos2Z.pos_le_pos) in Hs. rewrite Pos2Z.inj_pow in Hs.
  change (Z.pos p~0) with (2 * Z.pos p) in Hs.
  destruct (Z_le_gt_dec (Z.pos (Pos.size p)) n) as [|Hgt]; [assumption|exfalso].
  assert (2 ^ (n + 1) <= 2 ^ Z.pos (Pos.size p)) by (apply Z.pow_le_mono_r; lia).
  rewrite Z.pow_add_r in H by lia. lia.
Qed.

Lemma Zdigits2_lower p n : 2 ^ n <= Zpos p -> 0 <= n -> n < Zdigits2 (Zpos p).
Proof.
  intros Hle Hn. simpl. rewrite digits2_pos_size.
  pose proof (Pos.size_gt p) as Hs.
  apply Pos2Z.pos_lt_pos in Hs. rewrite Pos2Z.inj_pow in Hs.
  apply (Z.pow_lt_mono_r_iff 2); lia.
Qed.

Lemma shr_1_m mrs : 0 <= shr_m mrs -> shr_m (shr_1 mrs) = shr_m mrs / 2.
Proof.
  destruct mrs as [m r s]. simpl. intros Hm.
  destruct m as [|[p|p|]|p]; simpl; try lia; try reflexivity.
  - change (Z.pos p~1) with (2 * Z.pos p + 1). apply Z.div_unique with 1; lia.
  - change (Z.pos p~0) with (2 * Z.pos p). apply Z.div_unique with 0; lia.
Qed.

Lemma iter_shr_1_m p : forall mrs, 0 <= shr_m mrs ->
  shr_m (SpecFloat.iter_pos shr_1 p mrs) = shr_m mrs / 2 ^ Zpos p.
Proof.
  induction p as [p IH|p IH|]; intros mrs Hm; simpl SpecFloat.iter_pos.
  - assert (H1 : 0 <= shr_m (shr_1 mrs)) by (rewrite shr_1_m by assumption; apply Z.div_pos; lia).
    assert (H2 : 0 <= shr_m (SpecFloat.iter_pos shr_1 p (shr_1 mrs))) by (rewrite IH by assumption; apply Z.div_pos; lia).
    rewrite IH, IH, shr_1_m by assumption.
    rewrite !Z.div_div by lia. f_equal.
    change (Z.pos p~1) with (2 * Z.pos p + 1). rewrite Z.pow_add_r, Z.pow_mul_r by lia.
    change (2 ^ 2) with 4. rewrite Z.pow_1_r.
    replace (4 ^ Z.pos p) with (2 ^ Z.pos p * 2 ^ Z.pos p); [ring|].
    rewrite <- Z.pow_mul_l. reflexivity.
  - assert (H2 : 0 <= shr_m (SpecFloat.iter_pos shr_1 p mrs)) by (rewrite IH by assumption; apply Z.div_pos; lia).
    rewrite IH, IH by assumption. rewrite Z.div_div by lia. f_equal.
    change (Z.pos p~0) with (2 * Z.pos p). rewrite Z.pow_mul_r by lia.
    change (2 ^ 2) with 4. rewrite <- Z.pow_mul_l. reflexivity.
  - rewrite shr_1_m by assumption. reflexivity.
Qed.

Lemma shr_spec mrs e n : 0 <= shr_m mrs ->
  shr_m (fst (shr mrs e n)) = shr_m mrs / 2 ^ Z.max n 0 /\
  snd (shr mrs e n) = e + Z.max n 0.
Proof.
  intros Hm. destruct n as [|p|p]; simpl.
  - rewrite Z.div_1_r. split; [reflexivity | lia].
  - rewrite iter_shr_1_m by assumption. split; reflexivity.
  - rewrite Z.div_1_r. split; [reflexivity | lia].
Qed.

Lemma shr_fexp_spec m e l : 0 <= m -> -1074 <= e ->
  let k := Z.max (Zdigits2 m - 53) 0 in
  shr_m (fst (shr_fexp prec emax m e l)) = m / 2 ^ k /\
  snd (shr_fexp prec emax m e l) = e + k.
Proof.
  intros Hm He k. unfold shr_fexp.
  assert (Hk : Z.max (fexp prec emax (Zdigits2 m + e) - e) 0 = k).
  { unfold fexp, emin, prec, emax, k. lia. }
  destruct (shr_spec (shr_record_of_loc m l) e (fexp prec emax (Zdigits2 m + e) - e)) as [H1 H2].
  { destruct l as [|[]]; simpl; assumption. }
  rewrite Hk in H1, H2. split; [|assumption].
  rewrite H1. destruct l as [|[]]; reflexivity.
Qed.

Lemma round_nearest_even_bounds m l : m <= round_nearest_even m l <= m + 1.
Proof. destruct l as [|[]]; simpl; try lia. destruct (Z.even m); lia. Qed.

(** Rounding a non-negative quotient [q * 2^e] that is at most 57600/73
    keeps it below 790: the result is finite and truncates into [0, 790]. *)
Lemma binary_round_aux_small q e l :
  0 <= q -> -1074 <= e <= -44 -> q * 73 <= 57600 * 2 ^ (- e) ->
  exists n, to_int (binary_round_aux prec emax false q e l) = Ok n /\ 0 <= n <= 790.
Proof.
  intros Hq He Hb. unfold binary_round_aux.
  destruct (shr_fexp_spec q e l Hq ltac:(lia)) as [Hm0 He1].
  destruct (shr_fexp prec emax q e l) as [mrs1 e1]. simpl in Hm0, He1.
  set (K1 := Z.max (Zdigits2 q - 53) 0) in *.
  assert (Hpow : 2 ^ (- e) * 2 ^ 10 = 2 ^ (10 - e)).
  { rewrite <- Z.pow_add_r by lia. f_equal. lia. }
  assert (Hpe : 0 < 2 ^ (- e)) by (apply Z.pow_pos_nonneg; lia).
  assert (HK1 : 0 <= K1 <= - e - 43).
  { assert (Zdigits2 q <= 10 - e); [|unfold K1; lia].
    apply Zdigits2_upper; [|lia]. change (2 ^ 10) with 1024 in Hpow. lia. }
  set (s1 := - e - K1).
  assert (Hs : 2 ^ (- e) = 2 ^ s1 * 2 ^ K1).
  { rewrite <- Z.pow_add_r by lia. f_equal. lia. }
  assert (HP1 : 0 < 2 ^ K1) by (apply Z.pow_pos_nonneg; lia).
  assert (HS1 : 2 <= 2 ^ s1).
  { change 2 with (2 ^ 1) at 1. apply Z.pow_le_mono_r; lia. }
  set (m0 := shr_m mrs1) in *.
  assert (Hm0b : 0 <= m0 /\ m0 * 2 ^ K1 <= q).
  { rewrite Hm0. split; [apply Z.div_pos; lia|].
    rewrite Z.mul_comm. apply Z.mul_div_le. assumption. }
  pose proof (round_nearest_even_bounds m0 (loc_of_shr_record mrs1)) as Hr.
  set (m1 := round_nearest_even m0 (loc_of_shr_record mrs1)) in *.
  assert (Hm1 : 0 <= m1 /\ m1 <= 790 * 2 ^ s1).
  { split; [lia|]. assert (m0 * 73 <= 57600 * 2 ^ s1); [|lia].
    apply Z.mul_le_mono_pos_r with (2 ^ K1); [assumption|]. nia. }
  destruct (shr_fexp_spec m1 e1 loc_Exact ltac:(lia) ltac:(lia)) as [Hm2 He2].
  destruct (shr_fexp prec emax m1 e1 loc_Exact) as [mrs2 e2]. simpl in Hm2, He2.
  set (K2 := Z.max (Zdigits2 m1 - 53) 0) in *.
  assert (Hpow1 : 2 ^ s1 * 2 ^ 10 = 2 ^ (10 + s1)).
  { rewrite <- Z.pow_add_r by lia. f_equal. lia. }
  assert (HK2 : 0 <= K2 <= s1 - 43).
  { assert (Zdigits2 m1 <= 10 + s1); [|unfold K2; lia].
    apply Zdigits2_upper; [|lia]. change (2 ^ 10) with 1024 in Hpow1. lia. }
  set (s2 := s1 - K2).
  assert (Hs' : 2 ^ s1 = 2 ^ s2 * 2 ^ K2).
  { rewrite <- Z.pow_add_r by lia. f_equal. lia. }
  assert (HP2 : 0 < 2 ^ K2) by (apply Z.pow_pos_nonneg; lia).
  assert (HS2 : 0 < 2 ^ s2) by (apply Z.pow_pos_nonneg; lia).
  set (m2 := shr_m mrs2) in *.
  assert (Hm2b : 0 <= m2 /\ m2 <= 790 * 2 ^ s2).
  { rewrite Hm2. split; [apply Z.div_pos; lia|].
    apply Z.div_le_upper_bound; [assumption|]. nia. }
  assert (He2' : e2 = - s2) by lia.
  destruct m2 as [|m|m] eqn:Em2.
  - exists 0. simpl. split; [reflexivity|lia].
  - assert (Hle : (e2 <=? emax - prec) = true) by (apply Z.leb_le; unfold emax, prec; lia).
    rewrite Hle. simpl.
    destruct e2 as [|p|p]; try lia.
    exists (Z.shiftr (Z.pos m) (Z.pos p)). split; [reflexivity|].
    rewrite Z.shiftr_div_pow2 by lia.
    replace (Z.pos p) with s2 by lia.
    split; [apply Z.div_pos; lia|].
    apply Z.div_le_upper_bound; [assumption|]. lia.
  - lia.
Qed.

Lemma truediv_57600_large d :
  73 <= d ->
  exists f n, truediv 57600 d = Ok f /\ to_int f = Ok n /\ 0 <= n <= 790.
Proof.
  intros Hd. destruct d as [|d|d]; try lia.
  unfold truediv.
  change (57600 <? 0) with false. change (Z.pos d <? 0) with false.
  change (Z.to_pos (Z.abs 57600)) with 57600%positive.
  change (Z.to_pos (Z.abs (Z.pos d))) with d.
  unfold SFdiv. change (xorb false false) with false.
  unfold SFdiv_core_binary.
  change (Zdigits2 57600) with 16.
  assert (Hdd : 6 < Zdigits2 (Z.pos d)) by (apply Zdigits2_lower; [change (2 ^ 6) with 64|]; lia).
  set (dd := Zdigits2 (Z.pos d)) in *.
  set (e' := Z.min (fexp prec emax (16 + 0 - (dd + 0))) (0 - 0)).
  assert (He' : -1074 <= e' <= -44) by (unfold e', fexp, emin, prec, emax; lia).
  assert (Hs : exists p, 0 - 0 - e' = Z.pos p) by (destruct e'; try lia; eexists; reflexivity).
  destruct Hs as [p Hp]. rewrite Hp.
  rewrite Z.shiftl_mul_pow2 by lia.
  pose proof (Z.div_eucl_eq (57600 * 2 ^ Z.pos p) (Z.pos d) ltac:(lia)) as Heq.
  pose proof (Z.mod_pos_bound (57600 * 2 ^ Z.pos p) (Z.pos d) ltac:(lia)) as Hmod.
  unfold Z.modulo in Hmod.
  assert (Hq : 0 <= (57600 * 2 ^ Z.pos p) / Z.pos d) by (apply Z.div_pos; lia).
  unfold Z.div in Hq.
  destruct (Z.div_eucl (57600 * 2 ^ Z.pos p) (Z.pos d)) as [q r].
  destruct (binary_round_aux_small q e' (new_location (Z.pos d) r)) as (n & Hn & Hb);
    [assumption|assumption| |].
  { replace (- e') with (Z.pos p) by lia. nia. }
  exists (binary_round_aux prec emax false q e' (new_location (Z.pos d) r)), n.
  split; [|split; assumption].
  destruct (binary_round_aux prec emax false q e' (new_location (Z.pos d) r));
    simpl in *; try reflexivity; discriminate.
Qed.
End FloatFacts.

Lemma forallb_seqZ (P : Z -> bool) (lo n : Z) :
  forallb P (seqZ lo n) = true -> forall x, lo <= x < lo + n -> P x = true.
Proof.
  intros H x Hx. rewrite forallb_forall in H. apply H.
  apply list_elem_of_In, elem_of_seqZ. lia.
Qed.

Lemma budget_table d : 10 <= d <= 72 -> budget_table_ok d = true.
Proof.
  intros Hd. apply (forallb_seqZ budget_table_ok 10 63); [vm_compute; reflexivity | lia].
Qed.

Lemma chars_per_page_exact fs :
  chars_per_page fs = Ok (Z.max 800 (3200 * 18 / Z.max 10 fs)).
Proof.
  unfold chars_per_page. set (d := Z.max 10 fs).
  assert (Hd : 10 <= d) by (unfold d; lia).
  destruct (Z_le_gt_dec d 72) as [Hle|Hgt].
  - pose proof (budget_table d ltac:(lia)) as Ht. unfold budget_table_ok in Ht.
    destruct (q ← PyFloat.truediv (3200 * 18) d; n ← PyFloat.to_int q; Ok (Z.max 800 n)) as [l|];
      [|discriminate].
    apply Z.eqb_eq in Ht. congruence.
  - destruct (truediv_57600_large d ltac:(lia)) as (f & n & Hf & Hn & Hb).
    change (3200 * 18) with 57600. rewrite Hf. simpl. rewrite Hn. simpl.
    f_equal.
    assert (57600 / d < 800) by (apply Z.div_lt_upper_bound; lia).
    assert (0 <= 57600 / d) by (apply Z.div_pos; lia).
    lia.
Qed.

Lemma chars_per_page_range fs :
  exists limit, chars_per_page fs = Ok limit /\ 800 <= limit <= 5760.
Proof.
  exists (Z.max 800 (3200 * 18 / Z.max 10 fs)). split; [apply chars_per_page_exact|].
  assert (3200 * 18 / Z.max 10 fs <= 5760); [|lia].
  apply Z.div_le_upper_bound; lia.
Qed.

(** C3: the budget is [max(800, floor(3200 * 18 / max(10, font_size)))] for
    every integer font size -- the float quotient truncates to the exact
    floor and no exception is raised --, it does not increase as the font
    size grows over [12, 30], it is never below 800, and it is 3200 at font
    size 18. *)
Theorem chars_per_page_budget :
  (forall fs, chars_per_page fs = Ok (Z.max 800 (3200 * 18 / Z.max 10 fs))) /\
  (forall a b la lb,
      12 <= a -> a <= b -> b <= 30 ->
      chars_per_page a = Ok la -> chars_per_page b = Ok lb -> lb <= la) /\
  (forall fs l, chars_per_page fs = Ok l -> 800 <= l) /\
  chars_per_page 18 = Ok 3200.
Proof.
  split; [exact chars_per_page_exact|]. split; [|split].
  - intros a b la lb Ha Hab Hb Hla Hlb.
    rewrite chars_per_page_exact in Hla, Hlb.
    injection Hla as <-. injection Hlb as <-.
    apply Z.max_le_compat_l. apply Z.div_le_compat_l; lia.
  - intros fs l Hl. rewrite chars_per_page_exact in Hl. injection Hl as <-. lia.
  - rewrite chars_per_page_exact. reflexivity.
Qed.

Lemma chars_per_page_budget_witness :
  chars_per_page 12 = Ok 4800 /\ chars_per_page 30 = Ok 1920 /\ 1920 <= 4800 /\ 800 <= 1920.
Proof.
  assert (H12 : chars_per_page 12 = Ok 4800) by (vm_compute; reflexivity).
  assert (H30 : chars_per_page 30 = Ok 1920) by (vm_compute; reflexivity).
  destruct chars_per_page_budget as (_ & Hmono & Hmin & _).
  split; [exact H12|]. split; [exact H30|]. split.
  - apply (Hmono 12 30 4800 1920); [lia | lia | lia | exact H12 | exact H30].
  - apply (Hmin 30 1920 H30).
Defined.

(** * The image weight *)

(** The literal: [lit_0_35] is the correctly rounded quotient 35/100, a
    double that lies below 0.35 by 0.4 units of its last place. *)
Lemma lit_0_35_nearest :
  SFdiv PyFloat.prec PyFloat.emax
    (S754_finite false 35 0) (S754_finite false 100 0) = PyFloat.lit_0_35 /\
  100 * 6305039478318694 < 35 * 2 ^ 54 /\
  35 * 2 ^ 54 - 100 * 6305039478318694 = 40.
Proof. split; [vm_compute; reflexivity|]. split; [vm_compute; reflexivity | reflexivity]. Qed.

(** The product at budget 2880: exactly [1008 - 1152 / 2^54], which lies
    nearer to the double [1008 - 2^-43] than to 1008. *)
Lemma product_at_2880 :
  PyFloat.of_int 2880 = Ok (S754_finite false 6333186975989760 (-41)) /\
  PyFloat.mul (S754_finite false 6333186975989760 (-41)) PyFloat.lit_0_35 =
  S754_finite false 8866461766385663 (-43) /\
  8866461766385663 = 1008 * 2 ^ 43 - 1 /\
  2880 * 6305039478318694 = 1008 * 2 ^ 54 - 1152.
Proof. repeat split; vm_compute; reflexivity. Qed.

(** The processor's multiplication gives the same double at budget 2880,
    and the same double as the model at every budget from 800 to 5760. *)
Lemma machine_product_at_2880 :
  machine_product 2880 = S754_finite false 8866461766385663 (-43).
Proof. vm_compute. reflexivity. Qed.

Lemma machine_agrees_on_budgets limit :
  800 <= limit <= 5760 -> machine_agrees limit = true.
Proof.
  intros H. apply (forallb_seqZ machine_agrees 800 4961); [vm_compute; reflexivity | lia].
Qed.

Lemma image_cost_table limit : 800 <= limit <= 5760 -> image_cost_ok limit = true.
Proof.
  intros H. apply (forallb_seqZ image_cost_ok 800 4961); [vm_compute; reflexivity | lia].
Qed.

Lemma image_cost_in_range limit :
  800 <= limit <= 5760 ->
  exists ic, image_cost limit = Ok ic /\ 0 <= ic /\
             limit * 35 / 100 - 1 <= ic <= limit * 35 / 100.
Proof.
  intros H. pose proof (image_cost_table limit H) as Ht. unfold image_cost_ok in Ht.
  destruct (image_cost limit) as [c|]; [|discriminate].
  exists c. split; [reflexivity|]. lia.
Qed.

(** * The packer *)

Section Packer.
Variables (limit ic : Z).
Hypothesis Hic : image_cost limit = Ok ic.

Lemma block_cost_with blk : block_cost limit blk = Ok (cost_with ic blk).
Proof using Hic. destruct blk; simpl; [reflexivity | exact Hic]. Qed.

Lemma add_block_step ci ct st blk :
  add_block limit ci ct st blk =
  Ok (append_block
        (if nonempty (st_current_blocks st)
            && (st_current_chars st + cost_with ic blk >? limit)
         then flush_page ci ct st else st)
        blk (cost_with ic blk)).
Proof using Hic. destruct blk; simpl; [reflexivity|]. rewrite Hic. reflexivity. Qed.

Lemma for_blocks_pack ci ct bs : forall st,
  exists st',
    for_blocks limit ci ct bs st = Ok st' /\
    st_pages (flush_page ci ct st') =
    st_pages st ++
    number_pages ci ct (st_page_in_chapter st)
      (pack limit (cost_with ic) (st_current_blocks st) (st_current_chars st) bs).
Proof using Hic.
  induction bs as [|b r IH]; intros st.
  - exists st. split; [reflexivity|].
    unfold flush_page. simpl. destruct (st_current_blocks st); simpl.
    + symmetry. apply app_nil_r.
    + reflexivity.
  - simpl for_blocks. rewrite add_block_step. simpl pack.
    destruct st as [pgs cur chars n]. simpl.
    destruct (nonempty cur && (chars + cost_with ic b >? limit)) eqn:Hc.
    + assert (Hne : cur <> []) by (destruct cur; [discriminate | congruence]).
      unfold flush_page at 1. simpl st_current_blocks.
      destruct cur as [|x cur]; [congruence|].
      destruct (IH (append_block
                      {| st_pages := pgs ++ [ {| chapter_index := ci; chapter_title := ct;
                                                 page_in_chapter := n; blocks := x :: cur |} ];
                         st_current_blocks := []; st_current_chars := 0;
                         st_page_in_chapter := n + 1 |} b (cost_with ic b)))
        as (st' & Hrun & Hpages).
      exists st'. split; [exact Hrun|].
      rewrite Hpages. simpl. rewrite <- app_assoc. reflexivity.
    + destruct (IH (append_block
                      {| st_pages := pgs; st_current_blocks := cur; st_current_chars := chars;
                         st_page_in_chapter := n |} b (cost_with ic b)))
        as (st' & Hrun & Hpages).
      exists st'. split; [exact Hrun|]. rewrite Hpages. reflexivity.
Qed.

Lemma paginate_chapter_pure pages ci chap :
  paginate_chapter limit pages ci chap = Ok (pages ++ chapter_pages limit ic ci chap).
Proof using Hic.
  unfold paginate_chapter.
  destruct (for_blocks_pack ci (chap_title chap) (chap_blocks chap)
              {| st_pages := pages; st_current_blocks := []; st_current_chars := 0;
                 st_page_in_chapter := 1 |}) as (st' & Hrun & Hpages).
  rewrite Hrun. simpl. rewrite Hpages. reflexivity.
Qed.

Lemma for_chapters_pure chaps : forall ci pages,
  for_chapters limit ci chaps pages = Ok (pages ++ all_pages limit ic ci chaps).
Proof using Hic.
  induction chaps as [|c r IH]; intros ci pages; simpl.
  - rewrite app_nil_r. reflexivity.
  - rewrite paginate_chapter_pure. simpl. rewrite IH, app_assoc. reflexivity.
Qed.
End Packer.

Section PackFacts.
Variables (limit : Z) (cost : Block -> Z).

Lemma pack_concat bs : forall cur chars,
  concat (pack limit cost cur chars bs) = cur ++ bs.
Proof.
  induction bs as [|b r IH]; intros cur chars; simpl.
  - destruct cur; simpl; rewrite ?app_nil_r; reflexivity.
  - destruct (nonempty cur && (chars + cost b >? limit)); simpl.
    + rewrite IH. reflexivity.
    + rewrite IH, <- app_assoc. reflexivity.
Qed.

Lemma pack_nonempty bs : forall cur chars,
  Forall (fun g => g <> []) (pack limit cost cur chars bs).
Proof.
  induction bs as [|b r IH]; intros cur chars; simpl.
  - destruct cur; constructor; [discriminate | constructor].
  - destruct (nonempty cur && (chars + cost b >? limit)) eqn:Hc.
    + constructor; [|apply IH]. destruct cur; [discriminate | discriminate].
    + apply IH.
Qed.

Hypothesis cost_nonneg : forall b, 0 <= cost b.

Lemma pack_after_oversize b c post :
  limit < c -> pack limit cost [b] c post = [b] :: pack limit cost [] 0 post.
Proof using cost_nonneg.
  intros Hc. destruct post as [|x r]; simpl; [reflexivity|].
  pose proof (cost_nonneg x).
  replace (c + cost x >? limit) with true by (symmetry; apply Z.gtb_lt; lia).
  reflexivity.
Qed.

Lemma pack_oversize b post : limit < cost b -> forall pre cur chars,
  0 <= chars ->
  pack limit cost cur chars (pre ++ b :: post) =
  pack limit cost cur chars pre ++ [b] :: pack limit cost [] 0 post.
Proof using cost_nonneg.
  intros Hb. induction pre as [|x pre IH]; intros cur chars Hch; simpl.
  - replace (chars + cost b >? limit) with true by (symmetry; apply Z.gtb_lt; lia).
    destruct cur as [|y cur]; simpl.
    + apply pack_after_oversize. lia.
    + rewrite pack_after_oversize by lia. reflexivity.
  - pose proof (cost_nonneg x).
    destruct (nonempty cur && (chars + cost x >? limit)); simpl.
    + rewrite IH by lia. reflexivity.
    + apply IH. lia.
Qed.
End PackFacts.

Section PageLists.
Variables (limit ic : Z).

Lemma number_pages_blocks ci ct groups : forall n,
  blocks <$> number_pages ci ct n groups = groups.
Proof. induction groups as [|g r IH]; intros n; simpl; [|rewrite IH]; reflexivity. Qed.

Lemma number_pages_numbers ci ct groups : forall n,
  page_in_chapter <$> number_pages ci ct n groups = seqZ n (Z.of_nat (length groups)).
Proof.
  induction groups as [|g r IH]; intros n; [reflexivity|].
  simpl number_pages. rewrite fmap_cons, IH. simpl page_in_chapter.
  rewrite (seqZ_cons n (Z.of_nat (length (g :: r)))) by (simpl length; lia).
  f_equal. f_equal; simpl length; lia.
Qed.

Lemma number_pages_index ci ct groups : forall n,
  Forall (fun p => chapter_index p = ci /\ chapter_title p = ct) (number_pages ci ct n groups).
Proof.
  induction groups as [|g r IH]; intros n; simpl; constructor; [split; reflexivity | apply IH].
Qed.

Lemma chapter_pages_index ci chap :
  Forall (fun p => chapter_index p = ci) (chapter_pages limit ic ci chap).
Proof.
  eapply Forall_impl; [apply number_pages_index|]. intros p [H _]. exact H.
Qed.

Lemma all_pages_index chaps : forall ci,
  Forall (fun p => ci <= chapter_index p) (all_pages limit ic ci chaps).
Proof.
  induction chaps as [|c r IH]; intros ci; simpl; [constructor|].
  apply Forall_app. split.
  - eapply Forall_impl; [apply chapter_pages_index|]. simpl. intros; lia.
  - eapply Forall_impl; [apply IH|]. simpl. intros; lia.
Qed.

Lemma filter_all (P : ChapterPage -> Prop) `{forall p, Decision (P p)} l :
  Forall P l -> filter P l = l.
Proof.
  induction 1 as [|x l Hx Hl IH]; [reflexivity|].
  rewrite filter_cons_True by assumption. rewrite IH. reflexivity.
Qed.

Lemma filter_none (P : ChapterPage -> Prop) `{forall p, Decision (P p)} l :
  Forall (fun p => ~ P p) l -> filter P l = [].
Proof.
  induction 1 as [|x l Hx Hl IH]; [reflexivity|].
  rewrite filter_cons_False by assumption. exact IH.
Qed.

(** The pages of chapter [ci + j] among those of a chapter list that starts
    at index [ci] are the pages of its [j]-th chapter. *)
Lemma pages_of_chapter_all chaps : forall ci (j : nat),
  pages_of_chapter (ci + Z.of_nat j) (all_pages limit ic ci chaps) =
  match chaps !! j with
  | Some chap => chapter_pages limit ic (ci + Z.of_nat j) chap
  | None => []
  end.
Proof.
  unfold pages_of_chapter.
  induction chaps as [|c r IH]; intros ci j; [reflexivity|].
  simpl all_pages. rewrite filter_app. destruct j as [|j].
  - change (Z.of_nat 0) with 0. rewrite Z.add_0_r. simpl lookup.
    rewrite filter_all by apply chapter_pages_index.
    rewrite filter_none; [apply app_nil_r|].
    eapply Forall_impl; [apply all_pages_index|]. simpl. intros; lia.
  - rewrite filter_none.
    + simpl. replace (ci + Z.of_nat (S j)) with (ci + 1 + Z.of_nat j) by lia. apply IH.
    + eapply Forall_impl; [apply chapter_pages_index|]. simpl. intros; lia.
Qed.

Lemma all_pages_origin chaps : forall ci p,
  p ∈ all_pages limit ic ci chaps ->
  exists (j : nat) chap,
    chaps !! j = Some chap /\ p ∈ chapter_pages limit ic (ci + Z.of_nat j) chap.
Proof.
  induction chaps as [|c r IH]; intros ci p Hp; simpl in Hp.
  - inversion Hp.
  - apply elem_of_app in Hp as [Hp|Hp].
    + exists 0%nat, c. split; [reflexivity|]. change (Z.of_nat 0) with 0. rewrite Z.add_0_r. exact Hp.
    + destruct (IH _ _ Hp) as (j & chap & Hj & Hin).
      exists (S j), chap. split; [exact Hj|].
      replace (ci + Z.of_nat (S j)) with (ci + 1 + Z.of_nat j) by lia. exact Hin.
Qed.

Lemma chapter_pages_blocks ci chap :
  concat (blocks <$> chapter_pages limit ic ci chap) = chap_blocks chap.
Proof. unfold chapter_pages. rewrite number_pages_blocks. apply pack_concat. Qed.

Lemma chapter_pages_segment ci chap p :
  p ∈ chapter_pages limit ic ci chap ->
  chapter_index p = ci /\ blocks p <> [] /\ segment_of (blocks p) (chap_blocks chap).
Proof.
  intros Hp. split; [|split].
  - pose proof (chapter_pages_index ci chap) as H. rewrite Forall_forall in H. apply H, Hp.
  - assert (Hb : blocks p ∈ blocks <$> chapter_pages limit ic ci chap)
      by (apply list_elem_of_fmap; exists p; split; [reflexivity | exact Hp]).
    unfold chapter_pages in Hb. rewrite number_pages_blocks in Hb.
    pose proof (pack_nonempty limit (cost_with ic) (chap_blocks chap) [] 0) as H.
    rewrite Forall_forall in H. apply H, Hb.
  - apply list_elem_of_split in Hp as (l1 & l2 & Heq).
    exists (concat (blocks <$> l1)), (concat (blocks <$> l2)).
    rewrite <- (chapter_pages_blocks ci chap), Heq.
    rewrite fmap_app, concat_app. simpl. reflexivity.
Qed.
End PageLists.

Section WithinBudget.
Variables (limit : Z) (cost : Block -> Z).

Lemma total_cost_snoc g b : total_cost cost (g ++ [b]) = total_cost cost g + cost b.
Proof. unfold total_cost. induction g as [|x g IH]; simpl; [lia | rewrite IH; lia]. Qed.

(** Only a page that holds a single block can cost more than the budget. *)
Lemma pack_within_budget bs : forall cur chars,
  chars = total_cost cost cur ->
  chars <= limit \/ (length cur <= 1)%nat ->
  Forall (fun g => total_cost cost g <= limit \/ length g = 1%nat)
    (pack limit cost cur chars bs).
Proof.
  induction bs as [|b r IH]; intros cur chars Hsum Hinv; simpl.
  - destruct cur as [|x cur]; constructor; [|constructor].
    destruct Hinv as [Hle|Hlen]; [left; lia | right; simpl in *; lia].
  - destruct (nonempty cur && (chars + cost b >? limit)) eqn:Hc.
    + apply andb_true_iff in Hc as [Hne _]. constructor.
      * destruct cur as [|x cur]; [discriminate|].
        destruct Hinv as [Hle|Hlen]; [left; lia | right; simpl in *; lia].
      * apply IH; [unfold total_cost; simpl; lia | right; simpl; lia].
    + apply IH; [rewrite total_cost_snoc; lia|].
      apply andb_false_iff in Hc as [Hnil|Hle].
      * destruct cur; [right; simpl; lia | discriminate].
      * left. rewrite Z.gtb_ltb in Hle. apply Z.ltb_ge in Hle. exact Hle.
Qed.
End WithinBudget.

(** * [paginate_book] *)

(** [paginate_book] never raises, and its result is the pure page list. *)
Lemma paginate_book_pure eb settings :
  exists limit ic,
    chars_per_page (font_size settings) = Ok limit /\ 800 <= limit <= 5760 /\
    image_cost limit = Ok ic /\ 0 <= ic /\
    paginate_book eb settings = Ok (all_pages limit ic 0 (chapters eb)).
Proof.
  destruct (chars_per_page_range (font_size settings)) as (limit & Hl & Hr).
  destruct (image_cost_in_range limit Hr) as (ic & Hic & Hnn & _).
  exists limit, ic. repeat split; try assumption; try lia.
  unfold paginate_book. rewrite Hl. simpl.
  rewrite (for_chapters_pure limit ic Hic). reflexivity.
Qed.

Lemma cost_with_nonneg ic : 0 <= ic -> forall b, 0 <= cost_with ic b.
Proof. intros H [text|d a]; simpl; lia. Qed.

(** C1: for every chapter and every font size, the pages emitted for the
    chapter's index, taken in emission order -- which is the order of their
    [page_in_chapter] numbers 1, 2, ... -- carry block lists whose
    concatenation is the chapter's block list; and every emitted page holds
    a run of consecutive blocks of the chapter its [chapter_index] names. *)
Theorem paginate_book_reproduces_chapters (eb : EpubBook) (settings : Settings) :
  exists pages,
    paginate_book eb settings = Ok pages /\
    (forall (i : nat) chap,
        chapters eb !! i = Some chap ->
        concat (blocks <$> pages_of_chapter (Z.of_nat i) pages) = chap_blocks chap /\
        page_in_chapter <$> pages_of_chapter (Z.of_nat i) pages =
        seqZ 1 (Z.of_nat (length (pages_of_chapter (Z.of_nat i) pages)))) /\
    (forall p, p ∈ pages ->
        exists (i : nat) chap,
          chapter_index p = Z.of_nat i /\ chapters eb !! i = Some chap /\
          segment_of (blocks p) (chap_blocks chap)).
Proof.
  destruct (paginate_book_pure eb settings) as (limit & ic & _ & _ & _ & _ & Hp).
  exists (all_pages limit ic 0 (chapters eb)). split; [exact Hp|]. split.
  - intros i chap Hi.
    pose proof (pages_of_chapter_all limit ic (chapters eb) 0 i) as Hf.
    rewrite Hi in Hf. rewrite Z.add_0_l in Hf. rewrite Hf. split.
    + apply chapter_pages_blocks.
    + unfold chapter_pages. rewrite number_pages_numbers.
      f_equal. f_equal. rewrite <- (length_fmap blocks), number_pages_blocks. reflexivity.
  - intros p Hin. destruct (all_pages_origin limit ic _ _ _ Hin) as (j & chap & Hj & Hpc).
    rewrite Z.add_0_l in Hpc.
    destruct (chapter_pages_segment limit ic _ _ _ Hpc) as (Hidx & _ & Hseg).
    exists j, chap. repeat split; assumption.
Qed.

Lemma paginate_book_reproduces_chapters_witness :
  exists pages,
    paginate_book
      (book_of_chapters [ {| chap_title := "c";
                             chap_blocks := [TextBlock "one"; ImageBlock "" "pic"] |} ])
      (settings_of_font_size 18) = Ok pages /\
    concat (blocks <$> pages_of_chapter 0 pages) = [TextBlock "one"; ImageBlock "" "pic"].
Proof.
  destruct (paginate_book_reproduces_chapters
              (book_of_chapters [ {| chap_title := "c";
                                     chap_blocks := [TextBlock "one"; ImageBlock "" "pic"] |} ])
              (settings_of_font_size 18)) as (pages & Hp & Hch & _).
  exists pages. split; [exact Hp|].
  exact (proj1 (Hch 0%nat _ eq_refl)).
Defined.

(** C4: for every chapter the [page_in_chapter] numbers of its pages are
    1, 2, ..., k in emission order; no emitted page has an empty block list;
    and a chapter without blocks has no page. *)
Theorem paginate_book_page_numbers (eb : EpubBook) (settings : Settings) :
  exists pages,
    paginate_book eb settings = Ok pages /\
    (forall (i : nat) chap,
        chapters eb !! i = Some chap ->
        exists k : nat,
          page_in_chapter <$> pages_of_chapter (Z.of_nat i) pages = seqZ 1 (Z.of_nat k)) /\
    Forall (fun p => blocks p <> []) pages /\
    (forall (i : nat) chap,
        chapters eb !! i = Some chap -> chap_blocks chap = [] ->
        pages_of_chapter (Z.of_nat i) pages = []).
Proof.
  destruct (paginate_book_pure eb settings) as (limit & ic & _ & _ & _ & _ & Hp).
  exists (all_pages limit ic 0 (chapters eb)). split; [exact Hp|]. split; [|split].
  - intros i chap Hi. eexists.
    pose proof (pages_of_chapter_all limit ic (chapters eb) 0 i) as Hf.
    rewrite Hi in Hf. rewrite Z.add_0_l in Hf. rewrite Hf.
    unfold chapter_pages. rewrite number_pages_numbers. reflexivity.
  - apply Forall_forall. intros p Hin.
    destruct (all_pages_origin limit ic _ _ _ Hin) as (j & chap & Hj & Hpc).
    apply (chapter_pages_segment limit ic _ _ _ Hpc).
  - intros i chap Hi Hnil.
    pose proof (pages_of_chapter_all limit ic (chapters eb) 0 i) as Hf.
    rewrite Hi in Hf. rewrite Z.add_0_l in Hf. rewrite Hf.
    unfold chapter_pages. rewrite Hnil. reflexivity.
Qed.

Lemma paginate_book_page_numbers_witness :
  exists pages,
    paginate_book
      (book_of_chapters [ {| chap_title := "empty"; chap_blocks := [] |};
                          {| chap_title := "c"; chap_blocks := [TextBlock "one"] |} ])
      (settings_of_font_size 18) = Ok pages /\
    pages_of_chapter 0 pages = [] /\
    exists k : nat, page_in_chapter <$> pages_of_chapter 1 pages = seqZ 1 (Z.of_nat k).
Proof.
  destruct (paginate_book_page_numbers
              (book_of_chapters [ {| chap_title := "empty"; chap_blocks := [] |};
                                  {| chap_title := "c"; chap_blocks := [TextBlock "one"] |} ])
              (settings_of_font_size 18)) as (pages & Hp & Hnum & _ & Hempty).
  exists pages. split; [exact Hp|]. split.
  - exact (Hempty 0%nat _ eq_refl eq_refl).
  - exact (Hnum 1%nat _ eq_refl).
Defined.

(** * The greedy step *)

Lemma add_block_by_cost limit ci ct st blk c :
  block_cost limit blk = Ok c ->
  add_block limit ci ct st blk =
  Ok (append_block
        (if nonempty (st_current_blocks st) && (st_current_chars st + c >? limit)
         then flush_page ci ct st else st) blk c).
Proof.
  destruct blk as [text|d a]; simpl; intros Hc.
  - injection Hc as <-. reflexivity.
  - rewrite Hc. reflexivity.
Qed.

Lemma nonempty_true {A : Type} (l : list A) : l <> [] -> nonempty l = true.
Proof. destruct l; [congruence | reflexivity]. Qed.

(** C2: the packer flushes greedily.  When the buffer is non-empty and the
    running cost plus the block's cost exceeds the budget, the step emits the
    buffer as the page numbered [st_page_in_chapter], resets buffer and cost,
    advances the page number, and only then appends the block; in every other
    case it appends the block to the buffer and emits nothing.  With budget
    800, one chapter with text blocks of lengths 500, 400 and 100 gives two
    pages: the first block alone, then the other two together. *)
Theorem greedy_flush :
  (forall limit ci ct st blk c,
      block_cost limit blk = Ok c ->
      st_current_blocks st <> [] ->
      st_current_chars st + c > limit ->
      add_block limit ci ct st blk =
      Ok {| st_pages := st_pages st ++
                        [ {| chapter_index := ci; chapter_title := ct;
                             page_in_chapter := st_page_in_chapter st;
                             blocks := st_current_blocks st |} ];
            st_current_blocks := [blk];
            st_current_chars := c;
            st_page_in_chapter := st_page_in_chapter st + 1 |}) /\
  (forall limit ci ct st blk c,
      block_cost limit blk = Ok c ->
      st_current_blocks st = [] \/ st_current_chars st + c <= limit ->
      add_block limit ci ct st blk =
      Ok {| st_pages := st_pages st;
            st_current_blocks := st_current_blocks st ++ [blk];
            st_current_chars := st_current_chars st + c;
            st_page_in_chapter := st_page_in_chapter st |}) /\
  (forall eb settings ct t1 t2 t3,
      chars_per_page (font_size settings) = Ok 800 ->
      chapters eb = [ {| chap_title := ct;
                         chap_blocks := [TextBlock t1; TextBlock t2; TextBlock t3] |} ] ->
      String.length t1 = 500%nat -> String.length t2 = 400%nat ->
      String.length t3 = 100%nat ->
      paginate_book eb settings =
      Ok [ {| chapter_index := 0; chapter_title := ct; page_in_chapter := 1;
              blocks := [TextBlock t1] |};
           {| chapter_index := 0; chapter_title := ct; page_in_chapter := 2;
              blocks := [TextBlock t2; TextBlock t3] |} ]).
Proof.
  split; [|split].
  - intros limit ci ct st blk c Hc Hne Hgt.
    rewrite (add_block_by_cost _ _ _ _ _ _ Hc).
    rewrite (nonempty_true _ Hne).
    replace (st_current_chars st + c >? limit) with true by (symmetry; apply Z.gtb_lt; lia).
    simpl. unfold flush_page, append_block.
    destruct (st_current_blocks st) as [|x cur]; [congruence|]. reflexivity.
  - intros limit ci ct st blk c Hc Hor.
    rewrite (add_block_by_cost _ _ _ _ _ _ Hc).
    replace (nonempty (st_current_blocks st) && (st_current_chars st + c >? limit))
      with false; [reflexivity|].
    symmetry. destruct Hor as [Hnil|Hle].
    + rewrite Hnil. reflexivity.
    + apply andb_false_intro2. rewrite Z.gtb_ltb. apply Z.ltb_ge. exact Hle.
  - intros eb settings ct t1 t2 t3 Hl Hch H1 H2 H3.
    unfold paginate_book. rewrite Hl, Hch. simpl.
    unfold paginate_chapter. simpl. unfold append_block. simpl.
    rewrite H1, H2, H3. reflexivity.
Qed.

Lemma greedy_flush_witness :
  add_block 800 0 "c"
    {| st_pages := []; st_current_blocks := [TextBlock "ab"]; st_current_chars := 799;
       st_page_in_chapter := 1 |} (TextBlock "cd") =
  Ok {| st_pages := [ {| chapter_index := 0; chapter_title := "c"; page_in_chapter := 1;
                         blocks := [TextBlock "ab"] |} ];
        st_current_blocks := [TextBlock "cd"];
        st_current_chars := 2;
        st_page_in_chapter := 2 |} /\
  add_block 800 0 "c"
    {| st_pages := []; st_current_blocks := [TextBlock "ab"]; st_current_chars := 798;
       st_page_in_chapter := 1 |} (TextBlock "cd") =
  Ok {| st_pages := [];
        st_current_blocks := [TextBlock "ab"; TextBlock "cd"];
        st_current_chars := 800;
        st_page_in_chapter := 1 |} /\
  paginate_book
    (book_of_chapters
       [ {| chap_title := "c";
            chap_blocks := [TextBlock (text_of_length 500); TextBlock (text_of_length 400);
                            TextBlock (text_of_length 100)] |} ])
    (settings_of_font_size 72) =
  Ok [ {| chapter_index := 0; chapter_title := "c"; page_in_chapter := 1;
          blocks := [TextBlock (text_of_length 500)] |};
       {| chapter_index := 0; chapter_title := "c"; page_in_chapter := 2;
          blocks := [TextBlock (text_of_length 400); TextBlock (text_of_length 100)] |} ].
Proof.
  destruct greedy_flush as (Hflush & Hkeep & Hscenario).
  split; [|split].
  - apply (Hflush 800 0 "c"
             {| st_pages := []; st_current_blocks := [TextBlock "ab"]; st_current_chars := 799;
                st_page_in_chapter := 1 |} (TextBlock "cd") 2).
    + reflexivity.
    + discriminate.
    + simpl. lia.
  - apply (Hkeep 800 0 "c"
             {| st_pages := []; st_current_blocks := [TextBlock "ab"]; st_current_chars := 798;
                st_page_in_chapter := 1 |} (TextBlock "cd") 2).
    + reflexivity.
    + right. simpl. lia.
  - apply (Hscenario _ (settings_of_font_size 72) "c").
    + vm_compute. reflexivity.
    + reflexivity.
    + vm_compute. reflexivity.
    + vm_compute. reflexivity.
    + vm_compute. reflexivity.
Defined.

(** C8: a block whose cost alone exceeds the budget is never split and shares
    its page with no other block: the page block lists of its chapter are
    those of the blocks before it, then the block by itself, then those of
    the blocks after it, and no exception is raised.  With budget 800 a
    chapter holding a single 900-character text block gives exactly one page
    that holds this block. *)
Theorem oversize_block_alone :
  (forall eb settings limit (i : nat) chap pre b post c,
      chars_per_page (font_size settings) = Ok limit ->
      chapters eb !! i = Some chap ->
      chap_blocks chap = pre ++ b :: post ->
      block_cost limit b = Ok c ->
      limit < c ->
      exists pages before after,
        paginate_book eb settings = Ok pages /\
        blocks <$> pages_of_chapter (Z.of_nat i) pages = before ++ [b] :: after /\
        concat before = pre /\ concat after = post) /\
  (forall eb settings ct text,
      chars_per_page (font_size settings) = Ok 800 ->
      chapters eb = [ {| chap_title := ct; chap_blocks := [TextBlock text] |} ] ->
      String.length text = 900%nat ->
      paginate_book eb settings =
      Ok [ {| chapter_index := 0; chapter_title := ct; page_in_chapter := 1;
              blocks := [TextBlock text] |} ]).
Proof.
  split.
  - intros eb settings limit i chap pre b post c Hl Hi Hsplit Hc Hgt.
    destruct (paginate_book_pure eb settings) as (limit' & ic & Hl' & _ & Hic & Hnn & Hp).
    assert (limit' = limit) as -> by congruence.
    exists (all_pages limit ic 0 (chapters eb)),
           (pack limit (cost_with ic) [] 0 pre), (pack limit (cost_with ic) [] 0 post).
    split; [exact Hp|].
    pose proof (pages_of_chapter_all limit ic (chapters eb) 0 i) as Hf.
    rewrite Hi in Hf. rewrite Z.add_0_l in Hf. rewrite Hf.
    unfold chapter_pages. rewrite number_pages_blocks, Hsplit.
    rewrite (block_cost_with limit ic Hic) in Hc. injection Hc as <-.
    rewrite (pack_oversize limit (cost_with ic) (cost_with_nonneg ic Hnn) b post Hgt pre [] 0)
      by lia.
    split; [reflexivity|]. split; apply pack_concat.
  - intros eb settings ct text Hl Hch Hlen.
    unfold paginate_book. rewrite Hl, Hch. simpl.
    unfold paginate_chapter. simpl. reflexivity.
Qed.

Lemma oversize_block_alone_witness :
  (exists pages before after,
      paginate_book
        (book_of_chapters
           [ {| chap_title := "c";
                chap_blocks := [TextBlock "x"; TextBlock (text_of_length 900);
                                TextBlock "y"] |} ])
        (settings_of_font_size 72) = Ok pages /\
      blocks <$> pages_of_chapter 0 pages =
      before ++ [TextBlock (text_of_length 900)] :: after /\
      concat before = [TextBlock "x"] /\ concat after = [TextBlock "y"]) /\
  paginate_book
    (book_of_chapters [ {| chap_title := "c";
                           chap_blocks := [TextBlock (text_of_length 900)] |} ])
    (settings_of_font_size 72) =
  Ok [ {| chapter_index := 0; chapter_title := "c"; page_in_chapter := 1;
          blocks := [TextBlock (text_of_length 900)] |} ].
Proof.
  destruct oversize_block_alone as (Hgeneral & Hscenario).
  split.
  - apply (Hgeneral _ (settings_of_font_size 72) 800 0%nat
             {| chap_title := "c";
                chap_blocks := [TextBlock "x"; TextBlock (text_of_length 900);
                                TextBlock "y"] |}
             [TextBlock "x"] (TextBlock (text_of_length 900)) [TextBlock "y"] 900).
    + vm_compute. reflexivity.
    + reflexivity.
    + reflexivity.
    + vm_compute. reflexivity.
    + lia.
  - apply (Hscenario _ (settings_of_font_size 72) "c" (text_of_length 900)).
    + vm_compute. reflexivity.
    + reflexivity.
    + vm_compute. reflexivity.
Defined.

(** * Stripping *)

Section Strip.
Variable f : ascii -> bool.

Lemma lstrip_head s c r : lstrip_with f s = String c r -> f c = false.
Proof.
  induction s as [|c' s IH]; simpl; [discriminate|].
  destruct (f c') eqn:Hc; [exact IH|]. intros [= <- _]. exact Hc.
Qed.

Lemma rstrip_cons_head c r :
  f c = false -> exists r', rstrip_with f (String c r) = String c r'.
Proof.
  intros Hc. simpl. destruct (rstrip_with f r) as [|c' r'].
  - rewrite Hc. eexists. reflexivity.
  - eexists. reflexivity.
Qed.

Lemma rstrip_idem s : rstrip_with f (rstrip_with f s) = rstrip_with f s.
Proof.
  induction s as [|c s IH]; [reflexivity|]. simpl.
  destruct (rstrip_with f s) as [|c' r'] eqn:Hr.
  - destruct (f c) eqn:Hc; [reflexivity|]. simpl. rewrite Hc. reflexivity.
  - change (rstrip_with f (String c (String c' r')))
      with (match rstrip_with f (String c' r') with
            | EmptyString => if f c then EmptyString else String c EmptyString
            | r'' => String c r''
            end).
    rewrite IH. reflexivity.
Qed.

Lemma rstrip_app t b :
  rstrip_with f b = b -> b <> "" -> rstrip_with f (t +:+ b) = t +:+ b.
Proof.
  intros Hb Hne. induction t as [|c t IH]; [exact Hb|].
  change (String c t +:+ b) with (String c (t +:+ b)).
  cbn [rstrip_with]. rewrite IH. destruct (t +:+ b) eqn:E; [|reflexivity].
  destruct t as [|c' t]; [change (b = "") in E; congruence|].
  change (String c' (t +:+ b) = "") in E. discriminate E.
Qed.

Lemma append_nonempty (t b : string) : b <> "" -> t +:+ b <> "".
Proof.
  intros Hne. destruct t as [|c t]; [exact Hne|].
  change (String c (t +:+ b) <> ""). discriminate.
Qed.

Lemma solid_strip s :
  rstrip_with f (lstrip_with f s) <> "" -> solid f (rstrip_with f (lstrip_with f s)).
Proof.
  intros Hne. split; [|apply rstrip_idem].
  destruct (lstrip_with f s) as [|c r] eqn:Hl; [simpl in Hne; congruence|].
  pose proof (lstrip_head _ _ _ Hl) as Hc.
  destruct (rstrip_cons_head c r Hc) as [r' Hr]. rewrite Hr. eauto.
Qed.

Lemma solid_app a sep b : solid f a -> solid f b -> solid f (a +:+ sep +:+ b).
Proof.
  intros [(c & r & -> & Hc) _] [(c' & r' & Hb & _) Hrb]. split.
  - simpl. eauto.
  - assert (Hb' : b <> "") by (rewrite Hb; discriminate).
    apply rstrip_app.
    + apply rstrip_app; assumption.
    + apply append_nonempty, Hb'.
Qed.

Lemma solid_fixed s : solid f s -> rstrip_with f (lstrip_with f s) = s.
Proof. intros [(c & r & -> & Hc) Hr]. simpl lstrip_with. rewrite Hc. exact Hr. Qed.

Lemma solid_nonempty s : solid f s -> s <> "".
Proof. intros [(c & r & -> & _) _]. discriminate. Qed.

Lemma solid_join sep l : l <> [] -> Forall (solid f) l -> solid f (py_join sep l).
Proof.
  intros Hne Hall. induction Hall as [|x l Hx Hl IH]; [congruence|].
  destruct l as [|y l]; [exact Hx|].
  change (py_join sep (x :: y :: l)) with (x +:+ sep +:+ py_join sep (y :: l)).
  apply solid_app; [exact Hx|]. apply IH. discriminate.
Qed.
End Strip.

Lemma stripped_strings_solid elem : Forall (solid py_isspace) (stripped_strings elem).
Proof.
  unfold stripped_strings. induction (descendants elem) as [|d ds IH]; [constructor|].
  simpl. apply Forall_app. split; [|exact IH].
  destruct d as [nm a cs|s]; [constructor|].
  destruct (py_strip s) eqn:E; constructor; [|constructor].
  rewrite <- E. apply solid_strip. unfold py_strip in E. rewrite E. discriminate.
Qed.

Lemma get_text_trimmed sep elem :
  get_text sep elem <> "" -> trimmed (get_text sep elem).
Proof.
  intros Hne. unfold trimmed, py_strip. apply solid_fixed.
  unfold get_text in *. apply solid_join; [|apply stripped_strings_solid].
  intros Hnil. rewrite Hnil in Hne. apply Hne. reflexivity.
Qed.

Lemma visit_elem_text_ok images blocks elem :
  Forall text_ok blocks -> Forall text_ok (visit_elem images blocks elem).
Proof.
  intros Hb. unfold visit_elem.
  set (blocks1 := if name_in ["p"; "h1"; "h2"; "h3"; "li"] elem then _ else blocks).
  assert (H1 : Forall text_ok blocks1).
  { unfold blocks1. destruct (name_in _ elem); [|exact Hb].
    destruct (get_text " " elem) eqn:E; [exact Hb|].
    apply Forall_app. split; [exact Hb|]. constructor; [|constructor].
    simpl. rewrite <- E. split; [|rewrite E; discriminate].
    apply get_text_trimmed. rewrite E. discriminate. }
  destruct (name_in ["img"] elem); [|exact H1].
  destruct (elem_get elem "src") as [[|c src]|]; try exact H1.
  destruct (dict_get images _); [|exact H1].
  apply Forall_app. split; [exact H1|]. constructor; [exact I | constructor].
Qed.

Lemma fold_visit_text_ok images elems : forall blocks,
  Forall text_ok blocks -> Forall text_ok (fold_left (visit_elem images) elems blocks).
Proof.
  induction elems as [|e es IH]; intros blocks Hb; [exact Hb|].
  simpl. apply IH, visit_elem_text_ok, Hb.
Qed.

Lemma load_document_text_ok book_title images soup chap :
  load_document book_title images soup = Some chap -> Forall text_ok (chap_blocks chap).
Proof.
  unfold load_document. destruct (soup_find ["body"] soup) as [body|]; [|discriminate].
  pose proof (fold_visit_text_ok images (descendants body) [] (Forall_nil_2 _)) as H.
  destruct (fold_left (visit_elem images) (descendants body) []) as [|b bs]; [discriminate|].
  intros [= <-]. exact H.
Qed.

Lemma fold_documents_text_ok book_title images its : forall acc,
  Forall (fun chap => Forall text_ok (chap_blocks chap)) acc ->
  Forall (fun chap => Forall text_ok (chap_blocks chap))
    (fold_left (fun chapters it =>
                  match it with
                  | EpubHtml _ soup =>
                      match load_document book_title images soup with
                      | Some chap => chapters ++ [chap]
                      | None => chapters
                      end
                  | _ => chapters
                  end) its acc).
Proof.
  induction its as [|it its IH]; intros acc Hacc; [exact Hacc|].
  simpl. apply IH. destruct it as [fn c|fn soup|fn]; try exact Hacc.
  destruct (load_document _ _ soup) as [chap|] eqn:E; [|exact Hacc].
  apply Forall_app. split; [exact Hacc|]. constructor; [|constructor].
  eapply load_document_text_ok, E.
Qed.

Lemma EpubBook_load_text_ok p pkg :
  Forall (fun chap => Forall text_ok (chap_blocks chap)) (chapters (EpubBook_load p pkg)).
Proof.
  unfold EpubBook_load. cbn [chapters].
  apply fold_documents_text_ok. constructor.
Qed.

(** * What a block costs *)

(** C7, as stated, fails for image blocks: at font size 20 the budget is
    2880 and the weight charged is 1007, while the floor of 2880 times 0.35
    is 1008.  The difference shows in the pages: a 1873-character text and
    an image share one page, although 1873 + 1008 exceeds the budget. *)
Lemma image_cost_below_floor :
  chars_per_page 20 = Ok 2880 /\
  block_cost 2880 (ImageBlock "" "") = Ok 1007 /\
  2880 * 35 / 100 = 1008 /\
  block_cost 2880 (ImageBlock "" "") <> Ok (2880 * 35 / 100) /\
  paginate_book
    (book_of_chapters [ {| chap_title := "c";
                           chap_blocks := [TextBlock (text_of_length 1873);
                                           ImageBlock "" ""] |} ])
    (settings_of_font_size 20) =
  Ok [ {| chapter_index := 0; chapter_title := "c"; page_in_chapter := 1;
          blocks := [TextBlock (text_of_length 1873); ImageBlock "" ""] |} ] /\
  1873 + 2880 * 35 / 100 > 2880.
Proof.
  split; [vm_compute; reflexivity|]. split; [vm_compute; reflexivity|].
  split; [reflexivity|]. split; [vm_compute; intros H; discriminate H|].
  split; [vm_compute; reflexivity | reflexivity].
Qed.

(** C7, amended: the cost charged against the budget is, for a text block,
    the character count of its text -- which the extractor has already
    stripped, so it is the count of the trimmed text -- and, for an image
    block, the integer part of the binary64 product of the budget and the
    double nearest to 0.35, whatever the image; over the budgets that
    [chars_per_page] produces this weight is the floor of 0.35 times the
    budget or one less. *)
Theorem block_cost_charged :
  (forall limit ci ct st blk c,
      block_cost limit blk = Ok c ->
      exists st',
        add_block limit ci ct st blk = Ok st' /\
        st_current_chars st' =
          (if nonempty (st_current_blocks st) && (st_current_chars st + c >? limit)
           then c else st_current_chars st + c)) /\
  (forall limit text,
      block_cost limit (TextBlock text) = Ok (Z.of_nat (String.length text))) /\
  (forall p pkg chap text,
      chap ∈ chapters (EpubBook_load p pkg) ->
      TextBlock text ∈ chap_blocks chap ->
      py_strip text = text /\ text <> "") /\
  (forall limit data alt,
      block_cost limit (ImageBlock data alt) =
      (l ← PyFloat.of_int limit; PyFloat.to_int (PyFloat.mul l PyFloat.lit_0_35))) /\
  (forall fs limit data alt,
      chars_per_page fs = Ok limit ->
      exists c, block_cost limit (ImageBlock data alt) = Ok c /\
                limit * 35 / 100 - 1 <= c <= limit * 35 / 100).
Proof.
  split; [|split; [|split; [|split]]].
  - intros limit ci ct st blk c Hc.
    rewrite (add_block_by_cost _ _ _ _ _ _ Hc). eexists. split; [reflexivity|].
    destruct (nonempty (st_current_blocks st) && (st_current_chars st + c >? limit)) eqn:E.
    + unfold flush_page. destruct (st_current_blocks st); [discriminate E | reflexivity].
    + reflexivity.
  - reflexivity.
  - intros p pkg chap text Hchap Htext.
    pose proof (EpubBook_load_text_ok p pkg) as Hall.
    rewrite Forall_forall in Hall. specialize (Hall chap Hchap).
    rewrite Forall_forall in Hall. exact (Hall _ Htext).
  - reflexivity.
  - intros fs limit data alt Hl.
    destruct (chars_per_page_range fs) as (limit' & Hl' & Hr).
    assert (limit' = limit) as -> by congruence.
    destruct (image_cost_in_range limit Hr) as (c & Hc & _ & Hb).
    exists c. split; [exact Hc | exact Hb].
Qed.

Lemma block_cost_charged_witness :
  exists c, block_cost 3200 (ImageBlock "" "") = Ok c /\
            3200 * 35 / 100 - 1 <= c <= 3200 * 35 / 100.
Proof.
  apply (proj2 (proj2 (proj2 (proj2 block_cost_charged))) 18 3200 "" "").
  vm_compute. reflexivity.
Defined.

(** * Images and texts *)

Lemma dot_or_slash_not_hash c : has_char c "./" = true -> Ascii.eqb c "#" = false.
Proof.
  cbn [has_char]. rewrite orb_false_r. intros H. apply orb_true_iff in H as [H|H];
    apply Ascii.eqb_eq in H; subst c; reflexivity.
Qed.

Lemma split_head_fragment s frag :
  has_char "#" s = false -> split_head "#" (s +:+ String "#" frag) = s.
Proof.
  induction s as [|c s IH]; intros Hs.
  - reflexivity.
  - cbn [has_char] in Hs. apply orb_false_iff in Hs as [Hc Hs].
    change (String c s +:+ String "#" frag) with (String c (s +:+ String "#" frag)).
    cbn [split_head]. rewrite Hc, IH by assumption. reflexivity.
Qed.

Lemma split_head_none s : has_char "#" s = false -> split_head "#" s = s.
Proof.
  induction s as [|c s IH]; intros Hs; [reflexivity|].
  cbn [has_char] in Hs. apply orb_false_iff in Hs as [Hc Hs].
  cbn [split_head]. rewrite Hc, IH by assumption. reflexivity.
Qed.

Lemma has_char_app c s t : has_char c (s +:+ t) = has_char c s || has_char c t.
Proof.
  induction s as [|c' s IH]; [reflexivity|].
  change (String c' s +:+ t) with (String c' (s +:+ t)). cbn [has_char].
  rewrite IH, orb_assoc. reflexivity.
Qed.

Lemma lstrip_prefix pre s :
  py_lstrip "./" pre = "" -> py_lstrip "./" (pre +:+ s) = py_lstrip "./" s.
Proof.
  unfold py_lstrip. induction pre as [|c pre IH]; intros Hp; [reflexivity|].
  change (String c pre +:+ s) with (String c (pre +:+ s)).
  cbn [lstrip_with] in *. destruct (has_char c "./"); [apply IH, Hp | discriminate Hp].
Qed.

Lemma prefix_no_hash pre : py_lstrip "./" pre = "" -> has_char "#" pre = false.
Proof.
  unfold py_lstrip. induction pre as [|c pre IH]; intros Hp; [reflexivity|].
  cbn [lstrip_with] in Hp. destruct (has_char c "./") eqn:Hc; [|discriminate Hp].
  cbn [has_char]. rewrite (dot_or_slash_not_hash c Hc), IH by assumption. reflexivity.
Qed.

(** On an ordinary reference the normalisation does what its three steps
    are meant to do: with [s] free of ['#'] and of ["../"] and not starting
    with a dot or a slash, any run of leading ["./"] and ["../"] and any
    fragment are removed and [s] is what remains. *)
Lemma normalize_ordinary pre s frag :
  py_lstrip "./" pre = "" ->
  has_char "#" s = false -> py_lstrip "./" s = s -> replace_updir s = s ->
  normalize_src (pre +:+ s) = s /\
  normalize_src (pre +:+ s +:+ String "#" frag) = s.
Proof.
  intros Hpre Hhash Hlead Hup.
  assert (Hps : has_char "#" (pre +:+ s) = false)
    by (rewrite has_char_app, (prefix_no_hash pre Hpre), Hhash; reflexivity).
  unfold normalize_src. split.
  - rewrite (split_head_none _ Hps), (lstrip_prefix pre s Hpre), Hlead. exact Hup.
  - assert (Happ : pre +:+ s +:+ String "#" frag = (pre +:+ s) +:+ String "#" frag).
    { clear. induction pre as [|c pre IH]; [reflexivity|].
      change (String c (pre +:+ s +:+ String "#" frag) =
              String c ((pre +:+ s) +:+ String "#" frag)). rewrite IH. reflexivity. }
    rewrite Happ, (split_head_fragment _ frag Hps), (lstrip_prefix pre s Hpre), Hlead.
    exact Hup.
Qed.

Example normalize_ordinary_example :
  normalize_src "../images/a.png" = "images/a.png" /\
  normalize_src "../images/a.png#top" = "images/a.png".
Proof.
  apply (normalize_ordinary "../" "images/a.png" "top"); reflexivity.
Qed.

Lemma resolve_key_cases images src :
  let key := normalize_src src in
  (dict_mem images key = true -> resolve_key images src = key) /\
  (dict_mem images key = false ->
   resolve_key images src =
   default key (List.find (fun k => String.eqb (basename k) (basename key))
                  (dict_keys images))).
Proof.
  intros key. unfold resolve_key. fold key. split; intros H; rewrite H; [reflexivity|].
  destruct (List.find _ _); reflexivity.
Qed.

(** Resolution by basename alone: the first key, in insertion order, with
    the reference's file name. *)
Example resolve_by_basename :
  resolve_key [("OEBPS/images/a.png", "A"); ("x/b.png", "B1"); ("y/b.png", "B2")]
    "../img/b.png#frag" = "x/b.png" /\
  resolve_key [("OEBPS/images/a.png", "A"); ("x/b.png", "B1"); ("y/b.png", "B2")]
    "./y/b.png" = "y/b.png" /\
  resolve_key [("OEBPS/images/a.png", "A")] "missing.png" = "missing.png".
Proof. repeat split. Qed.

Lemma texts_of_app bs bs' : texts_of (bs ++ bs') = texts_of bs ++ texts_of bs'.
Proof. unfold texts_of. apply flat_map_app. Qed.

(** The text blocks an element contributes do not depend on the image map:
    an image that is dropped leaves the texts around it as they are. *)
Lemma visit_elem_texts images blocks elem :
  texts_of (visit_elem images blocks elem) = texts_of blocks ++ elem_texts elem.
Proof.
  unfold visit_elem, elem_texts.
  set (blocks1 := if name_in ["p"; "h1"; "h2"; "h3"; "li"] elem then _ else blocks).
  assert (H1 : texts_of blocks1 =
               texts_of blocks ++
               (if name_in ["p"; "h1"; "h2"; "h3"; "li"] elem
                then match get_text " " elem with EmptyString => [] | t => [t] end
                else [])).
  { unfold blocks1. destruct (name_in _ elem); [|rewrite app_nil_r; reflexivity].
    destruct (get_text " " elem); [rewrite app_nil_r; reflexivity|].
    rewrite texts_of_app. reflexivity. }
  destruct (name_in ["img"] elem); [|exact H1].
  destruct (elem_get elem "src") as [[|c src]|]; try exact H1.
  destruct (dict_get images _); [|exact H1].
  rewrite texts_of_app, H1. simpl. rewrite app_nil_r. reflexivity.
Qed.

Lemma fold_visit_texts images elems : forall blocks,
  texts_of (fold_left (visit_elem images) elems blocks) =
  texts_of blocks ++ flat_map elem_texts elems.
Proof.
  induction elems as [|e es IH]; intros blocks; simpl; [rewrite app_nil_r; reflexivity|].
  rewrite IH, visit_elem_texts, <- app_assoc. reflexivity.
Qed.

Lemma get_text_plain sep name a s :
  py_strip s <> "" -> get_text sep (Tag name a [NavigableString s]) = py_strip s.
Proof.
  intros Hne. unfold get_text, stripped_strings. simpl.
  destruct (py_strip s); [congruence | reflexivity].
Qed.

Lemma visit_text_elem images blocks name a s :
  name_in ["p"; "h1"; "h2"; "h3"; "li"] (Tag name a [NavigableString s]) = true ->
  name_in ["img"] (Tag name a [NavigableString s]) = false ->
  py_strip s <> "" ->
  visit_elem images blocks (Tag name a [NavigableString s]) = blocks ++ [TextBlock (py_strip s)].
Proof.
  intros Ht Hi Hne. unfold visit_elem. rewrite Ht, Hi.
  rewrite get_text_plain by assumption.
  destruct (py_strip s); [congruence | reflexivity].
Qed.

Lemma visit_string images blocks s :
  visit_elem images blocks (NavigableString s) = blocks.
Proof. reflexivity. Qed.





















(** C5: the image whose file name begins with a dot.  The reference
    [".cover.png"] names the resource [".cover.png"] exactly, yet
    [lstrip("./")] removes the leading dot, the key ["cover.png"] is not in
    the map, no basename equals it, and the image is dropped; the two
    paragraphs around it stay. *)
Theorem dot_image_dropped :
  dict_mem [(".cover.png", "PNG")] ".cover.png" = true /\
  resolve_key [(".cover.png", "PNG")] ".cover.png" = "cover.png" /\
  load_document "Book" [(".cover.png", "PNG")] dot_image_doc =
  Some {| chap_title := "Book"; chap_blocks := [TextBlock "before"; TextBlock "after"] |}.
Proof. repeat split. Qed.

(** * Metadata *)

(** C9, as stated, fails for [EpubBook]: without a creator entry its author
    is the placeholder ["Desconocido"], not the empty string. *)
Lemma epubbook_author_placeholder :
  dc_creator bare_package = [] /\
  (exists eb, EpubBook_init (world_with bare_package) sample_path = Ok eb /\
              author eb = "Desconocido" /\ author eb <> "").
Proof.
  split; [reflexivity|].
  eexists. split; [reflexivity|]. split; [reflexivity | discriminate].
Qed.

(** C9, amended: both readers take the title from the first title entry and
    fall back to the file's stem; the author comes from the first creator
    entry, and without one it is the empty string in [get_epub_metadata] and
    ["Desconocido"] in [EpubBook].  [get_epub_metadata] also answers with the
    stem and the empty string when the library is missing or the file cannot
    be read. *)
Theorem metadata_fallbacks :
  (forall p book,
      dc_title book = [] -> title (EpubBook_load p book) = stem p) /\
  (forall p book,
      dc_creator book = [] -> author (EpubBook_load p book) = "Desconocido") /\
  (forall p book v a rest,
      dc_title book = (v, a) :: rest -> title (EpubBook_load p book) = v) /\
  (forall p book v a rest,
      dc_creator book = (v, a) :: rest -> author (EpubBook_load p book) = v) /\
  (forall w p book,
      epub_available w = true -> read_epub w p = Ok book ->
      (dc_title book = [] -> fst (get_epub_metadata w p) = stem p) /\
      (dc_creator book = [] -> snd (get_epub_metadata w p) = "") /\
      (forall v a rest, dc_title book = (v, a) :: rest -> fst (get_epub_metadata w p) = v) /\
      (forall v a rest, dc_creator book = (v, a) :: rest -> snd (get_epub_metadata w p) = v)) /\
  (forall w p,
      epub_available w = false \/ (exists exc, read_epub w p = Raise exc) ->
      get_epub_metadata w p = (stem p, "")).
Proof.
  split; [|split; [|split; [|split; [|split]]]].
  - intros p book Ht. unfold EpubBook_load. simpl. rewrite Ht. reflexivity.
  - intros p book Ha. unfold EpubBook_load. simpl. rewrite Ha. reflexivity.
  - intros p book v a rest Ht. unfold EpubBook_load. simpl. rewrite Ht. reflexivity.
  - intros p book v a rest Ha. unfold EpubBook_load. simpl. rewrite Ha. reflexivity.
  - intros w p book Hav Hread. unfold get_epub_metadata. rewrite Hav, Hread. simpl.
    split; [|split; [|split]].
    + intros Ht. rewrite Ht. reflexivity.
    + intros Ha. rewrite Ha. destruct (dc_title book) as [|[? ?] ?]; reflexivity.
    + intros v a rest Ht. rewrite Ht. reflexivity.
    + intros v a rest Ha. rewrite Ha. destruct (dc_title book) as [|[? ?] ?]; reflexivity.
  - intros w p [Hna|[exc Hexc]]; unfold get_epub_metadata.
    + rewrite Hna. reflexivity.
    + rewrite Hexc. destruct (epub_available w); reflexivity.
Qed.

Lemma metadata_fallbacks_witness :
  title (EpubBook_load sample_path bare_package) = "novel" /\
  author (EpubBook_load sample_path bare_package) = "Desconocido" /\
  get_epub_metadata (world_with bare_package) sample_path = ("novel", "").
Proof.
  destruct metadata_fallbacks as (Ht & Ha & _ & _ & Hm & _).
  split; [|split].
  - apply (Ht sample_path bare_package). reflexivity.
  - apply (Ha sample_path bare_package). reflexivity.
  - destruct (Hm (world_with bare_package) sample_path bare_package eq_refl eq_refl)
      as (H1 & H2 & _).
    rewrite (surjective_pairing (get_epub_metadata _ _)).
    rewrite (H1 eq_refl), (H2 eq_refl). reflexivity.
Defined.

(** * The page cache *)

(** When the book's id is not in the cache (or the book has no id), the
    call stores the length of the returned list in [total_pages], resets
    [current_page] to 0 exactly when it was at or past that length, and
    caches the list under the id. *)
Lemma get_pages_for_book_miss w settings (cache : gmap Z (list ChapterPage)) book :
  Book.id book ≫= (fun i => cache !! i) = None ->
  forall pages book' cache',
    get_pages_for_book w settings cache book = (pages, book', cache') ->
    Book.total_pages book' = Z.of_nat (length pages) /\
    Book.current_page book' =
      (if Book.current_page book >=? Z.of_nat (length pages) then 0
       else Book.current_page book) /\
    (0 < Book.total_pages book' -> Book.current_page book' < Book.total_pages book') /\
    (0 <= Book.current_page book -> 0 <= Book.current_page book') /\
    Book.id book' = Book.id book /\
    (forall i, Book.id book = Some i -> cache' !! i = Some pages).
Proof.
  intros Hmiss pages book' cache' Hcall.
  unfold get_pages_for_book in Hcall. rewrite Hmiss in Hcall.
  assert (Hid : Book.id (snd (compute_pages w settings book)) = Book.id book).
  { unfold compute_pages.
    destruct (Book.file_path book) as [p|]; [|reflexivity].
    destruct (negb (path_exists w p)); [reflexivity|].
    destruct (EpubBook_init w p) as [eb|exc]; [|reflexivity].
    destruct (is_empty_string (Book.title book) && negb (is_empty_string (title eb)));
      destruct (is_empty_string (Book.author _) && negb (is_empty_string (author eb)));
      destruct (paginate_book eb settings); reflexivity. }
  assert (Hcur : Book.current_page (snd (compute_pages w settings book)) =
                 Book.current_page book).
  { unfold compute_pages.
    destruct (Book.file_path book) as [p|]; [|reflexivity].
    destruct (negb (path_exists w p)); [reflexivity|].
    destruct (EpubBook_init w p) as [eb|exc]; [|reflexivity].
    destruct (is_empty_string (Book.title book) && negb (is_empty_string (title eb)));
      destruct (is_empty_string (Book.author _) && negb (is_empty_string (author eb)));
      destruct (paginate_book eb settings); reflexivity. }
  destruct (compute_pages w settings book) as [pgs bk]. simpl in Hid, Hcur.
  injection Hcall as <- <- <-. simpl. rewrite Hcur.
  repeat split.
  + destruct (Z.geb_spec (Book.current_page book) (Z.of_nat (length pgs))); lia.
  + destruct (Z.geb_spec (Book.current_page book) (Z.of_nat (length pgs))); lia.
  + exact Hid.
  + intros i Hi. rewrite Hid, Hi. apply lookup_insert_eq.
Qed.

(** When the id is in the cache, the cached list is returned and neither
    the record nor the cache changes. *)
Lemma get_pages_for_book_hit w settings (cache : gmap Z (list ChapterPage)) book i cached :
  Book.id book = Some i -> cache !! i = Some cached ->
  get_pages_for_book w settings cache book = (cached, book, cache).
Proof.
  intros Hi Hc. unfold get_pages_for_book. rewrite Hi. simpl. rewrite Hc.
  reflexivity.
Qed.

(** * More on the paginator *)

Lemma pack_head limit cost bs : forall cur chars,
  cur <> [] ->
  exists t rest, pack limit cost cur chars bs = (cur ++ t) :: rest.
Proof.
  induction bs as [|b r IH]; intros cur chars Hne; simpl.
  - destruct cur; [congruence|]. exists [], []. rewrite app_nil_r. reflexivity.
  - destruct (nonempty cur && (chars + cost b >? limit)).
    + exists [], (pack limit cost [b] (cost b) r). rewrite app_nil_r. reflexivity.
    + destruct (IH (cur ++ [b]) (chars + cost b)) as (t & rest & Heq).
      { destruct cur; discriminate. }
      exists (b :: t), rest. rewrite Heq, <- app_assoc. reflexivity.
Qed.

(** Two buffers flushed one after the other: the first block of the second
    did not fit on the first. *)
Lemma pack_breaks limit cost bs : forall cur chars l1 g1 g2 l2,
  chars = total_cost cost cur ->
  pack limit cost cur chars bs = l1 ++ g1 :: g2 :: l2 ->
  exists b r, g2 = b :: r /\ total_cost cost g1 + cost b > limit.
Proof.
  induction bs as [|b r IH]; intros cur chars l1 g1 g2 l2 Hc Heq; simpl in Heq.
  - destruct cur; [destruct l1; discriminate|].
    destruct l1 as [|x [|y l1]]; discriminate.
  - destruct (nonempty cur && (chars + cost b >? limit)) eqn:Hif.
    + destruct l1 as [|x l1]; simpl in Heq.
      * injection Heq as Hg1 Hrest.
        destruct (pack_head limit cost r [b] (cost b)) as (t & rest & Hh); [discriminate|].
        rewrite Hh in Hrest. injection Hrest as Hg2 _.
        exists b, t. split; [symmetry; exact Hg2|].
        apply andb_prop in Hif as [_ Hgt]. subst. revert Hgt. rewrite Z.gtb_ltb, Z.ltb_lt. lia.
      * injection Heq as _ Hrest.
        eapply (IH [b] (cost b)); [|exact Hrest]. simpl. lia.
    + eapply (IH (cur ++ [b]) (chars + cost b)); [|exact Heq].
      rewrite total_cost_snoc. lia.
Qed.

Lemma number_pages_split ci ct groups : forall n l1 p q l2,
  number_pages ci ct n groups = l1 ++ p :: q :: l2 ->
  exists k1 k2, groups = k1 ++ blocks p :: blocks q :: k2.
Proof.
  intros n l1 p q l2 Heq.
  pose proof (number_pages_blocks ci ct groups n) as Hb.
  rewrite Heq, fmap_app in Hb. simpl in Hb.
  exists (blocks <$> l1), (blocks <$> l2). symmetry. exact Hb.
Qed.

Lemma pack_nil limit cost bs : pack limit cost [] 0 bs = [] -> bs = [].
Proof.
  intros H. pose proof (pack_concat limit cost bs [] 0) as Hc.
  rewrite H in Hc. simpl in Hc. symmetry. exact Hc.
Qed.

(** X1: at every font size, every page that [paginate_book] emits weighs
    at most the budget, unless it holds one single block. *)
Theorem paginate_book_within_budget (eb : EpubBook) (settings : Settings) :
  exists limit ic pages,
    chars_per_page (font_size settings) = Ok limit /\
    image_cost limit = Ok ic /\
    paginate_book eb settings = Ok pages /\
    Forall (fun p => page_cost ic p <= limit \/ length (blocks p) = 1%nat) pages.
Proof.
  destruct (paginate_book_pure eb settings) as (limit & ic & Hl & Hr & Hic & Hnn & Hp).
  exists limit, ic, (all_pages limit ic 0 (chapters eb)).
  repeat split; try assumption.
  apply Forall_forall. intros p Hin.
  destruct (all_pages_origin limit ic _ _ _ Hin) as (j & chap & _ & Hpc).
  assert (Hb : blocks p ∈ blocks <$> chapter_pages limit ic (0 + Z.of_nat j) chap)
    by (apply list_elem_of_fmap; exists p; split; [reflexivity | exact Hpc]).
  unfold chapter_pages in Hb. rewrite number_pages_blocks in Hb.
  pose proof (pack_within_budget limit (cost_with ic) (chap_blocks chap) [] 0) as H.
  rewrite Forall_forall in H. apply H; [reflexivity | left; simpl; lia | exact Hb].
Qed.

(** X2: a page break is never early: when two pages of one chapter follow
    each other, the first block of the second page would have pushed the
    first page over the budget. *)
Theorem page_breaks_are_forced (eb : EpubBook) (settings : Settings) :
  exists limit ic pages,
    chars_per_page (font_size settings) = Ok limit /\
    image_cost limit = Ok ic /\
    paginate_book eb settings = Ok pages /\
    forall (i : nat) l1 p q l2,
      pages_of_chapter (Z.of_nat i) pages = l1 ++ p :: q :: l2 ->
      exists b r, blocks q = b :: r /\ page_cost ic p + cost_with ic b > limit.
Proof.
  destruct (paginate_book_pure eb settings) as (limit & ic & Hl & Hr & Hic & Hnn & Hp).
  exists limit, ic, (all_pages limit ic 0 (chapters eb)).
  repeat split; try assumption.
  intros i l1 p q l2 Heq.
  pose proof (pages_of_chapter_all limit ic (chapters eb) 0 i) as Hf.
  rewrite Z.add_0_l in Hf. rewrite Hf in Heq.
  destruct (chapters eb !! i) as [chap|]; [|destruct l1; discriminate].
  unfold chapter_pages in Heq.
  destruct (number_pages_split _ _ _ _ _ _ _ _ Heq) as (k1 & k2 & Hg).
  eapply pack_breaks; [|exact Hg]. reflexivity.
Qed.

Lemma page_breaks_are_forced_witness :
  exists limit ic pages,
    chars_per_page 30 = Ok limit /\
    image_cost limit = Ok ic /\
    paginate_book
      (book_of_chapters [ {| chap_title := "c";
                             chap_blocks := [TextBlock (text_of_length 1900);
                                             TextBlock (text_of_length 100)] |} ])
      (settings_of_font_size 30) = Ok pages /\
    exists b r, blocks <$> pages !! 1%nat = Some (b :: r) /\
                default 0 (page_cost ic <$> pages !! 0%nat) + cost_with ic b > limit.
Proof.
  destruct (page_breaks_are_forced
              (book_of_chapters [ {| chap_title := "c";
                                     chap_blocks := [TextBlock (text_of_length 1900);
                                                     TextBlock (text_of_length 100)] |} ])
              (settings_of_font_size 30)) as (limit & ic & pages & Hl & Hic & Hp & H).
  exists limit, ic, pages. repeat split; try assumption.
  assert (Hpages : Ok pages = Ok
            [ {| chapter_index := 0; chapter_title := "c"; page_in_chapter := 1;
                 blocks := [TextBlock (text_of_length 1900)] |};
              {| chapter_index := 0; chapter_title := "c"; page_in_chapter := 2;
                 blocks := [TextBlock (text_of_length 100)] |} ]).
  { rewrite <- Hp. vm_compute. reflexivity. }
  injection Hpages as Hpages.
  destruct (H 0%nat [] _ _ [] (f_equal (pages_of_chapter 0) Hpages)) as (b & r & Hq & Hgt).
  exists b, r. rewrite Hpages. simpl. split; [f_equal; exact Hq | exact Hgt].
Defined.

Lemma number_pages_lookup ci ct groups : forall n (i : nat) p,
  number_pages ci ct n groups !! i = Some p ->
  chapter_index p = ci /\ chapter_title p = ct /\ page_in_chapter p = n + Z.of_nat i.
Proof.
  induction groups as [|g r IH]; intros n i p Hp; [discriminate|].
  destruct i as [|i]; simpl in Hp.
  - injection Hp as <-. simpl. repeat split. lia.
  - destruct (IH _ _ _ Hp) as (H1 & H2 & H3). repeat split; try assumption. lia.
Qed.

Lemma all_pages_sorted limit ic chaps : forall ci (i j : nat) p q,
  (i < j)%nat ->
  all_pages limit ic ci chaps !! i = Some p ->
  all_pages limit ic ci chaps !! j = Some q ->
  page_before p q.
Proof.
  induction chaps as [|c r IH]; intros ci i j p q Hij Hp Hq; [discriminate|].
  simpl in Hp, Hq.
  apply lookup_app_Some in Hp as [Hp|[Hlp Hp]];
    apply lookup_app_Some in Hq as [Hq|[Hlq Hq]].
  - destruct (number_pages_lookup _ _ _ _ _ _ Hp) as (Hp1 & _ & Hp3).
    destruct (number_pages_lookup _ _ _ _ _ _ Hq) as (Hq1 & _ & Hq3).
    right. split; [congruence | lia].
  - destruct (number_pages_lookup _ _ _ _ _ _ Hp) as (Hp1 & _ & _).
    pose proof (all_pages_index limit ic r (ci + 1)) as Hall.
    rewrite Forall_forall in Hall.
    pose proof (Hall q (list_elem_of_lookup_2 _ _ _ Hq)) as Hge.
    left. lia.
  - apply lookup_lt_Some in Hq. lia.
  - eapply (IH (ci + 1) (i - _)%nat (j - _)%nat); [|exact Hp|exact Hq]. lia.
Qed.

Lemma chapter_pages_title limit ic ci chap p :
  p ∈ chapter_pages limit ic ci chap -> chapter_title p = chap_title chap.
Proof.
  intros Hp. pose proof (number_pages_index ci (chap_title chap)
    (pack limit (cost_with ic) [] 0 (chap_blocks chap)) 1) as H.
  rewrite Forall_forall in H. apply (H p Hp).
Qed.

(** X3: pages come out in reading order -- of two emitted pages the earlier
    one belongs to an earlier chapter, or to the same chapter with a smaller
    page number, so no two pages share chapter and number -- and every page
    carries the title of the chapter its index names. *)
Theorem paginate_book_reading_order (eb : EpubBook) (settings : Settings) :
  exists pages,
    paginate_book eb settings = Ok pages /\
    (forall (i j : nat) p q,
        (i < j)%nat -> pages !! i = Some p -> pages !! j = Some q -> page_before p q) /\
    (forall p, p ∈ pages ->
        exists (i : nat) chap,
          chapter_index p = Z.of_nat i /\ chapters eb !! i = Some chap /\
          chapter_title p = chap_title chap).
Proof.
  destruct (paginate_book_pure eb settings) as (limit & ic & _ & _ & _ & _ & Hp).
  exists (all_pages limit ic 0 (chapters eb)). split; [exact Hp|]. split.
  - apply all_pages_sorted.
  - intros p Hin. destruct (all_pages_origin limit ic _ _ _ Hin) as (j & chap & Hj & Hpc).
    rewrite Z.add_0_l in Hpc. exists j, chap.
    split; [apply (chapter_pages_segment limit ic _ _ _ Hpc)|].
    split; [exact Hj|]. eapply chapter_pages_title, Hpc.
Qed.

Lemma paginate_book_reading_order_witness :
  exists pages p q,
    paginate_book
      (book_of_chapters [ {| chap_title := "a"; chap_blocks := [TextBlock "one"] |};
                          {| chap_title := "b"; chap_blocks := [TextBlock "two"] |} ])
      (settings_of_font_size 18) = Ok pages /\
    pages !! 0%nat = Some p /\ pages !! 1%nat = Some q /\ page_before p q.
Proof.
  destruct (paginate_book_reading_order
              (book_of_chapters [ {| chap_title := "a"; chap_blocks := [TextBlock "one"] |};
                                  {| chap_title := "b"; chap_blocks := [TextBlock "two"] |} ])
              (settings_of_font_size 18)) as (pages & Hp & Hord & _).
  assert (Hpages : Ok pages = Ok
            [ {| chapter_index := 0; chapter_title := "a"; page_in_chapter := 1;
                 blocks := [TextBlock "one"] |};
              {| chapter_index := 1; chapter_title := "b"; page_in_chapter := 1;
                 blocks := [TextBlock "two"] |} ]).
  { rewrite <- Hp. vm_compute. reflexivity. }
  injection Hpages as Hpages.
  exists pages, {| chapter_index := 0; chapter_title := "a"; page_in_chapter := 1;
                   blocks := [TextBlock "one"] |},
         {| chapter_index := 1; chapter_title := "b"; page_in_chapter := 1;
            blocks := [TextBlock "two"] |}.
  assert (H0 : pages !! 0%nat = Some {| chapter_index := 0; chapter_title := "a";
                 page_in_chapter := 1; blocks := [TextBlock "one"] |})
    by (rewrite Hpages; reflexivity).
  assert (H1 : pages !! 1%nat = Some {| chapter_index := 1; chapter_title := "b";
                 page_in_chapter := 1; blocks := [TextBlock "two"] |})
    by (rewrite Hpages; reflexivity).
  split; [exact Hp|]. split; [exact H0|]. split; [exact H1|].
  apply (Hord 0%nat 1%nat _ _ (le_n 1) H0 H1).
Defined.

(** * More on the extractor *)

Lemma dict_get_set {V : Type} (d : pydict V) k v k' :
  dict_get (dict_set d k v) k' = if String.eqb k k' then Some v else dict_get d k'.
Proof.
  induction d as [|[k0 v0] r IH]; simpl.
  - reflexivity.
  - destruct (String.eqb k0 k) eqn:E0; simpl.
    + apply String.eqb_eq in E0. subst k0. destruct (String.eqb k k'); reflexivity.
    + rewrite IH. destruct (String.eqb k0 k') eqn:E1; [|reflexivity].
      apply String.eqb_eq in E1. subst k0.
      rewrite String.eqb_sym in E0. rewrite E0. reflexivity.
Qed.

Lemma fold_images_keep fn items : forall acc,
  Forall (fun it => ~ image_named fn it) items ->
  dict_get (fold_left (fun images it =>
                         match it with
                         | EpubImage fn content => dict_set images fn content
                         | _ => images
                         end) items acc) fn = dict_get acc fn.
Proof.
  induction items as [|it r IH]; intros acc Hno; [reflexivity|].
  inversion Hno as [|? ? Hit Hr]; subst. simpl. rewrite IH by exact Hr.
  destruct it as [fn' c|fn' s|fn']; try reflexivity.
  rewrite dict_get_set. destruct (String.eqb fn' fn) eqn:E; [|reflexivity].
  apply String.eqb_eq in E. exfalso. apply Hit. exact E.
Qed.

Lemma fold_images_sound items : forall acc k c,
  dict_get (fold_left (fun images it =>
                         match it with
                         | EpubImage fn content => dict_set images fn content
                         | _ => images
                         end) items acc) k = Some c ->
  dict_get acc k = Some c \/ EpubImage k c ∈ items.
Proof.
  induction items as [|it r IH]; intros acc k c H; [left; exact H|].
  simpl in H. apply IH in H as [H|H]; [|right; right; exact H].
  destruct it as [fn' c'|fn' s|fn']; try (left; exact H).
  rewrite dict_get_set in H. destruct (String.eqb fn' k) eqn:E; [|left; exact H].
  apply String.eqb_eq in E. injection H as ->. subst. right. left.
Qed.

(** X4: when the same file name occurs more than once among the image
    resources, the image map holds the content of the last one; a name that
    no image resource carries is not in the map. *)
Theorem load_images_last_wins (items : list item) (fn : string) :
  (forall l1 content l2,
      items = l1 ++ EpubImage fn content :: l2 ->
      Forall (fun it => ~ image_named fn it) l2 ->
      dict_get (load_images items) fn = Some content) /\
  (Forall (fun it => ~ image_named fn it) items ->
   dict_get (load_images items) fn = None).
Proof.
  split.
  - intros l1 content l2 -> Hno. unfold load_images.
    rewrite fold_left_app. simpl. rewrite fold_images_keep by exact Hno.
    rewrite dict_get_set, String.eqb_refl. reflexivity.
  - intros Hno. unfold load_images. rewrite fold_images_keep by exact Hno. reflexivity.
Qed.

Lemma load_images_last_wins_witness :
  dict_get (load_images [EpubImage "a.png" "old"; EpubHtml "c.xhtml" [];
                         EpubImage "a.png" "new"; EpubItem "style.css"]) "a.png"
  = Some "new".
Proof.
  apply (proj1 (load_images_last_wins _ "a.png")
           [EpubImage "a.png" "old"; EpubHtml "c.xhtml" []] "new" [EpubItem "style.css"]).
  - reflexivity.
  - constructor; [|constructor]. simpl. intros H. exact H.
Defined.

Lemma load_images_sound items k c :
  dict_get (load_images items) k = Some c -> EpubImage k c ∈ items.
Proof.
  intros H. apply fold_images_sound in H as [H|H]; [discriminate | exact H].
Qed.

Lemma visit_elem_image_from items blocks elem :
  Forall (image_from items) blocks ->
  Forall (image_from items) (visit_elem (load_images items) blocks elem).
Proof.
  intros Hb. unfold visit_elem.
  set (blocks1 := if name_in ["p"; "h1"; "h2"; "h3"; "li"] elem then _ else blocks).
  assert (H1 : Forall (image_from items) blocks1).
  { unfold blocks1. destruct (name_in _ elem); [|exact Hb].
    destruct (get_text " " elem) eqn:E; [exact Hb|].
    apply Forall_app. split; [exact Hb|]. constructor; [exact I | constructor]. }
  destruct (name_in ["img"] elem); [|exact H1].
  destruct (elem_get elem "src") as [[|c src]|]; try exact H1.
  destruct (dict_get (load_images items) _) as [content|] eqn:E; [|exact H1].
  apply Forall_app. split; [exact H1|]. constructor; [|constructor].
  simpl. eexists _, content. split; [|reflexivity]. eapply load_images_sound, E.
Qed.

Lemma fold_visit_image_from items elems : forall blocks,
  Forall (image_from items) blocks ->
  Forall (image_from items) (fold_left (visit_elem (load_images items)) elems blocks).
Proof.
  induction elems as [|e es IH]; intros blocks Hb; [exact Hb|].
  simpl. apply IH, visit_elem_image_from, Hb.
Qed.

(** What holds of every chapter that [load_document] can return holds of
    every chapter of the loaded book. *)
Lemma fold_documents_forall (Q : Chapter -> Prop) book_title images its : forall acc,
  (forall soup chap, load_document book_title images soup = Some chap -> Q chap) ->
  Forall Q acc ->
  Forall Q
    (fold_left (fun chapters it =>
                  match it with
                  | EpubHtml _ soup =>
                      match load_document book_title images soup with
                      | Some chap => chapters ++ [chap]
                      | None => chapters
                      end
                  | _ => chapters
                  end) its acc).
Proof.
  induction its as [|it its IH]; intros acc HQ Hacc; [exact Hacc|].
  simpl. apply IH; [exact HQ|]. destruct it as [fn c|fn soup|fn]; try exact Hacc.
  destruct (load_document _ _ soup) as [chap|] eqn:E; [|exact Hacc].
  apply Forall_app. split; [exact Hacc|]. constructor; [|constructor].
  eapply HQ, E.
Qed.

Lemma EpubBook_load_forall (Q : Chapter -> Prop) p pkg :
  (forall book_title soup chap,
      load_document book_title (load_images (get_items pkg)) soup = Some chap -> Q chap) ->
  Forall Q (chapters (EpubBook_load p pkg)).
Proof.
  intros HQ. unfold EpubBook_load. cbn [chapters].
  apply fold_documents_forall; [apply HQ | constructor].
Qed.

Lemma EpubBook_load_nonempty p pkg :
  Forall (fun chap => chap_blocks chap <> []) (chapters (EpubBook_load p pkg)).
Proof.
  apply EpubBook_load_forall. intros bt soup chap. unfold load_document.
  destruct (soup_find ["body"] soup) as [body|]; [|discriminate].
  destruct (fold_left _ (descendants body) []) as [|b bs]; [discriminate|].
  intros [= <-]. discriminate.
Qed.

(** X5: every image block of a loaded book carries the base64 encoding of
    an image resource of the package: the extractor invents no image data. *)
Theorem EpubBook_load_images_from_package (p : Path) (pkg : epub_package) :
  Forall (fun chap => Forall (image_from (get_items pkg)) (chap_blocks chap))
    (chapters (EpubBook_load p pkg)).
Proof.
  apply EpubBook_load_forall. intros bt soup chap. unfold load_document.
  destruct (soup_find ["body"] soup) as [body|]; [|discriminate].
  pose proof (fold_visit_image_from (get_items pkg) (descendants body) []
                (Forall_nil_2 _)) as H.
  destruct (fold_left _ (descendants body) []) as [|b bs]; [discriminate|].
  intros [= <-]. exact H.
Qed.

Lemma chapter_pages_nil limit ic ci chap :
  chapter_pages limit ic ci chap = [] -> chap_blocks chap = [].
Proof.
  unfold chapter_pages. intros H. apply (pack_nil limit (cost_with ic)).
  rewrite <- (number_pages_blocks ci (chap_title chap) _ 1), H. reflexivity.
Qed.

Lemma all_pages_nil limit ic chaps : forall ci,
  all_pages limit ic ci chaps = [] -> Forall (fun chap => chap_blocks chap = []) chaps.
Proof.
  induction chaps as [|c r IH]; intros ci H; [constructor|].
  simpl in H. apply app_eq_nil in H as [H1 H2].
  constructor; [eapply chapter_pages_nil, H1 | eapply IH, H2].
Qed.

(** X6: every chapter of a loaded book has at least one block, so at every
    font size every chapter gets at least one page: the chapter indices of
    the pages run through 0, 1, ..., n-1 without a gap. *)
Theorem loaded_chapters_have_pages (p : Path) (pkg : epub_package) (settings : Settings) :
  Forall (fun chap => chap_blocks chap <> []) (chapters (EpubBook_load p pkg)) /\
  exists pages,
    paginate_book (EpubBook_load p pkg) settings = Ok pages /\
    forall i : nat,
      (i < length (chapters (EpubBook_load p pkg)))%nat ->
      pages_of_chapter (Z.of_nat i) pages <> [].
Proof.
  split; [apply EpubBook_load_nonempty|].
  destruct (paginate_book_pure (EpubBook_load p pkg) settings)
    as (limit & ic & _ & _ & _ & _ & Hp).
  eexists. split; [exact Hp|]. intros i Hi.
  pose proof (pages_of_chapter_all limit ic (chapters (EpubBook_load p pkg)) 0 i) as Hf.
  rewrite Z.add_0_l in Hf. rewrite Hf.
  destruct (lookup_lt_is_Some_2 _ _ Hi) as [chap Hc]. rewrite Hc.
  intros Hnil. apply chapter_pages_nil in Hnil.
  pose proof (EpubBook_load_nonempty p pkg) as Hne. rewrite Forall_forall in Hne.
  apply (Hne chap); [eapply list_elem_of_lookup_2, Hc | exact Hnil].
Qed.

Lemma loaded_chapters_have_pages_witness :
  exists pages,
    paginate_book
      (EpubBook_load sample_path
         {| dc_title := []; dc_creator := [];
            get_items := [EpubHtml "c.xhtml" heading_doc] |})
      (settings_of_font_size 18) = Ok pages /\
    pages_of_chapter 0 pages <> [].
Proof.
  destruct (loaded_chapters_have_pages sample_path
              {| dc_title := []; dc_creator := [];
                 get_items := [EpubHtml "c.xhtml" heading_doc] |}
              (settings_of_font_size 18)) as (_ & pages & Hp & H).
  exists pages. split; [exact Hp|].
  apply (H 0%nat). vm_compute. constructor.
Defined.

(** X7: a text element nested directly inside another text element -- a
    paragraph inside a list item, say -- has its text extracted twice: once
    as the text of the outer element and once as its own. *)
Theorem nested_text_is_extracted_twice
    (images : pydict string) (outer inner : string) (a1 a2 : gmap string string)
    (s : string) :
  In outer ["p"; "h1"; "h2"; "h3"; "li"] ->
  In inner ["p"; "h1"; "h2"; "h3"; "li"] ->
  py_strip s <> "" ->
  fold_left (visit_elem images)
    (descendants (Tag "body" ∅ [Tag outer a1 [Tag inner a2 [NavigableString s]]])) []
  = [TextBlock (py_strip s); TextBlock (py_strip s)].
Proof.
  intros Ho Hi Hne.
  assert (Hin : visit_elem images [TextBlock (py_strip s)]
                  (Tag inner a2 [NavigableString s])
                = [TextBlock (py_strip s); TextBlock (py_strip s)]).
  { apply (visit_text_elem images [TextBlock (py_strip s)] inner a2 s);
      [| |exact Hne];
      simpl in Hi; destruct Hi as [<-|[<-|[<-|[<-|[<-|[]]]]]]; reflexivity. }
  assert (Hout : visit_elem images [] (Tag outer a1 [Tag inner a2 [NavigableString s]])
                 = [TextBlock (py_strip s)]).
  { unfold visit_elem.
    assert (Hg : get_text " " (Tag outer a1 [Tag inner a2 [NavigableString s]]) = py_strip s).
    { unfold get_text, stripped_strings. simpl.
      destruct (py_strip s); [congruence | reflexivity]. }
    rewrite Hg.
    simpl in Ho; destruct Ho as [<-|[<-|[<-|[<-|[<-|[]]]]]];
      (destruct (py_strip s); [congruence | reflexivity]). }
  change (descendants (Tag "body" ∅ [Tag outer a1 [Tag inner a2 [NavigableString s]]]))
    with [Tag outer a1 [Tag inner a2 [NavigableString s]];
          Tag inner a2 [NavigableString s]; NavigableString s].
  cbn [fold_left]. rewrite Hout, Hin. reflexivity.
Qed.

Lemma nested_text_is_extracted_twice_witness :
  load_document "novel" [] nested_doc =
  Some {| chap_title := "novel"; chap_blocks := [TextBlock "text"; TextBlock "text"] |}.
Proof.
  pose proof (nested_text_is_extracted_twice [] "li" "p" ∅ ∅ "text"
                ltac:(simpl; tauto) ltac:(simpl; tauto) ltac:(vm_compute; discriminate)) as H.
  unfold load_document.
  change (soup_find ["body"] nested_doc)
    with (Some (Tag "body" ∅ [Tag "li" ∅ [Tag "p" ∅ [NavigableString "text"]]])).
  cbv beta iota. rewrite H. reflexivity.
Defined.

(** * More on [get_pages_for_book] *)

(** What [compute_pages] may change of the book: the title and the author,
    and each only when it was empty. *)
Lemma compute_pages_book w settings book :
  let book' := snd (compute_pages w settings book) in
  Book.id book' = Book.id book /\
  Book.file_path book' = Book.file_path book /\
  Book.cover_path book' = Book.cover_path book /\
  Book.is_favorite book' = Book.is_favorite book /\
  Book.is_read book' = Book.is_read book /\
  Book.tags book' = Book.tags book /\
  Book.current_page book' = Book.current_page book /\
  Book.total_pages book' = Book.total_pages book /\
  (Book.title book <> "" -> Book.title book' = Book.title book) /\
  (Book.author book <> "" -> Book.author book' = Book.author book).
Proof.
  unfold compute_pages.
  destruct (Book.file_path book) as [p|] eqn:Ep; [|simpl; tauto].
  destruct (path_exists w p); simpl negb; cbv iota; [|simpl; tauto].
  destruct (EpubBook_init w p) as [eb|exc]; [|simpl; tauto].
  assert (Hb : forall b1 : Book.t,
             let b2 := if is_empty_string (Book.author b1) && negb (is_empty_string (author eb))
                       then with_author b1 (author eb) else b1 in
             Book.id b2 = Book.id b1 /\ Book.file_path b2 = Book.file_path b1 /\
             Book.cover_path b2 = Book.cover_path b1 /\
             Book.is_favorite b2 = Book.is_favorite b1 /\
             Book.is_read b2 = Book.is_read b1 /\ Book.tags b2 = Book.tags b1 /\
             Book.current_page b2 = Book.current_page b1 /\
             Book.total_pages b2 = Book.total_pages b1 /\
             Book.title b2 = Book.title b1 /\
             (Book.author b1 <> "" -> Book.author b2 = Book.author b1)).
  { intros b1. destruct (Book.author b1) eqn:Ea; simpl;
      destruct (negb (is_empty_string (author eb))); simpl; tauto. }
  assert (Ha : let b1 := if is_empty_string (Book.title book) && negb (is_empty_string (title eb))
                         then with_title book (title eb) else book in
               Book.id b1 = Book.id book /\ Book.file_path b1 = Book.file_path book /\
               Book.cover_path b1 = Book.cover_path book /\
               Book.is_favorite b1 = Book.is_favorite book /\
               Book.is_read b1 = Book.is_read book /\ Book.tags b1 = Book.tags book /\
               Book.current_page b1 = Book.current_page book /\
               Book.total_pages b1 = Book.total_pages book /\
               Book.author b1 = Book.author book /\
               (Book.title book <> "" -> Book.title b1 = Book.title book)).
  { destruct (Book.title book) eqn:Et; simpl;
      destruct (negb (is_empty_string (title eb))); simpl; tauto. }
  set (b1 := if is_empty_string (Book.title book) && _ then _ else book) in *.
  specialize (Hb b1).
  set (b2 := if is_empty_string (Book.author b1) && _ then _ else b1) in *.
  cbv zeta in Ha, Hb.
  destruct Ha as (A1 & A2 & A3 & A4 & A5 & A6 & A7 & A8 & A9 & A10).
  destruct Hb as (B1 & B2 & B3 & B4 & B5 & B6 & B7 & B8 & B9 & B10).
  assert (Hres : snd (match paginate_book eb settings with
                      | Ok pages => (pages, b2)
                      | Raise exc =>
                          (message_page b2 ("Error al leer el EPUB:" +:+ newline +:+ exc), b2)
                      end) = b2) by (destruct (paginate_book eb settings); reflexivity).
  cbv zeta. rewrite Hres.
  repeat split; try congruence.
  - intros Hne. rewrite B9. apply A10, Hne.
  - intros Hne. rewrite <- A9. apply B10. rewrite A9. exact Hne.
Qed.

Lemma get_pages_for_book_keeps_id w settings pages_cache book :
  Book.id (snd (fst (get_pages_for_book w settings pages_cache book))) = Book.id book.
Proof.
  unfold get_pages_for_book.
  destruct (Book.id book ≫= _) as [pages|]; [reflexivity|].
  pose proof (compute_pages_book w settings book) as Hb.
  destruct (compute_pages w settings book) as [pages b1]. simpl in Hb. simpl.
  apply Hb.
Qed.

Lemma get_pages_for_book_caches w settings (pages_cache : gmap Z (list ChapterPage)) book k :
  Book.id book = Some k ->
  snd (get_pages_for_book w settings pages_cache book) !! k
  = Some (fst (fst (get_pages_for_book w settings pages_cache book))).
Proof.
  intros Hid. unfold get_pages_for_book. rewrite Hid. simpl.
  destruct (pages_cache !! k) as [pages|] eqn:Ec; [exact Ec|].
  pose proof (compute_pages_book w settings book) as Hb.
  destruct (compute_pages w settings book) as [pages b1]. simpl in Hb. simpl.
  destruct Hb as (Hid1 & _). rewrite Hid1, Hid. apply lookup_insert_eq.
Qed.

(** X8: once the pages of a stored book have been computed they are final:
    every later call for that book returns the same pages and changes
    nothing, whatever the settings and whatever has become of the file.
    A change of font size therefore does not repaginate an open book. *)
Theorem get_pages_for_book_cached_forever
    (w : world) (settings : Settings) (pages_cache : gmap Z (list ChapterPage))
    (book : Book.t) (i : Z) :
  Book.id book = Some i ->
  forall (w' : world) (settings' : Settings),
    let '(pages, book', cache') := get_pages_for_book w settings pages_cache book in
    get_pages_for_book w' settings' cache' book' = (pages, book', cache').
Proof.
  intros Hid w' settings'. unfold get_pages_for_book at 1.
  rewrite Hid. simpl.
  destruct (pages_cache !! i) as [pages|] eqn:Ec.
  - unfold get_pages_for_book. rewrite Hid. simpl. rewrite Ec. reflexivity.
  - pose proof (compute_pages_book w settings book) as Hb.
    destruct (compute_pages w settings book) as [pages b1]. simpl in Hb.
    destruct Hb as (Hid1 & _). rewrite Hid1, Hid.
    unfold get_pages_for_book. cbn [Book.id with_progress]. rewrite Hid1, Hid. simpl.
    rewrite lookup_insert_eq. reflexivity.
Qed.

Lemma get_pages_for_book_cached_forever_witness :
  let '(pages, book', cache') :=
    get_pages_for_book (world_with bare_package) (settings_of_font_size 18) ∅
      (sample_book 1 0 0) in
  get_pages_for_book (world_with bare_package) (settings_of_font_size 30) cache' book'
  = (pages, book', cache').
Proof.
  exact (get_pages_for_book_cached_forever (world_with bare_package)
           (settings_of_font_size 18) ∅ (sample_book 1 0 0) 1 eq_refl
           (world_with bare_package) (settings_of_font_size 30)).
Defined.

(** X9: a call that misses the cache returns an empty page list only when
    the book's file exists and was read as a package without any chapter;
    when the file is missing or cannot be read the result is one page
    holding one text block. *)
Theorem get_pages_for_book_empty
    (w : world) (settings : Settings) (pages_cache : gmap Z (list ChapterPage))
    (book : Book.t) :
  Book.id book ≫= (fun i => pages_cache !! i) = None ->
  let pages := fst (fst (get_pages_for_book w settings pages_cache book)) in
  (pages = [] <->
   exists p pkg,
     Book.file_path book = Some p /\ path_exists w p = true /\
     epub_available w = true /\ read_epub w p = Ok pkg /\
     chapters (EpubBook_load p pkg) = []) /\
  ((forall p, Book.file_path book = Some p ->
              path_exists w p = false \/ exists exc, EpubBook_init w p = Raise exc) ->
   exists title msg,
     pages = [ {| chapter_index := 0; chapter_title := title; page_in_chapter := 1;
                  blocks := [TextBlock msg] |} ]).
Proof.
  intros Hmiss. unfold get_pages_for_book. rewrite Hmiss.
  assert (Hfst : forall (r : list ChapterPage * Book.t),
             fst (fst (let '(pages, book) := r in
                       (pages,
                        with_progress book
                          (if Book.current_page book >=? Z.of_nat (length pages)
                           then 0 else Book.current_page book)
                          (Z.of_nat (length pages)),
                        match Book.id book with
                        | Some i => <[i:=pages]> pages_cache
                        | None => pages_cache
                        end))) = fst r) by (intros [? ?]; reflexivity).
  cbv zeta. rewrite Hfst. clear Hfst.
  unfold compute_pages.
  destruct (Book.file_path book) as [p|].
  2:{ split.
      - split; [discriminate|]. intros (p & pkg & H & _). discriminate.
      - intros _. eexists _, _. reflexivity. }
  destruct (path_exists w p) eqn:Eex; simpl negb; cbv iota.
  2:{ split.
      - split; [discriminate|]. intros (p' & pkg & [= <-] & H & _). congruence.
      - intros _. eexists _, _. reflexivity. }
  assert (Hinit : forall eb, EpubBook_init w p = Ok eb ->
             epub_available w = true /\
             exists pkg, read_epub w p = Ok pkg /\ eb = EpubBook_load p pkg).
  { intros eb. unfold EpubBook_init.
    destruct (epub_available w); simpl negb; cbv iota; [|discriminate].
    destruct (read_epub w p) as [pkg|exc]; [|discriminate].
    intros [= <-]. split; [reflexivity|]. exists pkg. split; reflexivity. }
  destruct (EpubBook_init w p) as [eb|exc] eqn:Einit.
  2:{ split.
      - split; [discriminate|]. intros (p' & pkg & [= <-] & _ & Hav & Hrd & _).
        unfold EpubBook_init in Einit. rewrite Hav, Hrd in Einit. discriminate.
      - intros _. eexists _, _. reflexivity. }
  destruct (Hinit eb eq_refl) as (Hav & pkg & Hrd & Heb).
  destruct (paginate_book_pure eb settings) as (limit & ic & _ & _ & _ & _ & Hp).
  rewrite Hp. cbn [fst]. split.
  - split.
    + intros Hnil. exists p, pkg. repeat split; try assumption.
      apply all_pages_nil in Hnil. rewrite <- Heb.
      pose proof (EpubBook_load_nonempty p pkg) as Hne. rewrite <- Heb in Hne.
      destruct (chapters eb) as [|c r]; [reflexivity|].
      inversion Hnil; subst. inversion Hne; subst. contradiction.
    + intros (p' & pkg' & [= <-] & _ & _ & Hrd' & Hch).
      rewrite Hrd in Hrd'. injection Hrd' as <-. rewrite Heb, Hch. reflexivity.
  - intros H. destruct (H p eq_refl) as [Hf|[exc Hexc]]; congruence.
Qed.

Lemma get_pages_for_book_empty_witness :
  fst (fst (get_pages_for_book (world_with bare_package) (settings_of_font_size 18) ∅
              (sample_book 1 0 0))) = [].
Proof.
  assert (Hmiss : Book.id (sample_book 1 0 0)
                 ≫= (fun i => (∅ : gmap Z (list ChapterPage)) !! i) = None)
    by (simpl; apply lookup_empty).
  apply (proj1 (get_pages_for_book_empty (world_with bare_package)
                  (settings_of_font_size 18) ∅ (sample_book 1 0 0) Hmiss)).
  exists sample_path, bare_package. repeat split; reflexivity.
Defined.

(** X10: [get_pages_for_book] fills in a title or an author only where the
    record has none; a title or author that is already set is kept, and the
    id, the paths, the flags and the tags are never touched. *)
Theorem get_pages_for_book_keeps_record
    (w : world) (settings : Settings) (pages_cache : gmap Z (list ChapterPage))
    (book : Book.t) :
  let book' := snd (fst (get_pages_for_book w settings pages_cache book)) in
  Book.id book' = Book.id book /\
  Book.file_path book' = Book.file_path book /\
  Book.cover_path book' = Book.cover_path book /\
  Book.is_favorite book' = Book.is_favorite book /\
  Book.is_read book' = Book.is_read book /\
  Book.tags book' = Book.tags book /\
  (Book.title book <> "" -> Book.title book' = Book.title book) /\
  (Book.author book <> "" -> Book.author book' = Book.author book).
Proof.
  unfold get_pages_for_book.
  destruct (Book.id book ≫= _) as [pages|]; [simpl; tauto|].
  pose proof (compute_pages_book w settings book) as Hb.
  destruct (compute_pages w settings book) as [pages b1]. simpl in Hb. simpl.
  tauto.
Qed.

Lemma get_pages_for_book_keeps_record_witness :
  Book.title (snd (fst (get_pages_for_book
                          (world_with {| dc_title := [("Other", ∅)]; dc_creator := [];
                                         get_items := [] |})
                          (settings_of_font_size 18) ∅ (sample_book 1 0 0))))
  = "novel".
Proof.
  apply (get_pages_for_book_keeps_record
           (world_with {| dc_title := [("Other", ∅)]; dc_creator := [];
                          get_items := [] |})
           (settings_of_font_size 18) ∅ (sample_book 1 0 0)).
  vm_compute. discriminate.
Defined.

(** * Substrings and case *)

Lemma py_startswith_spec s prefix :
  py_startswith s prefix = true <-> exists post, s = prefix +:+ post.
Proof.
  revert s. induction prefix as [|p pr IH]; intros s; simpl.
  - split; [intros _; exists s; reflexivity | reflexivity].
  - destruct s as [|c r].
    + split; [discriminate | intros (post & H); discriminate].
    + rewrite andb_true_iff, Ascii.eqb_eq, IH. split.
      * intros (-> & post & ->). exists post. reflexivity.
      * intros (post & H). injection H as -> ->. split; [reflexivity | exists post; reflexivity].
Qed.

Lemma py_in_spec sub s :
  py_in sub s = true <-> exists pre post, s = pre +:+ sub +:+ post.
Proof.
  induction s as [|c r IH]; simpl.
  - rewrite orb_false_r, py_startswith_spec. split.
    + intros (post & H). exists "", post. exact H.
    + intros (pre & post & H). destruct pre; [exists post; exact H | discriminate].
  - rewrite orb_true_iff, IH.
    change (Ascii.eqb ?a ?b) with (Ascii.eqb a b).
    split.
    + intros [H|(pre & post & ->)].
      * apply (py_startswith_spec (String c r)) in H as (post & H).
        exists "", post. exact H.
      * exists (String c pre), post. reflexivity.
    + intros (pre & post & H). destruct pre as [|x pre].
      * left. apply (py_startswith_spec (String c r)). exists post. exact H.
      * right. injection H as _ ->. exists pre, post. reflexivity.
Qed.

Lemma isspace_lower_char c : py_isspace (lower_char c) = py_isspace c.
Proof. destruct c as [[] [] [] [] [] [] [] []]; reflexivity. Qed.

Lemma lstrip_lower s :
  lstrip_with py_isspace (py_lower s) = py_lower (lstrip_with py_isspace s).
Proof.
  induction s as [|c r IH]; [reflexivity|].
  cbn [py_lower lstrip_with]. rewrite isspace_lower_char.
  destruct (py_isspace c); [exact IH | reflexivity].
Qed.

Lemma rstrip_lower s :
  rstrip_with py_isspace (py_lower s) = py_lower (rstrip_with py_isspace s).
Proof.
  induction s as [|c r IH]; [reflexivity|].
  cbn [py_lower rstrip_with]. rewrite IH, isspace_lower_char.
  destruct (rstrip_with py_isspace r); cbn [py_lower];
    [destruct (py_isspace c); reflexivity | reflexivity].
Qed.

Lemma strip_lower s : py_strip (py_lower s) = py_lower (py_strip s).
Proof. unfold py_strip. rewrite lstrip_lower, rstrip_lower. reflexivity. Qed.

Lemma lstrip_decomp f s : exists a, s = a +:+ lstrip_with f s.
Proof.
  induction s as [|c r (a & IH)]; [exists ""; reflexivity|].
  cbn [lstrip_with]. destruct (f c).
  - exists (String c a).
    change (String c r = String c (a +:+ lstrip_with f r)). rewrite <- IH. reflexivity.
  - exists "". reflexivity.
Qed.

Lemma rstrip_decomp f s : exists b, s = rstrip_with f s +:+ b.
Proof.
  induction s as [|c r (b & IH)]; [exists ""; reflexivity|].
  cbn [rstrip_with]. destruct (rstrip_with f r) as [|x r'].
  - destruct (f c).
    + exists (String c r). reflexivity.
    + exists b. change (String c r = String c ("" +:+ b)). rewrite <- IH. reflexivity.
  - exists b. change ((String c (String x r')) +:+ b) with (String c (String x r' +:+ b)).
    rewrite <- IH. reflexivity.
Qed.

Lemma py_in_strip s : py_in (py_strip s) s = true.
Proof.
  apply py_in_spec. unfold py_strip.
  destruct (lstrip_decomp py_isspace s) as (a & Ha).
  destruct (rstrip_decomp py_isspace (lstrip_with py_isspace s)) as (b & Hb).
  exists a, b. rewrite <- Hb. exact Ha.
Qed.

(** Lower-casing enters the proofs about the search box through one law
    only: it commutes with trimming.  Hence the trimmed, lower-cased text
    occurs in the lower-cased text. *)
Lemma lower_strip_in s : py_in (py_lower (py_strip s)) (py_lower s) = true.
Proof. rewrite <- strip_lower. apply py_in_strip. Qed.

(** * The search box *)

Lemma filter_sublist {A : Type} (f : A -> bool) (l : list A) :
  sublist (List.filter f l) l.
Proof.
  induction l as [|x l IH]; simpl; [constructor|].
  destruct (f x); [apply sublist_skip | apply sublist_cons]; exact IH.
Qed.

Lemma filter_idem {A : Type} (f : A -> bool) (l : list A) :
  List.filter f (List.filter f l) = List.filter f l.
Proof.
  induction l as [|x l IH]; simpl; [reflexivity|].
  destruct (f x) eqn:E; simpl; [rewrite E, IH; reflexivity | exact IH].
Qed.

(** X11: the search box only ever hides books: the filtered list is the
    given list with some books left out, in the same order; an empty or
    blank query leaves out none; and filtering twice with the same query
    is filtering once. *)
Theorem apply_search_filter_laws (value : option string) (book_list : list Book.t) :
  sublist (apply_search_filter value book_list) book_list /\
  (py_strip (default "" value) = "" -> apply_search_filter value book_list = book_list) /\
  apply_search_filter value (apply_search_filter value book_list)
  = apply_search_filter value book_list.
Proof.
  unfold apply_search_filter. split; [|split].
  - destruct (is_empty_string _); [reflexivity | apply filter_sublist].
  - intros ->. reflexivity.
  - destruct (is_empty_string _); [reflexivity | apply filter_idem].
Qed.

Lemma apply_search_filter_laws_witness :
  apply_search_filter (Some "   ") [sample_book 1 0 0; sample_book 2 0 0]
  = [sample_book 1 0 0; sample_book 2 0 0].
Proof.
  exact (proj1 (proj2 (apply_search_filter_laws (Some "   ")
                         [sample_book 1 0 0; sample_book 2 0 0])) eq_refl).
Defined.

(** X12: the search does not look at the case of the query: two queries
    that differ only in case select the same books. *)
Theorem apply_search_filter_ignores_case (q1 q2 : string) (book_list : list Book.t) :
  py_lower q1 = py_lower q2 ->
  apply_search_filter (Some q1) book_list = apply_search_filter (Some q2) book_list.
Proof.
  intros H. unfold apply_search_filter. simpl default.
  rewrite <- !strip_lower, H. reflexivity.
Qed.

Lemma apply_search_filter_ignores_case_witness :
  apply_search_filter (Some "NoVeL") [sample_book 1 0 0]
  = apply_search_filter (Some "novel") [sample_book 1 0 0].
Proof.
  apply (apply_search_filter_ignores_case "NoVeL" "novel"). reflexivity.
Defined.

(** X13: typing a book's title, its author or its tags, as they stand in
    the record, always finds the book. *)
Theorem apply_search_filter_finds (b : Book.t) (book_list : list Book.t) :
  In b book_list ->
  In b (apply_search_filter (Some (Book.title b)) book_list) /\
  In b (apply_search_filter (Some (Book.author b)) book_list) /\
  In b (apply_search_filter (Some (Book.tags b)) book_list).
Proof.
  intros Hin.
  assert (Hq : forall q,
             py_in (py_lower (py_strip q)) (py_lower (Book.title b))
             || py_in (py_lower (py_strip q)) (py_lower (Book.author b))
             || py_in (py_lower (py_strip q)) (py_lower (Book.tags b)) = true ->
             In b (apply_search_filter (Some q) book_list)).
  { intros q Hq. unfold apply_search_filter. simpl default.
    destruct (is_empty_string _); [exact Hin|].
    apply filter_In. split; [exact Hin | exact Hq]. }
  split; [|split]; apply Hq; rewrite lower_strip_in; rewrite ?orb_true_r; reflexivity.
Qed.

Lemma apply_search_filter_finds_witness :
  In (with_title (sample_book 1 0 0) " The  Odyssey ")
     (apply_search_filter (Some " The  Odyssey ")
        [sample_book 2 0 0; with_title (sample_book 1 0 0) " The  Odyssey "]).
Proof.
  apply (apply_search_filter_finds (with_title (sample_book 1 0 0) " The  Odyssey ")
           [sample_book 2 0 0; with_title (sample_book 1 0 0) " The  Odyssey "]).
  simpl. tauto.
Defined.

(** * The cover *)

Lemma find_first {A : Type} (f : A -> bool) (l : list A) x :
  List.find f l = Some x ->
  exists l1 l2, l = l1 ++ x :: l2 /\ f x = true /\ Forall (fun y => f y = false) l1.
Proof.
  induction l as [|y l IH]; simpl; [discriminate|].
  destruct (f y) eqn:E.
  - intros [= ->]. exists [], l. repeat split; [exact E | constructor].
  - intros H. destruct (IH H) as (l1 & l2 & -> & Hx & Hl1).
    exists (y :: l1), l2. repeat split; [exact Hx | constructor; assumption].
Qed.

Lemma find_nothing {A : Type} (f : A -> bool) (l : list A) :
  List.find f l = None <-> Forall (fun y => f y = false) l.
Proof.
  induction l as [|y l IH]; simpl.
  - split; [constructor | reflexivity].
  - destruct (f y) eqn:E.
    + split; [discriminate|]. intros H. inversion H; congruence.
    + rewrite IH. split; [intros H; constructor; assumption | intros H; inversion H; assumption].
Qed.

(** X14: the cover is the first image resource whose lower-cased file name
    contains "cover"; when no image is so named, it is the first image
    resource of the package; a resource that is not an image is never
    chosen, and nothing is chosen exactly when the package has no image. *)
Theorem select_cover_spec (items : list resource) :
  (select_cover items = None <-> Forall (fun it => is_image it = false) items) /\
  (forall c, select_cover items = Some c ->
     exists l1 l2,
       items = l1 ++ c :: l2 /\ is_image c = true /\
       ((named_cover c = true /\ Forall (fun it => named_cover it = false) l1) \/
        (Forall (fun it => named_cover it = false) items /\
         Forall (fun it => is_image it = false) l1))).
Proof.
  unfold select_cover. split.
  - destruct (List.find named_cover items) as [c|] eqn:E.
    + split; [discriminate|]. intros Hno.
      apply find_first in E as (l1 & l2 & -> & Hc & _).
      apply Forall_app in Hno as [_ Hno]. inversion Hno as [|? ? Hi _]; subst.
      unfold named_cover in Hc. rewrite Hi, andb_false_r in Hc. discriminate.
    + apply find_nothing.
  - intros c. destruct (List.find named_cover items) as [c'|] eqn:E.
    + intros [= ->]. apply find_first in E as (l1 & l2 & -> & Hc & Hl1).
      exists l1, l2. split; [reflexivity|]. split; [|left; split; assumption].
      unfold named_cover in Hc. apply andb_prop in Hc as [_ Hc]. exact Hc.
    + intros H. apply find_first in H as (l1 & l2 & -> & Hc & Hl1).
      exists l1, l2. split; [reflexivity|]. split; [exact Hc|].
      right. split; [apply find_nothing, E | exact Hl1].
Qed.

Lemma select_cover_spec_witness :
  exists l1 l2,
    [ {| res_file_name := "ch1.xhtml"; res_media_type := "application/xhtml+xml";
         res_content := "<html/>" |};
      {| res_file_name := "img/fig1.png"; res_media_type := "image/png";
         res_content := "fig" |};
      {| res_file_name := "img/COVER.JPG"; res_media_type := "image/jpeg";
         res_content := "cov" |} ]
    = l1 ++ {| res_file_name := "img/COVER.JPG"; res_media_type := "image/jpeg";
               res_content := "cov" |} :: l2.
Proof.
  destruct (proj2 (select_cover_spec
              [ {| res_file_name := "ch1.xhtml"; res_media_type := "application/xhtml+xml";
                   res_content := "<html/>" |};
                {| res_file_name := "img/fig1.png"; res_media_type := "image/png";
                   res_content := "fig" |};
                {| res_file_name := "img/COVER.JPG"; res_media_type := "image/jpeg";
                   res_content := "cov" |} ])
              {| res_file_name := "img/COVER.JPG"; res_media_type := "image/jpeg";
                 res_content := "cov" |} eq_refl) as (l1 & l2 & H & _).
  exists l1, l2. exact H.
Defined.

(** [extract_cover_image] names the file after the stem alone. *)
Lemma extract_cover_image_ok w files p items c :
  cover_epub_available w = true ->
  cover_read_epub w p = Ok items ->
  select_cover items = Some c ->
  cover_writable w
    (path_str (cover_out_path p (cover_extension (res_media_type c)))) = true ->
  extract_cover_image w files p =
  (Some (cover_out_path p (cover_extension (res_media_type c))),
   <[path_str (cover_out_path p (cover_extension (res_media_type c))) := res_content c]>
     files).
Proof.
  intros Hav Hrd Hsel Hw. unfold extract_cover_image.
  rewrite Hav, Hrd, Hsel. simpl negb. cbv iota beta zeta. rewrite Hw. reflexivity.
Qed.

(** X15: the cover file is named after the stem of the EPUB alone: when two
    EPUBs with the same stem are imported and their covers have the same
    extension, both books get the same cover path, and the file holds the
    cover of the second: the first book's cover is overwritten. *)
Theorem covers_with_one_stem_collide
    (w : cover_world) (files : gmap string string) (p1 p2 : Path)
    (items1 items2 : list resource) (c1 c2 : resource) :
  cover_epub_available w = true ->
  cover_read_epub w p1 = Ok items1 ->
  cover_read_epub w p2 = Ok items2 ->
  select_cover items1 = Some c1 ->
  select_cover items2 = Some c2 ->
  stem p1 = stem p2 ->
  cover_extension (res_media_type c1) = cover_extension (res_media_type c2) ->
  cover_writable w
    (path_str (cover_out_path p1 (cover_extension (res_media_type c1)))) = true ->
  exists out files1 files2,
    extract_cover_image w files p1 = (Some out, files1) /\
    extract_cover_image w files1 p2 = (Some out, files2) /\
    files1 !! path_str out = Some (res_content c1) /\
    files2 !! path_str out = Some (res_content c2).
Proof.
  intros Hav H1 H2 S1 S2 Hst Hext Hw.
  assert (Hout : cover_out_path p2 (cover_extension (res_media_type c2))
                 = cover_out_path p1 (cover_extension (res_media_type c1))).
  { unfold cover_out_path. rewrite Hst, Hext. reflexivity. }
  eexists _, _, _. split; [|split; [|split]].
  - apply (extract_cover_image_ok w files p1 items1 c1); assumption.
  - pose proof (fun fs => extract_cover_image_ok w fs p2 items2 c2 Hav H2 S2) as E2.
    rewrite Hout in E2. apply E2, Hw.
  - apply lookup_insert_eq.
  - apply lookup_insert_eq.
Qed.

Lemma covers_with_one_stem_collide_witness :
  exists out files1 files2,
    extract_cover_image
      {| cover_epub_available := true;
         cover_read_epub := fun p =>
           Ok [ {| res_file_name := "cover.jpg"; res_media_type := "image/jpeg";
                   res_content := path_str p |} ];
         cover_writable := fun _ => true |}
      ∅ {| path_str := "a/novel.epub"; stem := "novel" |} = (Some out, files1) /\
    extract_cover_image
      {| cover_epub_available := true;
         cover_read_epub := fun p =>
           Ok [ {| res_file_name := "cover.jpg"; res_media_type := "image/jpeg";
                   res_content := path_str p |} ];
         cover_writable := fun _ => true |}
      files1 {| path_str := "b/novel.epub"; stem := "novel" |} = (Some out, files2) /\
    files1 !! path_str out = Some "a/novel.epub" /\
    files2 !! path_str out = Some "b/novel.epub".
Proof.
  exact (covers_with_one_stem_collide
           {| cover_epub_available := true;
              cover_read_epub := fun p =>
                Ok [ {| res_file_name := "cover.jpg"; res_media_type := "image/jpeg";
                        res_content := path_str p |} ];
              cover_writable := fun _ => true |}
           ∅ {| path_str := "a/novel.epub"; stem := "novel" |}
           {| path_str := "b/novel.epub"; stem := "novel" |}
           _ _ _ _ eq_refl eq_refl eq_refl eq_refl eq_refl eq_refl eq_refl eq_refl).
Defined.

(** * The database *)

Lemma next_rowid_above conn :
  db_sequence conn < next_rowid conn /\
  Forall (fun row => row_id row < next_rowid conn) (db_books conn).
Proof.
  unfold next_rowid. generalize (db_sequence conn) as s. intros s.
  induction (db_books conn) as [|r rows IH]; simpl.
  - split; [lia | constructor].
  - destruct IH as [IH1 IH2]. split; [lia|].
    constructor; [lia|]. eapply Forall_impl; [exact IH2|]. simpl. intros; lia.
Qed.

Lemma book_of_row_of_book mk_path i book p :
  Book.file_path book = Some p ->
  mk_path (path_str p) = p ->
  (forall c, Book.cover_path book = Some c -> mk_path (path_str c) = c /\ path_str c <> "") ->
  book_of_row mk_path (row_of_book i book) = with_id book i.
Proof.
  intros Hf Hp Hc. destruct book as [bid t a f c fav rd tg cp tp]. simpl in *.
  subst f. unfold book_of_row, row_of_book, with_id. simpl. rewrite Hp.
  f_equal; try (destruct fav; reflexivity); try (destruct rd; reflexivity).
  destruct c as [c|]; [|reflexivity].
  destruct (Hc c eq_refl) as [Hm Hne]. rewrite Hm.
  destruct (path_str c); [congruence | reflexivity].
Qed.

(** No stored book carries the id that the next row will get. *)
Lemma next_rowid_fresh mk_path conn :
  Forall (fun b => has_id (next_rowid conn) b = false) (load_books mk_path conn).
Proof.
  destruct (next_rowid_above conn) as [_ Hr].
  unfold load_books. apply Forall_forall. intros b Hb.
  apply list_elem_of_In, in_map_iff in Hb as (row & <- & Hrow).
  rewrite Forall_forall in Hr. apply list_elem_of_In, Hr in Hrow.
  unfold has_id. simpl. apply Z.eqb_neq. lia.
Qed.

Lemma insert_book_ok conn book :
  sqlite_int (Book.current_page book) = true ->
  sqlite_int (Book.total_pages book) = true ->
  sqlite_int (next_rowid conn) = true ->
  insert_book conn book =
  Ok ({| db_books := db_books conn ++ [row_of_book (next_rowid conn) book];
         db_sequence := next_rowid conn;
         db_settings := db_settings conn;
         db_last_read := db_last_read conn |},
      with_id book (next_rowid conn)).
Proof.
  intros Hcp Htp Hid. unfold insert_book. rewrite Hcp, Htp, Hid. reflexivity.
Qed.

(** X16: [insert_book] stores the book under an id that no row of the
    table carries and that is larger than every id handed out before; and
    loading the table afterwards gives the books it held before, followed by
    the new book exactly as [insert_book] returned it. *)
Theorem insert_book_then_load
    (mk_path : string -> Path) (conn : database) (book : Book.t) (p : Path) :
  sqlite_int (Book.current_page book) = true ->
  sqlite_int (Book.total_pages book) = true ->
  sqlite_int (next_rowid conn) = true ->
  Book.file_path book = Some p ->
  mk_path (path_str p) = p ->
  (forall c, Book.cover_path book = Some c -> mk_path (path_str c) = c /\ path_str c <> "") ->
  exists conn' i,
    insert_book conn book = Ok (conn', with_id book i) /\
    db_sequence conn < i /\ db_sequence conn' = i /\
    Forall (fun b => has_id i b = false) (load_books mk_path conn) /\
    load_books mk_path conn' = load_books mk_path conn ++ [with_id book i].
Proof.
  intros Hcp Htp Hid Hf Hp Hc.
  eexists _, (next_rowid conn). split; [apply insert_book_ok; assumption|].
  split; [apply next_rowid_above|]. split; [reflexivity|].
  split; [apply next_rowid_fresh|].
  unfold load_books. cbn [db_books]. rewrite map_app.
  cbn [map]. rewrite (book_of_row_of_book mk_path _ book p Hf Hp Hc). reflexivity.
Qed.

Lemma insert_book_then_load_witness :
  exists conn' i,
    insert_book (init_db empty_db) (sample_book 0 0 0)
    = Ok (conn', with_id (sample_book 0 0 0) i) /\
    load_books sample_mk_path conn' = [with_id (sample_book 0 0 0) i].
Proof.
  destruct (insert_book_then_load sample_mk_path (init_db empty_db) (sample_book 0 0 0)
              sample_path eq_refl eq_refl eq_refl eq_refl eq_refl
              ltac:(intros c H; discriminate H))
    as (conn' & i & Hins & _ & _ & _ & Hload).
  exists conn', i. split; [exact Hins | exact Hload].
Defined.

(** X17: the id of a deleted book is never given to another book: after
    the deletion every inserted book gets a larger id.  (The page cache is
    keyed by id and is not cleared on deletion; a new book can therefore
    never be served the pages of a deleted one.) *)
Theorem deleted_id_is_not_reused
    (removable : string -> bool) (conn conn1 conn2 : database)
    (files files1 : gmap string string) (victim book book2 : Book.t) (i : Z) :
  Book.id victim = Some i ->
  i <= db_sequence conn ->
  delete_book removable conn files victim = Ok (conn1, files1) ->
  insert_book conn1 book = Ok (conn2, book2) ->
  exists j, Book.id book2 = Some j /\ i < j /\ db_sequence conn2 = j.
Proof.
  intros Hid Hle Hdel Hins.
  assert (Hseq : db_sequence conn1 = db_sequence conn).
  { unfold delete_book in Hdel. rewrite Hid in Hdel.
    destruct (negb (sqlite_int i)); [discriminate|].
    destruct (Book.cover_path victim) as [c|];
      [destruct (files !! path_str c); [destruct (removable (path_str c))|]|];
      injection Hdel as <- _; reflexivity. }
  unfold insert_book in Hins.
  destruct (negb (sqlite_int (Book.current_page book) && sqlite_int (Book.total_pages book)));
    [discriminate|].
  destruct (negb (sqlite_int (next_rowid conn1))); [discriminate|].
  injection Hins as <- <-. exists (next_rowid conn1).
  split; [reflexivity|]. split; [|reflexivity].
  pose proof (proj1 (next_rowid_above conn1)). lia.
Qed.

Lemma deleted_id_is_not_reused_witness :
  exists j,
    Book.id (with_id (sample_book 0 0 0) 2) = Some j /\ 1 < j.
Proof.
  destruct (deleted_id_is_not_reused (fun _ => true)
              {| db_books := [row_of_book 1 (sample_book 1 0 0)]; db_sequence := 1;
                 db_settings := None; db_last_read := None |}
              {| db_books := []; db_sequence := 1;
                 db_settings := None; db_last_read := None |}
              {| db_books := [row_of_book 2 (sample_book 0 0 0)]; db_sequence := 2;
                 db_settings := None; db_last_read := None |}
              ∅ ∅ (sample_book 1 0 0) (sample_book 0 0 0) (with_id (sample_book 0 0 0) 2) 1
              eq_refl ltac:(simpl; lia) eq_refl eq_refl) as (j & Hj & Hlt & _).
  exists j. split; assumption.
Defined.

Lemma map_update_rows mk_path i f g conn :
  (forall row, row_id row = i -> book_of_row mk_path (f row) = g (book_of_row mk_path row)) ->
  load_books mk_path (update_rows i f conn) =
  map (fun b => if has_id i b then g b else b) (load_books mk_path conn).
Proof.
  intros Hfg. unfold load_books, update_rows. simpl. rewrite !map_map.
  apply map_ext. intros row. unfold has_id at 1. simpl.
  destruct (row_id row =? i) eqn:E; [|reflexivity].
  apply Z.eqb_eq in E. apply Hfg, E.
Qed.

Lemma negb_bool_int b : negb (bool_int b =? 0) = b.
Proof. destruct b; reflexivity. Qed.

(** X18: [update_book_progress] writes the book's read flag, page and page
    count to the row with the book's id and to no other row, so that
    loading the table gives the former books with that one book's progress
    replaced; a book without an id changes nothing. *)
Theorem update_book_progress_then_load
    (mk_path : string -> Path) (conn : database) (book : Book.t) :
  (Book.id book = None -> update_book_progress conn book = conn) /\
  (forall i,
      Book.id book = Some i ->
      sqlite_int i = true ->
      sqlite_int (Book.current_page book) = true ->
      sqlite_int (Book.total_pages book) = true ->
      load_books mk_path (update_book_progress conn book) =
      map (fun b => if has_id i b
                    then with_is_read
                           (with_progress b (Book.current_page book) (Book.total_pages book))
                           (Book.is_read book)
                    else b)
        (load_books mk_path conn)).
Proof.
  unfold update_book_progress. split.
  - intros ->. reflexivity.
  - intros i -> Hi Hcp Htp. rewrite Hi, Hcp, Htp. simpl andb. cbv iota.
    apply map_update_rows. intros row _.
    unfold book_of_row, with_is_read, with_progress. simpl.
    rewrite negb_bool_int. reflexivity.
Qed.

Lemma update_book_progress_then_load_witness :
  load_books sample_mk_path
    (update_book_progress
       {| db_books := [row_of_book 1 (sample_book 1 0 0); row_of_book 2 (sample_book 2 0 0)];
          db_sequence := 2; db_settings := None; db_last_read := None |}
       (sample_book 2 4 9))
  = [sample_book 1 0 0; sample_book 2 4 9].
Proof.
  exact (proj2 (update_book_progress_then_load sample_mk_path
                  {| db_books := [row_of_book 1 (sample_book 1 0 0);
                                  row_of_book 2 (sample_book 2 0 0)];
                     db_sequence := 2; db_settings := None; db_last_read := None |}
                  (sample_book 2 4 9)) 2 eq_refl eq_refl eq_refl eq_refl).
Defined.

(** X19: [update_book_flags] writes the book's favourite flag, read flag
    and tags to the row with the book's id and to no other row, and leaves
    the stored progress alone. *)
Theorem update_book_flags_then_load
    (mk_path : string -> Path) (conn : database) (book : Book.t) (i : Z) :
  Book.id book = Some i ->
  sqlite_int i = true ->
  exists conn',
    update_book_flags conn book = Ok conn' /\
    load_books mk_path conn' =
    map (fun b => if has_id i b
                  then with_tags
                         (with_is_read (with_is_favorite b (Book.is_favorite book))
                            (Book.is_read book))
                         (Book.tags book)
                  else b)
      (load_books mk_path conn).
Proof.
  intros Hid Hi. unfold update_book_flags. rewrite Hid, Hi. simpl negb. cbv iota.
  eexists. split; [reflexivity|].
  apply map_update_rows. intros row _.
  unfold book_of_row, with_tags, with_is_read, with_is_favorite. simpl.
  rewrite !negb_bool_int. reflexivity.
Qed.

Lemma update_book_flags_then_load_witness :
  exists conn',
    update_book_flags
      {| db_books := [row_of_book 1 (sample_book 1 3 9)];
         db_sequence := 1; db_settings := None; db_last_read := None |}
      (with_tags (with_is_favorite (sample_book 1 0 0) true) "sf") = Ok conn' /\
    load_books sample_mk_path conn'
    = [with_tags (with_is_favorite (sample_book 1 3 9) true) "sf"].
Proof.
  exact (update_book_flags_then_load sample_mk_path
           {| db_books := [row_of_book 1 (sample_book 1 3 9)];
              db_sequence := 1; db_settings := None; db_last_read := None |}
           (with_tags (with_is_favorite (sample_book 1 0 0) true) "sf") 1 eq_refl eq_refl).
Defined.

(** X20: [delete_book] removes the row with the book's id and no other,
    and of the files it can only remove the book's cover. *)
Theorem delete_book_then_load
    (mk_path : string -> Path) (removable : string -> bool) (conn : database)
    (files : gmap string string) (book : Book.t) (i : Z) :
  Book.id book = Some i ->
  sqlite_int i = true ->
  exists conn' files',
    delete_book removable conn files book = Ok (conn', files') /\
    load_books mk_path conn' =
    List.filter (fun b => negb (has_id i b)) (load_books mk_path conn) /\
    (forall k, (forall c, Book.cover_path book = Some c -> k <> path_str c) ->
               files' !! k = files !! k) /\
    (Book.cover_path book = None -> files' = files) /\
    (forall c, Book.cover_path book = Some c -> removable (path_str c) = true ->
               files' !! path_str c = None).
Proof.
  intros Hid Hi. unfold delete_book. rewrite Hid, Hi. simpl negb. cbv iota.
  set (conn' := {| db_books := List.filter _ (db_books conn) |}).
  assert (Hload : load_books mk_path conn' =
                  List.filter (fun b => negb (has_id i b)) (load_books mk_path conn)).
  { unfold load_books, conn'. simpl. induction (db_books conn) as [|r rows IH]; [reflexivity|].
    simpl. unfold has_id at 1. simpl.
    destruct (row_id r =? i); simpl; rewrite IH; reflexivity. }
  destruct (Book.cover_path book) as [c|].
  - destruct (files !! path_str c) eqn:Ef; [destruct (removable (path_str c)) eqn:Er|].
    + eexists _, _. split; [reflexivity|]. split; [exact Hload|]. split; [|split].
      * intros k Hk. apply lookup_delete_ne. intros E. apply (Hk c eq_refl). symmetry. exact E.
      * discriminate.
      * intros c' [= <-] _. apply lookup_delete_eq.
    + eexists _, _. split; [reflexivity|]. split; [exact Hload|]. split; [|split].
      * reflexivity.
      * discriminate.
      * intros c' [= <-] H. congruence.
    + eexists _, _. split; [reflexivity|]. split; [exact Hload|]. split; [|split].
      * reflexivity.
      * discriminate.
      * intros c' [= <-] _. exact Ef.
  - eexists _, _. split; [reflexivity|]. split; [exact Hload|]. split; [|split].
    + reflexivity.
    + reflexivity.
    + discriminate.
Qed.

Lemma delete_book_then_load_witness :
  exists conn' files',
    delete_book (fun _ => true)
      {| db_books := [row_of_book 1 (sample_book 1 0 0); row_of_book 2 (sample_book 2 0 0)];
         db_sequence := 2; db_settings := None; db_last_read := None |}
      ∅ (sample_book 1 0 0) = Ok (conn', files') /\
    load_books sample_mk_path conn' = [sample_book 2 0 0].
Proof.
  destruct (delete_book_then_load sample_mk_path (fun _ => true)
              {| db_books := [row_of_book 1 (sample_book 1 0 0);
                              row_of_book 2 (sample_book 2 0 0)];
                 db_sequence := 2; db_settings := None; db_last_read := None |}
              ∅ (sample_book 1 0 0) 1 eq_refl eq_refl) as (conn' & files' & Hd & Hl & _).
  exists conn', files'. split; [exact Hd | exact Hl].
Defined.

(** X21: the settings row keeps the font size and the theme and nothing
    else: after [save_settings] on an initialised database,
    [load_settings] gives back the saved font size and theme with the font
    family, the line height, the margins and the bold flag at their
    defaults. *)
Theorem settings_round_trip (conn : database) (settings : Settings) :
  sqlite_int (font_size settings) = true ->
  exists conn',
    save_settings (init_db conn) settings = Ok conn' /\
    db_books conn' = db_books conn /\
    load_settings conn' =
    {| font_size := font_size settings; theme := theme settings;
       font_key := "default"; line_height := lit_1_4;
       margins := true; bold := false |}.
Proof.
  intros Hfs. unfold save_settings. rewrite Hfs. simpl negb. cbv iota.
  eexists. split; [reflexivity|]. unfold load_settings, init_db. simpl.
  destruct (db_settings conn) as [[fs th]|]; simpl; split; reflexivity.
Qed.

Lemma settings_round_trip_witness :
  exists conn',
    save_settings (init_db empty_db)
      {| font_size := 24; theme := "dark"; font_key := "serif";
         line_height := lit_1_4; margins := false; bold := true |} = Ok conn' /\
    load_settings conn' =
    {| font_size := 24; theme := "dark"; font_key := "default";
       line_height := lit_1_4; margins := true; bold := false |}.
Proof.
  destruct (settings_round_trip empty_db
              {| font_size := 24; theme := "dark"; font_key := "serif";
                 line_height := lit_1_4; margins := false; bold := true |} eq_refl)
    as (conn' & Hs & _ & Hl).
  exists conn'. split; assumption.
Defined.

(** X22: on an initialised database [load_last_read] gives back the id and
    the page of the book that [save_last_read] was last called with; a book
    without an id is not recorded; and before any book was read the answer
    is no book and page 0. *)
Theorem last_read_round_trip (conn : database) (book : Book.t) :
  (forall i,
      Book.id book = Some i ->
      sqlite_int i = true ->
      sqlite_int (Book.current_page book) = true ->
      exists conn',
        save_last_read (init_db conn) book = Ok conn' /\
        load_last_read conn' = (Some i, Book.current_page book) /\
        db_books conn' = db_books conn) /\
  (Book.id book = None -> save_last_read conn book = Ok conn) /\
  load_last_read (init_db empty_db) = (None, 0).
Proof.
  split; [|split].
  - intros i Hid Hi Hcp. unfold save_last_read. rewrite Hid, Hi, Hcp. simpl negb. cbv iota.
    eexists. split; [reflexivity|]. unfold load_last_read, init_db. simpl.
    destruct (db_last_read conn); split; reflexivity.
  - intros Hid. unfold save_last_read. rewrite Hid. reflexivity.
  - reflexivity.
Qed.

Lemma last_read_round_trip_witness :
  exists conn',
    save_last_read (init_db empty_db) (sample_book 3 7 9) = Ok conn' /\
    load_last_read conn' = (Some 3, 7).
Proof.
  destruct (proj1 (last_read_round_trip empty_db (sample_book 3 7 9)) 3
              eq_refl eq_refl eq_refl) as (conn' & Hs & Hl & _).
  exists conn'. split; assumption.
Defined.

(** * The page view *)

Lemma title_size_table fs : 12 <= fs <= 30 -> title_size fs = Ok (fs * 14 / 10).
Proof.
  intros Hfs.
  assert (H : title_size_ok fs = true).
  { apply (forallb_seqZ title_size_ok 12 19); [vm_compute; reflexivity | lia]. }
  unfold title_size_ok in H. destruct (title_size fs) as [n|]; [|discriminate].
  apply Z.eqb_eq in H. rewrite H. reflexivity.
Qed.

Lemma shown_blocks_app a b : shown_blocks (a ++ b) = shown_blocks a ++ shown_blocks b.
Proof. apply flat_map_app. Qed.

Lemma shown_titles_app a b : shown_titles (a ++ b) = shown_titles a ++ shown_titles b.
Proof. apply flat_map_app. Qed.

Lemma shown_of_blocks settings color bs :
  shown_blocks (flat_map (block_controls settings color) bs) = block_content <$> bs /\
  shown_titles (flat_map (block_controls settings color) bs) = [].
Proof.
  induction bs as [|b bs [IH1 IH2]]; [split; reflexivity|].
  simpl flat_map. rewrite shown_blocks_app, shown_titles_app, IH1, IH2.
  destruct b; split; reflexivity.
Qed.

Lemma build_page_view_works settings text_color pd :
  12 <= font_size settings <= 30 ->
  exists controls,
    build_page_view settings text_color pd = Ok controls /\
    controls <> [] /\
    shown_blocks controls = block_content <$> blocks pd /\
    shown_titles controls =
      (if page_in_chapter pd =? 1 then [chapter_title pd] else []).
Proof.
  intros Hfs. unfold build_page_view.
  destruct (shown_of_blocks settings text_color (blocks pd)) as [Hb Ht].
  destruct (page_in_chapter pd =? 1) eqn:E.
  - rewrite (title_size_table _ Hfs). simpl.
    eexists. split; [reflexivity|]. split; [discriminate|]. split.
    + simpl. exact Hb.
    + simpl. rewrite Ht. reflexivity.
  - simpl.
    destruct (flat_map (block_controls settings text_color) (blocks pd)) as [|c cs] eqn:Ef.
    + eexists. split; [reflexivity|]. split; [discriminate|].
      split; [|reflexivity]. rewrite <- Hb. reflexivity.
    + eexists. split; [reflexivity|]. split; [discriminate|].
      split; [exact Hb | exact Ht].
Qed.

(** X23: at every font size the settings dialog offers, [build_page_view]
    returns a non-empty column that shows exactly the blocks of the page,
    texts and images in their order (the alternative text of an image is
    not shown), preceded by the chapter title, at 1.4 times the font size
    rounded down, exactly when the page is the first of its chapter. *)
Theorem build_page_view_shows_page
    (settings : Settings) (text_color : string) (pd : ChapterPage) :
  12 <= font_size settings <= 30 ->
  exists controls,
    build_page_view settings text_color pd = Ok controls /\
    controls <> [] /\
    shown_blocks controls = block_content <$> blocks pd /\
    shown_titles controls =
      (if page_in_chapter pd =? 1 then [chapter_title pd] else []) /\
    (page_in_chapter pd = 1 ->
     exists style rest,
       controls = FtText (chapter_title pd) (Some Center) style :: rest /\
       ts_size style = font_size settings * 14 / 10).
Proof.
  intros Hfs. unfold build_page_view.
  destruct (shown_of_blocks settings text_color (blocks pd)) as [Hb Ht].
  destruct (page_in_chapter pd =? 1) eqn:E.
  - rewrite (title_size_table _ Hfs). simpl.
    eexists. split; [reflexivity|]. split; [discriminate|].
    split; [|split].
    + simpl. exact Hb.
    + simpl. rewrite Ht. reflexivity.
    + intros _. eexists _, _. split; reflexivity.
  - simpl. apply Z.eqb_neq in E.
    destruct (flat_map (block_controls settings text_color) (blocks pd)) as [|c cs] eqn:Ef.
    + eexists. split; [reflexivity|]. split; [discriminate|].
      split; [|split]; [| reflexivity | intros H; contradiction].
      rewrite <- Hb. reflexivity.
    + eexists. split; [reflexivity|]. split; [discriminate|].
      split; [exact Hb|]. split; [exact Ht | intros H; contradiction].
Qed.

Lemma build_page_view_shows_page_witness :
  exists controls,
    build_page_view (settings_of_font_size 18) "#5B4636"
      {| chapter_index := 0; chapter_title := "c"; page_in_chapter := 1;
         blocks := [TextBlock "one"; ImageBlock "aGk=" "alt"] |} = Ok controls /\
    shown_blocks controls = [inl "one"; inr "aGk="].
Proof.
  destruct (build_page_view_shows_page (settings_of_font_size 18) "#5B4636"
              {| chapter_index := 0; chapter_title := "c"; page_in_chapter := 1;
                 blocks := [TextBlock "one"; ImageBlock "aGk=" "alt"] |}
              ltac:(simpl; lia)) as (controls & Hc & _ & Hb & _).
  exists controls. split; [exact Hc | exact Hb].
Defined.

Lemma number_pages_titles_later ci ct groups : forall n,
  1 < n ->
  flat_map (fun p => if page_in_chapter p =? 1 then [chapter_title p] else [])
    (number_pages ci ct n groups) = [].
Proof.
  induction groups as [|g r IH]; intros n Hn; [reflexivity|].
  simpl. destruct (n =? 1) eqn:E; [apply Z.eqb_eq in E; lia|].
  apply IH. lia.
Qed.

Lemma chapter_pages_titles limit ic ci chap :
  flat_map (fun p => if page_in_chapter p =? 1 then [chapter_title p] else [])
    (chapter_pages limit ic ci chap)
  = if nonempty (chap_blocks chap) then [chap_title chap] else [].
Proof.
  unfold chapter_pages.
  destruct (pack limit (cost_with ic) [] 0 (chap_blocks chap)) as [|g r] eqn:E.
  - apply pack_nil in E. rewrite E. reflexivity.
  - assert (Hne : chap_blocks chap <> []).
    { intros H. rewrite H in E. discriminate. }
    rewrite (nonempty_true _ Hne). simpl.
    rewrite number_pages_titles_later by lia. reflexivity.
Qed.

Lemma all_pages_titles limit ic chaps : forall ci,
  flat_map (fun p => if page_in_chapter p =? 1 then [chapter_title p] else [])
    (all_pages limit ic ci chaps)
  = chap_title <$> List.filter (fun c => nonempty (chap_blocks c)) chaps.
Proof.
  induction chaps as [|c r IH]; intros ci; [reflexivity|].
  simpl. rewrite flat_map_app, chapter_pages_titles, IH.
  destruct (nonempty (chap_blocks c)); reflexivity.
Qed.

Lemma all_pages_blocks limit ic chaps : forall ci,
  concat (blocks <$> all_pages limit ic ci chaps) = concat (chap_blocks <$> chaps).
Proof.
  induction chaps as [|c r IH]; intros ci; [reflexivity|].
  simpl. rewrite fmap_app, concat_app, chapter_pages_blocks, IH. reflexivity.
Qed.

(** X24: leafing through a book from the first page to the last shows the
    whole book and nothing else: at every font size of the settings dialog
    every page of [paginate_book] is rendered, the blocks shown page after
    page are the blocks of the chapters in order, and the title of every
    chapter that has blocks is shown exactly once, in chapter order. *)
Theorem reader_shows_whole_book
    (eb : EpubBook) (settings : Settings) (text_color : string) :
  12 <= font_size settings <= 30 ->
  exists pages views,
    paginate_book eb settings = Ok pages /\
    Forall2 (fun p v => build_page_view settings text_color p = Ok v) pages views /\
    concat (shown_blocks <$> views)
    = block_content <$> concat (chap_blocks <$> chapters eb) /\
    concat (shown_titles <$> views)
    = chap_title <$> List.filter (fun c => nonempty (chap_blocks c)) (chapters eb).
Proof.
  intros Hfs.
  destruct (paginate_book_pure eb settings) as (limit & ic & _ & _ & _ & _ & Hp).
  exists (all_pages limit ic 0 (chapters eb)).
  assert (Hviews : forall pages : list ChapterPage,
             exists views,
               Forall2 (fun p v => build_page_view settings text_color p = Ok v) pages views /\
               concat (shown_blocks <$> views) = block_content <$> concat (blocks <$> pages) /\
               concat (shown_titles <$> views)
               = flat_map (fun p => if page_in_chapter p =? 1 then [chapter_title p] else [])
                   pages).
  { induction pages as [|p ps (vs & IH1 & IH2 & IH3)].
    - exists []. repeat split. constructor.
    - destruct (build_page_view_works settings text_color p Hfs) as (v & Hv & _ & Hb & Ht).
      exists (v :: vs). split; [constructor; assumption|]. split.
      + rewrite !fmap_cons. cbn [concat]. rewrite fmap_app, Hb, IH2. reflexivity.
      + rewrite fmap_cons. cbn [concat flat_map]. rewrite Ht, IH3. reflexivity. }
  destruct (Hviews (all_pages limit ic 0 (chapters eb))) as (views & H1 & H2 & H3).
  exists views. split; [exact Hp|]. split; [exact H1|]. split.
  - rewrite H2, all_pages_blocks. reflexivity.
  - rewrite H3. apply all_pages_titles.
Qed.

Lemma reader_shows_whole_book_witness :
  exists pages views,
    paginate_book
      (book_of_chapters [ {| chap_title := "a"; chap_blocks := [TextBlock "one"] |};
                          {| chap_title := "b"; chap_blocks := [] |} ])
      (settings_of_font_size 18) = Ok pages /\
    Forall2 (fun p v => build_page_view (settings_of_font_size 18) "black" p = Ok v)
      pages views /\
    concat (shown_blocks <$> views) = [inl "one"] /\
    concat (shown_titles <$> views) = ["a"].
Proof.
  exact (reader_shows_whole_book
           (book_of_chapters [ {| chap_title := "a"; chap_blocks := [TextBlock "one"] |};
                               {| chap_title := "b"; chap_blocks := [] |} ])
           (settings_of_font_size 18) "black" ltac:(simpl; lia)).
Defined.

(** * The reader *)

Lemma get_pages_at_hit w settings st i book k pages :
  books st !! i = Some book ->
  Book.id book = Some k ->
  pages_cache st !! k = Some pages ->
  get_pages_at w settings st i book = (pages, book, st).
Proof.
  intros Hb Hid Hc. unfold get_pages_at, get_pages_for_book.
  rewrite Hid. simpl. rewrite Hc. rewrite (list_insert_id _ _ _ Hb).
  destruct st; reflexivity.
Qed.

(** What [get_pages_at] leaves behind for a book with an id: the pages are
    in the cache, and the book keeps its place and its id. *)
Lemma get_pages_at_state w settings st i book k :
  books st !! i = Some book ->
  Book.id book = Some k ->
  forall pages book' st',
    get_pages_at w settings st i book = (pages, book', st') ->
    pages = fst (fst (get_pages_for_book w settings (pages_cache st) book)) /\
    books st' !! i = Some book' /\
    Book.id book' = Some k /\
    pages_cache st' !! k = Some pages /\
    current_book st' = current_book st /\
    current_page_index st' = current_page_index st /\
    length (books st') = length (books st) /\
    db_last_read (conn st') = db_last_read (conn st) /\
    db_sequence (conn st') = db_sequence (conn st) /\
    (row_id <$> db_books (conn st')) = (row_id <$> db_books (conn st)).
Proof.
  intros Hb Hid pages book' st' H. unfold get_pages_at in H.
  pose proof (get_pages_for_book_keeps_id w settings (pages_cache st) book) as Hk.
  pose proof (get_pages_for_book_caches w settings (pages_cache st) book k Hid) as Hc.
  destruct (get_pages_for_book w settings (pages_cache st) book) as [[ps b'] c'].
  simpl in Hk, Hc. injection H as <- <- <-. simpl.
  split; [reflexivity|]. split.
  { apply list_lookup_insert_eq. eapply lookup_lt_Some, Hb. }
  split; [congruence|]. split; [exact Hc|]. split; [reflexivity|]. split; [reflexivity|].
  split; [apply length_insert|].
  destruct (Book.id book ≫= _); [repeat split; reflexivity|].
  unfold update_book_progress. destruct (Book.id b'); [|repeat split; reflexivity].
  destruct (_ && _); [|repeat split; reflexivity].
  unfold update_rows. simpl. repeat split.
  rewrite <- list_fmap_compose. apply list_fmap_ext. intros ? row _. simpl.
  destruct (row_id row =? z); reflexivity.
Qed.

Lemma sqlite_int_range n : - 2 ^ 63 <= n < 2 ^ 63 -> sqlite_int n = true.
Proof.
  intros H. unfold sqlite_int. apply andb_true_intro.
  split; [apply Z.leb_le | apply Z.ltb_lt]; lia.
Qed.

Lemma load_books_progress mk_path conn book k :
  Book.id book = Some k ->
  sqlite_int k = true ->
  sqlite_int (Book.current_page book) = true ->
  sqlite_int (Book.total_pages book) = true ->
  load_books mk_path (update_book_progress conn book) =
  map (fun b => if has_id k b
                then with_is_read
                       (with_progress b (Book.current_page book) (Book.total_pages book))
                       (Book.is_read book)
                else b)
    (load_books mk_path conn).
Proof.
  intros Hid Hi Hcp Htp. unfold update_book_progress.
  rewrite Hid, Hi, Hcp, Htp. simpl andb. cbv iota.
  apply map_update_rows. intros row _.
  unfold book_of_row, with_is_read, with_progress. simpl.
  rewrite negb_bool_int. reflexivity.
Qed.

(** [show_page] when the pages of the open book are in the cache. *)
Lemma show_page_hit w settings st i book k pages :
  current_book st = Some i ->
  books st !! i = Some book ->
  Book.id book = Some k ->
  pages_cache st !! k = Some pages ->
  pages <> [] ->
  sqlite_int k = true ->
  Z.of_nat (length pages) < 2 ^ 63 ->
  12 <= font_size settings <= 30 ->
  let len := Z.of_nat (length pages) in
  let idx := Z.max 0 (Z.min (current_page_index st) (len - 1)) in
  let book2 := with_progress (with_is_read book true) idx len in
  exists conn2 pd controls,
    save_last_read (update_book_progress (conn st) book2) book2 = Ok conn2 /\
    pages !! Z.to_nat idx = Some pd /\
    build_page_view settings (snd (get_theme_colors settings)) pd = Ok controls /\
    show_page w settings st =
    Ok {| conn := conn2;
          books := <[i := book2]> (books st);
          pages_cache := pages_cache st;
          current_book := Some i;
          current_page_index := idx;
          reader :=
            Some {| page_data := pd; body := controls;
                    label_chapter := chapter_index pd + 1;
                    label_page := page_in_chapter pd;
                    label_global := idx + 1;
                    label_total := len;
                    slider_min := 0;
                    slider_max := len - 1;
                    slider_divisions := Z.max (len - 1) 1;
                    slider_value := idx |} |}.
Proof.
  intros Hcur Hb Hid Hc Hne Hk Hlen Hfs len idx book2.
  assert (Hlen1 : 1 <= len).
  { unfold len. destruct pages; [congruence | simpl; lia]. }
  assert (Hidx : 0 <= idx < len) by (unfold idx; lia).
  assert (Hclamp : (if (if current_page_index st <? 0 then 0 else current_page_index st)
                         >=? len
                    then len - 1
                    else if current_page_index st <? 0 then 0 else current_page_index st)
                   = idx).
  { unfold idx. destruct (current_page_index st <? 0) eqn:E1.
    - apply Z.ltb_lt in E1. destruct (0 >=? len) eqn:E2.
      + rewrite Z.geb_leb in E2. apply Z.leb_le in E2. lia.
      + lia.
    - apply Z.ltb_ge in E1. destruct (current_page_index st >=? len) eqn:E2.
      + rewrite Z.geb_leb in E2. apply Z.leb_le in E2. lia.
      + rewrite Z.geb_leb in E2. apply Z.leb_gt in E2. lia. }
  assert (Hsave : exists conn2,
             save_last_read (update_book_progress (conn st) book2) book2 = Ok conn2).
  { unfold save_last_read. cbn [Book.id book2 with_progress with_is_read Book.current_page].
    rewrite Hid, Hk, (sqlite_int_range idx) by lia. simpl. eexists. reflexivity. }
  destruct Hsave as (conn2 & Hsave).
  assert (Hpd : exists pd, pages !! Z.to_nat idx = Some pd).
  { apply lookup_lt_is_Some_2. unfold len in Hidx. lia. }
  destruct Hpd as (pd & Hpd).
  destruct (build_page_view_works settings (snd (get_theme_colors settings)) pd Hfs)
    as (controls & Hctl & _).
  exists conn2, pd, controls. split; [exact Hsave|]. split; [exact Hpd|].
  split; [exact Hctl|].
  unfold show_page. rewrite Hcur, Hb.
  rewrite (get_pages_at_hit w settings st i book k pages Hb Hid Hc).
  destruct pages as [|p0 ps]; [congruence|].
  cbv zeta. fold len. rewrite Hclamp. fold book2. rewrite Hsave.
  cbn [mbind result_mbind result_bind]. rewrite Hpd, Hctl.
  cbn [mbind result_mbind result_bind]. reflexivity.
Qed.

(** [show_page] gives the same whether the pages are computed by it or
    were in the cache before. *)
Lemma show_page_via_cache w settings st i book k :
  current_book st = Some i ->
  books st !! i = Some book ->
  Book.id book = Some k ->
  show_page w settings st =
  show_page w settings (snd (get_pages_at w settings st i book)).
Proof.
  intros Hcur Hb Hid.
  destruct (get_pages_at w settings st i book) as [[pages book'] st1] eqn:E.
  destruct (get_pages_at_state w settings st i book k Hb Hid _ _ _ E)
    as (_ & Hb1 & Hid1 & Hc1 & Hcur1 & Hidx1 & _).
  simpl snd. unfold show_page at 1 2. rewrite Hcur, Hb, E, Hcur1, Hcur, Hb1.
  rewrite (get_pages_at_hit w settings st1 i book' k pages Hb1 Hid1 Hc1).
  reflexivity.
Qed.

Lemma update_book_progress_last_read conn book :
  db_last_read (update_book_progress conn book) = db_last_read conn.
Proof.
  unfold update_book_progress. destruct (Book.id book); [|reflexivity].
  destruct (_ && _); reflexivity.
Qed.

Lemma save_last_read_spec conn book conn2 :
  save_last_read conn book = Ok conn2 ->
  db_books conn2 = db_books conn /\
  (forall k, Book.id book = Some k -> db_last_read conn <> None ->
             load_last_read conn2 = (Some k, Book.current_page book)).
Proof.
  unfold save_last_read. destruct (Book.id book) as [k|].
  - destruct (negb _); [discriminate|]. intros [= <-]. split; [reflexivity|].
    intros k' [= <-] Hne. unfold load_last_read. simpl.
    destruct (db_last_read conn); [reflexivity | congruence].
  - intros [= <-]. split; [reflexivity | discriminate].
Qed.

Lemma load_books_same mk_path conn conn' :
  db_books conn' = db_books conn -> load_books mk_path conn' = load_books mk_path conn.
Proof. unfold load_books. intros ->. reflexivity. Qed.

(** After a write of [book]'s progress, every stored book with that id
    carries that progress. *)
Lemma stored_progress mk_path conn book k :
  Book.id book = Some k ->
  sqlite_int k = true ->
  sqlite_int (Book.current_page book) = true ->
  sqlite_int (Book.total_pages book) = true ->
  Forall (fun b => has_id k b = true ->
                   Book.current_page b = Book.current_page book /\
                   Book.total_pages b = Book.total_pages book /\
                   Book.is_read b = Book.is_read book)
    (load_books mk_path (update_book_progress conn book)).
Proof.
  intros Hid Hk Hcp Htp. rewrite (load_books_progress mk_path conn book k Hid Hk Hcp Htp).
  apply Forall_forall. intros b Hb.
  apply list_elem_of_In, in_map_iff in Hb as (b0 & <- & _).
  destruct (has_id k b0) eqn:E; [intros _; repeat split | congruence].
Qed.

(** X25: whatever the page index was before -- the slider's value, a
    stored position, a number out of range --, [show_page] on an open
    stored book with pages brings it into the range of the book's pages,
    shows the page at that index, and records that same position
    everywhere: in the book record, in the book's row and in the last-read
    row of the database. *)
Theorem show_page_keeps_position_in_range
    (mk_path : string -> Path) (w : world) (settings : Settings) (st : app)
    (i : nat) (book : Book.t) (k : Z) :
  current_book st = Some i ->
  books st !! i = Some book ->
  Book.id book = Some k ->
  sqlite_int k = true ->
  12 <= font_size settings <= 30 ->
  db_last_read (conn st) <> None ->
  let pages := fst (fst (get_pages_for_book w settings (pages_cache st) book)) in
  let len := Z.of_nat (length pages) in
  pages <> [] ->
  len < 2 ^ 63 ->
  exists st' b' v,
    show_page w settings st = Ok st' /\
    current_book st' = Some i /\
    books st' !! i = Some b' /\
    pages_cache st' !! k = Some pages /\
    current_page_index st' = Z.max 0 (Z.min (current_page_index st) (len - 1)) /\
    0 <= current_page_index st' < len /\
    Book.current_page b' = current_page_index st' /\
    Book.total_pages b' = len /\
    Book.is_read b' = true /\
    load_last_read (conn st') = (Some k, current_page_index st') /\
    Forall (fun b => has_id k b = true ->
                     Book.current_page b = current_page_index st' /\
                     Book.total_pages b = len /\ Book.is_read b = true)
      (load_books mk_path (conn st')) /\
    reader st' = Some v /\
    pages !! Z.to_nat (current_page_index st') = Some (page_data v) /\
    slider_value v = current_page_index st' /\
    slider_max v = len - 1 /\
    1 <= slider_divisions v /\
    label_global v = current_page_index st' + 1 /\
    label_total v = len.
Proof.
  intros Hcur Hb Hid Hk Hfs Hlr pages len Hne Hlen.
  rewrite (show_page_via_cache w settings st i book k Hcur Hb Hid).
  destruct (get_pages_at w settings st i book) as [[pages1 book1] st1] eqn:E.
  destruct (get_pages_at_state w settings st i book k Hb Hid _ _ _ E)
    as (Hp & Hb1 & Hid1 & Hc1 & Hcur1 & Hidx1 & _ & Hlr1 & _).
  fold pages in Hp. subst pages1. simpl snd. rewrite Hcur in Hcur1.
  destruct (show_page_hit w settings st1 i book1 k pages Hcur1 Hb1 Hid1 Hc1 Hne Hk Hlen Hfs)
    as (conn2 & pd & controls & Hsave & Hpd & _ & Hshow).
  fold len in Hsave, Hpd, Hshow. rewrite Hidx1 in Hsave, Hpd, Hshow.
  set (idx := Z.max 0 (Z.min (current_page_index st) (len - 1))) in *.
  set (book2 := with_progress (with_is_read book1 true) idx len) in *.
  assert (Hlen1 : 1 <= len).
  { unfold len. destruct pages; [congruence | simpl; lia]. }
  assert (Hidx : 0 <= idx < len) by (unfold idx; lia).
  destruct (save_last_read_spec _ _ _ Hsave) as [Hbooks Hlast].
  eexists _, book2, _. split; [exact Hshow|]. cbn [current_book books pages_cache
    current_page_index reader conn page_data slider_value slider_max slider_divisions
    label_global label_total].
  split; [reflexivity|].
  split; [apply list_lookup_insert_eq; eapply lookup_lt_Some, Hb1|].
  split; [exact Hc1|]. split; [reflexivity|]. split; [exact Hidx|].
  split; [reflexivity|]. split; [reflexivity|]. split; [reflexivity|].
  split.
  { apply (Hlast k); [exact Hid1|]. rewrite update_book_progress_last_read, Hlr1. exact Hlr. }
  split.
  { rewrite (load_books_same mk_path _ _ Hbooks).
    apply (stored_progress mk_path (conn st1) book2 k); [exact Hid1 | exact Hk | |];
      apply sqlite_int_range; unfold book2, with_progress;
      cbn [Book.current_page Book.total_pages]; lia. }
  split; [reflexivity|].
  cbn [page_data slider_value slider_max slider_divisions label_global label_total].
  split; [exact Hpd|]. split; [reflexivity|].
  split; [reflexivity|]. split; [lia|]. split; reflexivity.
Qed.

Lemma sample_app_pages w settings idx :
  fst (fst (get_pages_for_book w settings (pages_cache (sample_app idx)) (sample_book 1 0 3)))
  = three_pages.
Proof.
  unfold get_pages_for_book. cbn [Book.id sample_book sample_app pages_cache mbind option_bind].
  rewrite lookup_singleton_eq. reflexivity.
Qed.

Lemma show_page_keeps_position_in_range_witness :
  exists st',
    show_page (world_with bare_package) (settings_of_font_size 18) (sample_app 7) = Ok st' /\
    current_page_index st' = 2 /\
    load_last_read (conn st') = (Some 1, 2).
Proof.
  pose proof (sample_app_pages (world_with bare_package) (settings_of_font_size 18) 7)
    as Hpages.
  destruct (show_page_keeps_position_in_range sample_mk_path (world_with bare_package)
              (settings_of_font_size 18) (sample_app 7) 0%nat (sample_book 1 0 3) 1
              eq_refl eq_refl eq_refl eq_refl ltac:(simpl; lia)
              ltac:(simpl; discriminate)
              ltac:(rewrite Hpages; discriminate)
              ltac:(rewrite Hpages; simpl; lia))
    as (st' & b' & v & Hshow & _ & _ & _ & Hidx & _ & _ & _ & _ & Hlast & _).
  rewrite Hpages in Hidx. change (current_page_index st' = 2) in Hidx.
  exists st'. split; [exact Hshow|]. split; [exact Hidx|].
  rewrite Hidx in Hlast. exact Hlast.
Defined.

Lemma cached_pages w settings (cache : gmap Z (list ChapterPage)) book k pages :
  Book.id book = Some k ->
  cache !! k = Some pages ->
  fst (fst (get_pages_for_book w settings cache book)) = pages.
Proof.
  intros Hid Hc. unfold get_pages_for_book. rewrite Hid. simpl. rewrite Hc. reflexivity.
Qed.

(** [show_page] on an open stored book with pages leaves the reader on a
    page of the book. *)
Lemma show_page_opens w settings st i book k :
  current_book st = Some i ->
  books st !! i = Some book ->
  Book.id book = Some k ->
  sqlite_int k = true ->
  12 <= font_size settings <= 30 ->
  let pages := fst (fst (get_pages_for_book w settings (pages_cache st) book)) in
  pages <> [] ->
  Z.of_nat (length pages) < 2 ^ 63 ->
  exists st',
    show_page w settings st = Ok st' /\
    reading st' k pages /\
    current_book st' = Some i /\
    current_page_index st'
    = Z.max 0 (Z.min (current_page_index st) (Z.of_nat (length pages) - 1)).
Proof.
  intros Hcur Hb Hid Hk Hfs pages Hne Hlen.
  rewrite (show_page_via_cache w settings st i book k Hcur Hb Hid).
  destruct (get_pages_at w settings st i book) as [[pages1 book1] st1] eqn:E.
  destruct (get_pages_at_state w settings st i book k Hb Hid _ _ _ E)
    as (Hp & Hb1 & Hid1 & Hc1 & Hcur1 & Hidx1 & _).
  fold pages in Hp. subst pages1. simpl snd. rewrite Hcur in Hcur1.
  destruct (show_page_hit w settings st1 i book1 k pages Hcur1 Hb1 Hid1 Hc1 Hne Hk Hlen Hfs)
    as (conn2 & pd & controls & _ & _ & _ & Hshow).
  rewrite Hidx1 in Hshow.
  assert (Hlen1 : 1 <= Z.of_nat (length pages)).
  { destruct pages; [congruence | simpl; lia]. }
  eexists. split; [exact Hshow|]. cbn [current_book current_page_index].
  split; [|split; reflexivity].
  eexists i, _. cbn [current_book books pages_cache current_page_index].
  split; [reflexivity|].
  split; [apply list_lookup_insert_eq; eapply lookup_lt_Some, Hb1|].
  split; [exact Hid1|]. split; [exact Hc1|]. split; [exact Hne|]. lia.
Qed.

Lemma show_page_reading w settings st k pages idx :
  reading st k pages ->
  sqlite_int k = true ->
  12 <= font_size settings <= 30 ->
  Z.of_nat (length pages) < 2 ^ 63 ->
  exists st',
    show_page w settings (with_index st idx) = Ok st' /\
    reading st' k pages /\
    current_book st' = current_book st /\
    current_page_index st' = Z.max 0 (Z.min idx (Z.of_nat (length pages) - 1)).
Proof.
  intros (i & book & Hcur & Hb & Hid & Hc & Hne & _) Hk Hfs Hlen.
  pose proof (cached_pages w settings (pages_cache (with_index st idx)) book k pages Hid Hc)
    as Hp.
  destruct (show_page_opens w settings (with_index st idx) i book k Hcur Hb Hid Hk Hfs)
    as (st' & Hshow & Hr & Hc' & Hidx); rewrite ?Hp; try assumption.
  exists st'. rewrite Hp in Hr, Hidx. split; [exact Hshow|]. split; [exact Hr|].
  split; [congruence | exact Hidx].
Qed.

Lemma handle_right w settings st k pages :
  reading st k pages ->
  sqlite_int k = true ->
  12 <= font_size settings <= 30 ->
  Z.of_nat (length pages) < 2 ^ 63 ->
  exists st',
    handle_keyboard w settings "ArrowRight" st = Ok st' /\
    reading st' k pages /\
    current_page_index st'
    = Z.min (current_page_index st + 1) (Z.of_nat (length pages) - 1).
Proof.
  intros Hr Hk Hfs Hlen.
  pose proof Hr as (i & book & Hcur & Hb & Hid & Hc & Hne & Hidx).
  unfold handle_keyboard. rewrite Hcur. simpl orb. cbv iota. rewrite Hb.
  rewrite (get_pages_at_hit w settings st i book k pages Hb Hid Hc).
  destruct (current_page_index st <? Z.of_nat (length pages) - 1) eqn:E.
  - apply Z.ltb_lt in E.
    destruct (show_page_reading w settings st k pages (current_page_index st + 1)
                Hr Hk Hfs Hlen) as (st' & Hs & Hr' & _ & Hi).
    exists st'. split; [exact Hs|]. split; [exact Hr'|]. lia.
  - apply Z.ltb_ge in E. exists st. split; [reflexivity|]. split; [exact Hr|]. lia.
Qed.

Lemma handle_left w settings st k pages :
  reading st k pages ->
  sqlite_int k = true ->
  12 <= font_size settings <= 30 ->
  Z.of_nat (length pages) < 2 ^ 63 ->
  exists st',
    handle_keyboard w settings "ArrowLeft" st = Ok st' /\
    reading st' k pages /\
    current_page_index st' = Z.max (current_page_index st - 1) 0.
Proof.
  intros Hr Hk Hfs Hlen.
  pose proof Hr as (i & book & Hcur & Hb & Hid & Hc & Hne & Hidx).
  unfold handle_keyboard. rewrite Hcur. simpl orb. cbv iota.
  destruct (current_page_index st >? 0) eqn:E.
  - rewrite Z.gtb_ltb in E. apply Z.ltb_lt in E.
    destruct (show_page_reading w settings st k pages (current_page_index st - 1)
                Hr Hk Hfs Hlen) as (st' & Hs & Hr' & _ & Hi).
    exists st'. split; [exact Hs|]. split; [exact Hr'|]. lia.
  - rewrite Z.gtb_ltb in E. apply Z.ltb_ge in E.
    exists st. split; [reflexivity|]. split; [exact Hr|]. lia.
Qed.

(** X26: with the reader on a page of a stored book, the right arrow moves
    to the next page and stops at the last, the left arrow moves to the
    previous page and stops at the first, the reader stays on a page of the
    book, and going one page forward and one page back (or back and forward)
    returns to the page one started from. *)
Theorem arrow_keys_turn_pages
    (w : world) (settings : Settings) (st : app) (k : Z) (pages : list ChapterPage) :
  reading st k pages ->
  sqlite_int k = true ->
  12 <= font_size settings <= 30 ->
  Z.of_nat (length pages) < 2 ^ 63 ->
  let idx := current_page_index st in
  let len := Z.of_nat (length pages) in
  exists r l,
    handle_keyboard w settings "ArrowRight" st = Ok r /\
    handle_keyboard w settings "ArrowLeft" st = Ok l /\
    reading r k pages /\ reading l k pages /\
    current_page_index r = Z.min (idx + 1) (len - 1) /\
    current_page_index l = Z.max (idx - 1) 0 /\
    (idx + 1 < len ->
     exists back, handle_keyboard w settings "ArrowLeft" r = Ok back /\
                  current_page_index back = idx) /\
    (0 < idx ->
     exists back, handle_keyboard w settings "ArrowRight" l = Ok back /\
                  current_page_index back = idx).
Proof.
  intros Hr Hk Hfs Hlen idx len.
  pose proof Hr as (_ & _ & _ & _ & _ & _ & _ & Hidx).
  destruct (handle_right w settings st k pages Hr Hk Hfs Hlen) as (r & Hr1 & Hr2 & Hr3).
  destruct (handle_left w settings st k pages Hr Hk Hfs Hlen) as (l & Hl1 & Hl2 & Hl3).
  exists r, l. repeat split; try assumption.
  - intros Hlt.
    destruct (handle_left w settings r k pages Hr2 Hk Hfs Hlen) as (b & Hb1 & _ & Hb3).
    exists b. split; [exact Hb1|]. fold idx len in Hr3. lia.
  - intros Hlt.
    destruct (handle_right w settings l k pages Hl2 Hk Hfs Hlen) as (b & Hb1 & _ & Hb3).
    exists b. split; [exact Hb1|]. fold idx len in Hl3. fold len in Hb3. fold idx len in Hidx.
    lia.
Qed.

Lemma sample_app_reading idx :
  0 <= idx < 3 -> reading (sample_app idx) 1 three_pages.
Proof.
  intros H. exists 0%nat, (sample_book 1 0 3).
  split; [reflexivity|]. split; [reflexivity|]. split; [reflexivity|].
  split; [apply lookup_singleton_eq|]. split; [discriminate|]. simpl. lia.
Qed.

Lemma arrow_keys_turn_pages_witness :
  exists r,
    handle_keyboard (world_with bare_package) (settings_of_font_size 18) "ArrowRight"
      (sample_app 1) = Ok r /\
    current_page_index r = 2.
Proof.
  destruct (arrow_keys_turn_pages (world_with bare_package) (settings_of_font_size 18)
              (sample_app 1) 1 three_pages
              (sample_app_reading 1 ltac:(lia)) eq_refl ltac:(simpl; lia) ltac:(simpl; lia))
    as (r & l & Hr & _ & _ & _ & Hi & _).
  exists r. split; [exact Hr | exact Hi].
Defined.

Lemma find_index_spec {A : Type} (f : A -> bool) (l : list A) i :
  find_index f l = Some i ->
  exists x, l !! i = Some x /\ f x = true.
Proof.
  revert i. induction l as [|y l IH]; intros i; simpl; [discriminate|].
  destruct (f y) eqn:E.
  - intros [= <-]. exists y. split; [reflexivity | exact E].
  - destruct (find_index f l) as [j|]; [|discriminate].
    intros [= <-]. destruct (IH j eq_refl) as (x & Hx & Hf). exists x. split; assumption.
Qed.

Lemma has_id_true k b : has_id k b = true -> Book.id b = Some k.
Proof.
  unfold has_id. destruct (Book.id b) as [j|]; [|discriminate].
  intros H. apply Z.eqb_eq in H. congruence.
Qed.

(** [open_reader] on a stored book with pages. *)
Lemma open_reader_opens w settings st i book k :
  books st !! i = Some book ->
  Book.id book = Some k ->
  sqlite_int k = true ->
  12 <= font_size settings <= 30 ->
  let pages := fst (fst (get_pages_for_book w settings (pages_cache st) book)) in
  pages <> [] ->
  Z.of_nat (length pages) < 2 ^ 63 ->
  exists st',
    open_reader w settings i st = Ok st' /\
    reading st' k pages /\
    current_book st' = Some i /\
    current_page_index st'
    = Z.max 0 (Z.min (Book.current_page book) (Z.of_nat (length pages) - 1)).
Proof.
  intros Hb Hid Hk Hfs pages Hne Hlen. unfold open_reader. rewrite Hb.
  set (st0 := {| conn := conn st; books := books st; pages_cache := pages_cache st;
                 current_book := Some i; current_page_index := Book.current_page book;
                 reader := reader st |}).
  destruct (show_page_opens w settings st0 i book k eq_refl Hb Hid Hk Hfs Hne Hlen)
    as (st1 & Hs1 & Hr1 & Hc1 & Hi1).
  rewrite Hs1. cbn [mbind result_mbind result_bind].
  destruct (show_page_reading w settings st1 k pages (current_page_index st1)
              Hr1 Hk Hfs Hlen) as (st2 & Hs2 & Hr2 & Hc2 & Hi2).
  assert (Heta : with_index st1 (current_page_index st1) = st1) by (destruct st1; reflexivity).
  rewrite Heta in Hs2. exists st2. split; [exact Hs2|]. split; [exact Hr2|].
  split; [congruence|].
  rewrite Hi2, Hi1. unfold st0. cbn [current_page_index pages_cache]. fold pages. lia.
Qed.

(** X27: "Continuar" reopens the book whose id the last-read row names,
    at the page stored there brought into the range of the book's pages:
    a position that [show_page] saved for a book whose page count is
    unchanged is the position the reader resumes at. *)
Theorem continuar_click_resumes
    (w : world) (settings : Settings) (st : app) (k p : Z) (i : nat) (b : Book.t) :
  load_last_read (conn st) = (Some k, p) ->
  find_index (has_id k) (books st) = Some i ->
  books st !! i = Some b ->
  sqlite_int k = true ->
  12 <= font_size settings <= 30 ->
  let last_page :=
    if Book.total_pages b >? 0 then Z.max 0 (Z.min p (Book.total_pages b - 1))
    else Z.max 0 p in
  let pages :=
    fst (fst (get_pages_for_book w settings (pages_cache st)
                (with_current_page b last_page))) in
  let len := Z.of_nat (length pages) in
  pages <> [] ->
  len < 2 ^ 63 ->
  exists st',
    continuar_click w settings st = Ok st' /\
    reading st' k pages /\
    current_book st' = Some i /\
    current_page_index st' = Z.max 0 (Z.min last_page (len - 1)) /\
    (0 <= p < len -> Book.total_pages b = len -> current_page_index st' = p).
Proof.
  intros Hload Hfind Hb Hk Hfs last_page pages len Hne Hlen.
  destruct (find_index_spec _ _ _ Hfind) as (x & Hx & Hid).
  rewrite Hb in Hx. injection Hx as <-. apply has_id_true in Hid.
  unfold continuar_click. rewrite Hload, Hfind, Hb. fold last_page.
  set (st0 := {| conn := conn st;
                 books := <[i := with_current_page b last_page]> (books st);
                 pages_cache := pages_cache st; current_book := current_book st;
                 current_page_index := current_page_index st; reader := reader st |}).
  assert (Hb0 : books st0 !! i = Some (with_current_page b last_page)).
  { apply list_lookup_insert_eq. eapply lookup_lt_Some, Hb. }
  destruct (open_reader_opens w settings st0 i (with_current_page b last_page) k
              Hb0 Hid Hk Hfs Hne Hlen) as (st' & Ho & Hr & Hc & Hi).
  cbn [Book.current_page with_current_page with_progress] in Hi.
  change (fst (fst (get_pages_for_book w settings (pages_cache st0)
                      (with_current_page b last_page)))) with pages in Hr, Hi.
  fold len in Hi.
  exists st'. split; [exact Ho|]. split; [exact Hr|]. split; [exact Hc|].
  split; [exact Hi|]. intros Hp Htot. rewrite Hi. unfold last_page. rewrite Htot.
  destruct (len >? 0) eqn:E; [lia|]. rewrite Z.gtb_ltb in E. apply Z.ltb_ge in E. lia.
Qed.

Lemma continuar_click_resumes_witness :
  exists st',
    continuar_click (world_with bare_package) (settings_of_font_size 18)
      {| conn := {| db_books := [row_of_book 1 (sample_book 1 2 3)]; db_sequence := 1;
                    db_settings := Some (18, "sepia"); db_last_read := Some (Some 1, 2) |};
         books := [sample_book 1 2 3];
         pages_cache := {[ 1 := three_pages ]};
         current_book := None; current_page_index := 0; reader := None |} = Ok st' /\
    current_book st' = Some 0%nat /\
    current_page_index st' = 2.
Proof.
  assert (Hpages :
    fst (fst (get_pages_for_book (world_with bare_package) (settings_of_font_size 18)
                {[ 1 := three_pages ]} (with_current_page (sample_book 1 2 3) 2)))
    = three_pages).
  { apply (cached_pages _ _ _ _ 1); [reflexivity | apply lookup_singleton_eq]. }
  pose proof (continuar_click_resumes (world_with bare_package) (settings_of_font_size 18)
                {| conn := {| db_books := [row_of_book 1 (sample_book 1 2 3)];
                              db_sequence := 1;
                              db_settings := Some (18, "sepia");
                              db_last_read := Some (Some 1, 2) |};
                   books := [sample_book 1 2 3];
                   pages_cache := {[ 1 := three_pages ]};
                   current_book := None; current_page_index := 0; reader := None |}
                1 2 0%nat (sample_book 1 2 3)
                eq_refl eq_refl eq_refl eq_refl ltac:(simpl; lia)) as H.
  cbv zeta in H. cbn [books pages_cache Book.total_pages sample_book] in H.
  change (if 3 >? 0 then Z.max 0 (Z.min 2 (3 - 1)) else Z.max 0 2) with 2 in H.
  rewrite Hpages in H.
  destruct (H ltac:(discriminate) ltac:(simpl; lia)) as (st' & Hc & _ & Hcur & _ & Hres).
  exists st'. split; [exact Hc|]. split; [exact Hcur|].
  apply Hres; [simpl; lia | reflexivity].
Defined.

Lemma load_books_flags mk_path conn book k :
  Book.id book = Some k ->
  sqlite_int k = true ->
  exists conn',
    update_book_flags conn book = Ok conn' /\
    load_books mk_path conn' =
    map (fun b => if has_id k b
                  then with_tags
                         (with_is_read (with_is_favorite b (Book.is_favorite book))
                            (Book.is_read book))
                         (Book.tags book)
                  else b)
      (load_books mk_path conn).
Proof.
  intros Hid Hi. unfold update_book_flags. rewrite Hid, Hi. simpl negb. cbv iota.
  eexists. split; [reflexivity|].
  apply map_update_rows. intros row _.
  unfold book_of_row, with_tags, with_is_read, with_is_favorite. simpl.
  rewrite !negb_bool_int. reflexivity.
Qed.

Lemma toggle_read_once mk_path st i book k :
  books st !! i = Some book ->
  Book.id book = Some k ->
  sqlite_int k = true ->
  sqlite_int (Book.current_page book) = true ->
  sqlite_int (Book.total_pages book) = true ->
  exists st' b',
    toggle_read i st = Ok st' /\
    books st' !! i = Some b' /\
    Book.id b' = Some k /\
    Book.is_read b' = negb (Book.is_read book) /\
    Book.current_page b' = (if Book.is_read book then 0 else Book.current_page book) /\
    Book.total_pages b' = Book.total_pages book /\
    Book.is_favorite b' = Book.is_favorite book /\
    Book.tags b' = Book.tags book /\
    Forall (fun b => has_id k b = true ->
                     Book.is_read b = Book.is_read b' /\
                     Book.current_page b = Book.current_page b' /\
                     Book.total_pages b = Book.total_pages b' /\
                     Book.is_favorite b = Book.is_favorite b' /\
                     Book.tags b = Book.tags b')
      (load_books mk_path (conn st')).
Proof.
  intros Hb Hid Hk Hcp Htp. unfold toggle_read. rewrite Hb.
  set (b' := if Book.is_read book
             then with_progress (with_is_read book false) 0 (Book.total_pages book)
             else with_is_read book true).
  assert (Hid' : Book.id b' = Some k) by (unfold b'; destruct (Book.is_read book); exact Hid).
  assert (Hcp' : sqlite_int (Book.current_page b') = true).
  { unfold b'. destruct (Book.is_read book); [reflexivity | exact Hcp]. }
  assert (Htp' : sqlite_int (Book.total_pages b') = true).
  { unfold b'. destruct (Book.is_read book); exact Htp. }
  destruct (load_books_flags mk_path (update_book_progress (conn st) b') b' k Hid' Hk)
    as (conn' & Hflags & Hload).
  rewrite Hflags. cbn [mbind result_mbind result_bind].
  eexists _, b'. split; [reflexivity|]. cbn [books conn].
  split; [apply list_lookup_insert_eq; eapply lookup_lt_Some, Hb|].
  split; [exact Hid'|].
  split; [unfold b'; destruct (Book.is_read book); reflexivity|].
  split; [unfold b'; destruct (Book.is_read book); reflexivity|].
  split; [unfold b'; destruct (Book.is_read book); reflexivity|].
  split; [unfold b'; destruct (Book.is_read book); reflexivity|].
  split; [unfold b'; destruct (Book.is_read book); reflexivity|].
  rewrite Hload, (load_books_progress mk_path (conn st) b' k Hid' Hk Hcp' Htp').
  rewrite map_map. apply Forall_forall. intros b Hin.
  apply list_elem_of_In, in_map_iff in Hin as (b0 & <- & _).
  destruct (has_id k b0) eqn:E.
  - assert (E' : has_id k (with_is_read
                            (with_progress b0 (Book.current_page b') (Book.total_pages b'))
                            (Book.is_read b')) = true) by exact E.
    rewrite E'. intros _. repeat split.
  - rewrite E. congruence.
Qed.

(** X28: "marcar como leido / no leido" flips the read mark of the book,
    sends a book that was read back to page 0 and keeps its page count, and
    the book's row in the database then says what the record says.  Doing
    it twice restores the mark but not the page: the book ends on page
    0. *)
Theorem toggle_read_resets_position
    (mk_path : string -> Path) (st : app) (i : nat) (book : Book.t) (k : Z) :
  books st !! i = Some book ->
  Book.id book = Some k ->
  sqlite_int k = true ->
  sqlite_int (Book.current_page book) = true ->
  sqlite_int (Book.total_pages book) = true ->
  exists st1 b1 st2 b2,
    toggle_read i st = Ok st1 /\
    books st1 !! i = Some b1 /\
    Book.is_read b1 = negb (Book.is_read book) /\
    Book.current_page b1 = (if Book.is_read book then 0 else Book.current_page book) /\
    Book.total_pages b1 = Book.total_pages book /\
    Forall (fun b => has_id k b = true ->
                     Book.is_read b = Book.is_read b1 /\
                     Book.current_page b = Book.current_page b1 /\
                     Book.total_pages b = Book.total_pages b1 /\
                     Book.is_favorite b = Book.is_favorite b1 /\
                     Book.tags b = Book.tags b1)
      (load_books mk_path (conn st1)) /\
    toggle_read i st1 = Ok st2 /\
    books st2 !! i = Some b2 /\
    Book.is_read b2 = Book.is_read book /\
    Book.current_page b2 = 0 /\
    Book.total_pages b2 = Book.total_pages book.
Proof.
  intros Hb Hid Hk Hcp Htp.
  destruct (toggle_read_once mk_path st i book k Hb Hid Hk Hcp Htp)
    as (st1 & b1 & H1 & Hb1 & Hid1 & Hr1 & Hc1 & Ht1 & _ & _ & Hdb1).
  assert (Hcp1 : sqlite_int (Book.current_page b1) = true).
  { rewrite Hc1. destruct (Book.is_read book); [reflexivity | exact Hcp]. }
  assert (Htp1 : sqlite_int (Book.total_pages b1) = true) by (rewrite Ht1; exact Htp).
  destruct (toggle_read_once mk_path st1 i b1 k Hb1 Hid1 Hk Hcp1 Htp1)
    as (st2 & b2 & H2 & Hb2 & _ & Hr2 & Hc2 & Ht2 & _).
  exists st1, b1, st2, b2. repeat split; try assumption.
  - rewrite Hr2, Hr1. apply negb_involutive.
  - rewrite Hc2, Hr1, Hc1. destruct (Book.is_read book); reflexivity.
  - congruence.
Qed.

Lemma toggle_read_resets_position_witness :
  exists st1 b1,
    toggle_read 0 (sample_app 0) = Ok st1 /\
    books st1 !! 0%nat = Some b1 /\
    Book.is_read b1 = true.
Proof.
  destruct (toggle_read_resets_position sample_mk_path (sample_app 0) 0%nat
              (sample_book 1 0 3) 1 eq_refl eq_refl eq_refl eq_refl eq_refl)
    as (st1 & b1 & _ & _ & H1 & Hb1 & Hr1 & _).
  exists st1, b1. split; [exact H1|]. split; [exact Hb1 | exact Hr1].
Defined.

(** * The progress badge *)

Section BadgeFacts.
Import PyFloat.

Lemma shr_fexp_general m e l : 0 <= m ->
  let k := Z.max (Z.max (Zdigits2 m + e - 53) (-1074) - e) 0 in
  shr_m (fst (shr_fexp prec emax m e l)) = m / 2 ^ k /\
  snd (shr_fexp prec emax m e l) = e + k.
Proof.
  intros Hm k. unfold shr_fexp.
  assert (Hk : Z.max (fexp prec emax (Zdigits2 m + e) - e) 0 = k).
  { unfold fexp, emin, prec, emax, k. lia. }
  destruct (shr_spec (shr_record_of_loc m l) e (fexp prec emax (Zdigits2 m + e) - e)) as [H1 H2].
  { destruct l as [|[]]; simpl; assumption. }
  rewrite Hk in H1, H2. split; [|assumption].
  rewrite H1. destruct l as [|[]]; reflexivity.
Qed.

(** Rounding a non-negative [q * 2^e] that is at most [C / 2^j] gives
    zero or a finite double that is at most [(C + 1) / 2^j]. *)
Lemma binary_round_aux_le q e l C j :
  0 <= q -> 1 <= j <= 1074 -> e <= - j -> 0 <= C -> C + 1 < 2 ^ 53 ->
  q <= C * 2 ^ (- e - j) ->
  binary_round_aux prec emax false q e l = S754_zero false \/
  exists m2 e2,
    binary_round_aux prec emax false q e l = S754_finite false m2 e2 /\
    -1074 <= e2 <= - j /\ Zpos m2 <= (C + 1) * 2 ^ (- e2 - j).
Proof.
  intros Hq Hj He HC HC1 Hb. unfold binary_round_aux.
  destruct (shr_fexp_general q e l Hq) as [Hm0 He1].
  destruct (shr_fexp prec emax q e l) as [mrs1 e1]. simpl in Hm0, He1.
  set (K1 := Z.max (Z.max (Zdigits2 q + e - 53) (-1074) - e) 0) in *.
  set (s := - e) in *.
  assert (Hps : 0 < 2 ^ (s - j)) by (apply Z.pow_pos_nonneg; lia).
  assert (Hdq : Zdigits2 q <= 53 + (s - j)).
  { apply Zdigits2_upper; [|lia]. split; [assumption|].
    rewrite Z.pow_add_r by lia. replace (- e - j) with (s - j) in Hb by lia. nia. }
  assert (HK1 : 0 <= K1 <= s - j /\ s - 1074 <= K1) by (unfold K1, s in *; lia).
  set (s1 := s - K1).
  assert (Hs : 2 ^ (s - j) = 2 ^ (s1 - j) * 2 ^ K1).
  { rewrite <- Z.pow_add_r by lia. f_equal. lia. }
  assert (HP1 : 0 < 2 ^ K1) by (apply Z.pow_pos_nonneg; lia).
  assert (HS1 : 0 < 2 ^ (s1 - j)) by (apply Z.pow_pos_nonneg; lia).
  set (m0 := shr_m mrs1) in *.
  assert (Hm0b : 0 <= m0 /\ m0 * 2 ^ K1 <= q).
  { rewrite Hm0. split; [apply Z.div_pos; lia|].
    rewrite Z.mul_comm. apply Z.mul_div_le. assumption. }
  pose proof (round_nearest_even_bounds m0 (loc_of_shr_record mrs1)) as Hr.
  set (m1 := round_nearest_even m0 (loc_of_shr_record mrs1)) in *.
  assert (Hm1 : 0 <= m1 /\ m1 <= (C + 1) * 2 ^ (s1 - j)).
  { split; [lia|]. assert (m0 <= C * 2 ^ (s1 - j)); [|nia].
    apply Z.mul_le_mono_pos_r with (2 ^ K1); [assumption|].
    replace (- e - j) with (s - j) in Hb by lia. nia. }
  destruct (shr_fexp_general m1 e1 loc_Exact ltac:(lia)) as [Hm2 He2].
  destruct (shr_fexp prec emax m1 e1 loc_Exact) as [mrs2 e2]. simpl in Hm2, He2.
  set (K2 := Z.max (Z.max (Zdigits2 m1 + e1 - 53) (-1074) - e1) 0) in *.
  assert (He1' : e1 = - s1) by (unfold s1, s; lia).
  assert (Hdm : Zdigits2 m1 <= 53 + (s1 - j)).
  { apply Zdigits2_upper; [|lia]. split; [lia|].
    rewrite Z.pow_add_r by lia. nia. }
  assert (HK2 : 0 <= K2 <= s1 - j) by (unfold K2; lia).
  set (s2 := s1 - K2).
  assert (Hs' : 2 ^ (s1 - j) = 2 ^ (s2 - j) * 2 ^ K2).
  { rewrite <- Z.pow_add_r by lia. f_equal. lia. }
  assert (HP2 : 0 < 2 ^ K2) by (apply Z.pow_pos_nonneg; lia).
  assert (HS2 : 0 < 2 ^ (s2 - j)) by (apply Z.pow_pos_nonneg; lia).
  set (m2 := shr_m mrs2) in *.
  assert (Hm2b : 0 <= m2 /\ m2 <= (C + 1) * 2 ^ (s2 - j)).
  { rewrite Hm2. split; [apply Z.div_pos; lia|].
    apply Z.div_le_upper_bound; [assumption|]. nia. }
  assert (He2' : e2 = - s2) by (unfold s2; lia).
  destruct m2 as [|m|m] eqn:Em2.
  - left. reflexivity.
  - right. assert (Hle : (e2 <=? emax - prec) = true)
      by (apply Z.leb_le; unfold emax, prec; lia).
    rewrite Hle. exists m, e2. split; [reflexivity|]. split; [unfold s2, s1 in *; lia|].
    replace (- e2 - j) with (s2 - j) by lia. apply Hm2b.
  - lia.
Qed.

(** Truncating a finite double that is at most [(N * 2^j + 2^j - 1) / 2^j]
    gives at most [N]. *)
Lemma to_int_le m e j N :
  1 <= j -> e <= - j -> 0 <= N ->
  Zpos m <= (N * 2 ^ j + 2 ^ j - 1) * 2 ^ (- e - j) ->
  exists n, to_int (S754_finite false m e) = Ok n /\ 0 <= n <= N.
Proof.
  intros Hj He HN Hb. destruct e as [|p|p]; try lia.
  exists (Z.shiftr (Z.pos m) (Z.pos p)). split; [reflexivity|].
  rewrite Z.shiftr_div_pow2 by lia.
  assert (Hpj : 0 < 2 ^ j) by (apply Z.pow_pos_nonneg; lia).
  assert (Hpe : 0 < 2 ^ (Z.pos p - j)) by (apply Z.pow_pos_nonneg; lia).
  assert (Hp : 2 ^ Z.pos p = 2 ^ (Z.pos p - j) * 2 ^ j).
  { rewrite <- Z.pow_add_r by lia. f_equal. lia. }
  split; [apply Z.div_pos; lia|].
  apply Z.lt_succ_r. apply Z.div_lt_upper_bound; [lia|].
  replace (- Z.neg p - j) with (Z.pos p - j) in Hb by lia. rewrite Hp. nia.
Qed.

Lemma Zdigits2_gt p : Zpos p < 2 ^ Zdigits2 (Zpos p).
Proof.
  simpl. rewrite digits2_pos_size.
  pose proof (Pos.size_gt p) as Hs. apply Pos2Z.pos_lt_pos in Hs.
  rewrite Pos2Z.inj_pow in Hs. exact Hs.
Qed.

Lemma Zdigits2_mono a b : (a <= b)%positive -> Zdigits2 (Zpos a) <= Zdigits2 (Zpos b).
Proof.
  intros Hab. apply Zdigits2_upper.
  - pose proof (Zdigits2_gt b). lia.
  - simpl. lia.
Qed.

(** The quotient of two positive integers [k <= n] is a double that is at
    most [1 + 2^-40]. *)
Lemma truediv_fraction k n :
  (k <= n)%positive ->
  truediv (Zpos k) (Zpos n) = Ok (S754_zero false) \/
  exists m e,
    truediv (Zpos k) (Zpos n) = Ok (S754_finite false m e) /\
    -1074 <= e <= -40 /\ Zpos m <= (2 ^ 40 + 1) * 2 ^ (- e - 40).
Proof.
  intros Hkn. unfold truediv.
  change (Z.pos k <? 0) with false. change (Z.pos n <? 0) with false.
  change (Z.to_pos (Z.abs (Z.pos k))) with k.
  change (Z.to_pos (Z.abs (Z.pos n))) with n.
  unfold SFdiv. change (xorb false false) with false.
  unfold SFdiv_core_binary.
  pose proof (Zdigits2_mono k n Hkn) as Hd.
  set (dk := Zdigits2 (Z.pos k)) in *. set (dn := Zdigits2 (Z.pos n)) in *.
  set (e' := Z.min (fexp prec emax (dk + 0 - (dn + 0))) (0 - 0)).
  assert (He' : -1074 <= e' <= -53) by (unfold e', fexp, emin, prec, emax; lia).
  assert (Hs : exists p, 0 - 0 - e' = Z.pos p) by (destruct e'; try lia; eexists; reflexivity).
  destruct Hs as [p Hp]. rewrite Hp.
  rewrite Z.shiftl_mul_pow2 by lia.
  assert (Hpp : 0 < 2 ^ Z.pos p) by (apply Z.pow_pos_nonneg; lia).
  pose proof (Z.div_eucl_eq (Z.pos k * 2 ^ Z.pos p) (Z.pos n) ltac:(lia)) as Heq.
  pose proof (Z.mod_pos_bound (Z.pos k * 2 ^ Z.pos p) (Z.pos n) ltac:(lia)) as Hmod.
  unfold Z.modulo in Hmod.
  assert (Hq : 0 <= (Z.pos k * 2 ^ Z.pos p) / Z.pos n) by (apply Z.div_pos; lia).
  unfold Z.div in Hq.
  destruct (Z.div_eucl (Z.pos k * 2 ^ Z.pos p) (Z.pos n)) as [q r].
  assert (Hqb : q <= 2 ^ 40 * 2 ^ (- e' - 40)).
  { rewrite <- Z.pow_add_r by lia. replace (40 + (- e' - 40)) with (Z.pos p) by lia.
    assert (Hkn' : Z.pos k <= Z.pos n) by (apply Pos2Z.pos_le_pos; exact Hkn). nia. }
  destruct (binary_round_aux_le q e' (new_location (Z.pos n) r) (2 ^ 40) 40)
    as [Hz|(m & e & Hf & He & Hm)]; try lia; try exact Hqb.
  - left. rewrite Hz. reflexivity.
  - right. exists m, e. rewrite Hf. split; [reflexivity|]. split; [lia | exact Hm].
Qed.

Lemma div_eucl_exact k j : Z.div_eucl (Z.pos k * 2 ^ j) (Z.pos k) = (2 ^ j, 0).
Proof.
  pose proof (Z.div_mul (2 ^ j) (Z.pos k) ltac:(lia)) as Hd.
  pose proof (Z.mod_mul (2 ^ j) (Z.pos k) ltac:(lia)) as Hm.
  rewrite (Z.mul_comm (2 ^ j)) in Hd, Hm.
  unfold Z.div in Hd. unfold Z.modulo in Hm.
  destruct (Z.div_eucl (Z.pos k * 2 ^ j) (Z.pos k)) as [q r]. congruence.
Qed.

(** A positive integer divided by itself is the double 1.0. *)
Lemma truediv_self k :
  truediv (Zpos k) (Zpos k) = Ok (S754_finite false 4503599627370496 (-52)).
Proof.
  unfold truediv.
  change (Z.pos k <? 0) with false.
  change (Z.to_pos (Z.abs (Z.pos k))) with k.
  unfold SFdiv. change (xorb false false) with false.
  unfold SFdiv_core_binary.
  replace (Zdigits2 (Z.pos k) + 0 - (Zdigits2 (Z.pos k) + 0)) with 0 by lia.
  change (Z.min (fexp prec emax 0) (0 - 0)) with (-53).
  change (0 - 0 - -53) with 53.
  rewrite Z.shiftl_mul_pow2 by lia. rewrite div_eucl_exact.
  assert (Hloc : new_location (Z.pos k) 0 = loc_Exact).
  { unfold new_location. destruct (Z.even (Z.pos k)); reflexivity. }
  rewrite Hloc. vm_compute. reflexivity.
Qed.
End BadgeFacts.

(** X29: for a book whose position lies within its pages the progress
    badge shows a percentage between 0 and 100, whatever the page count,
    and 100 on the last page; a book without pages has progress 0. *)
Theorem card_progress_is_a_percentage (book : Book.t) :
  (0 <= Book.current_page book < Book.total_pages book ->
   exists p, card_progress book = Ok p /\ 0 <= p <= 100 /\
             (Book.current_page book + 1 = Book.total_pages book -> p = 100)) /\
  (Book.total_pages book <= 0 -> card_progress book = Ok 0).
Proof.
  unfold card_progress. split.
  - intros [Hcp Htp].
    assert (Hgt : (Book.total_pages book >? 0) = true)
      by (rewrite Z.gtb_ltb; apply Z.ltb_lt; lia).
    rewrite Hgt.
    change (PyFloat.of_int 100) with (Ok (S754_finite false 7036874417766400 (-46))).
    destruct (Book.total_pages book) as [|n|n] eqn:En; try lia.
    destruct (Book.current_page book + 1) as [|k|k] eqn:Ek; try lia.
    destruct (Pos.eq_dec k n) as [->|Hne].
    + rewrite truediv_self. exists 100. split; [vm_compute; reflexivity|].
      split; [lia | reflexivity].
    + assert (Hkn : (k <= n)%positive) by lia.
      destruct (truediv_fraction k n Hkn) as [Hz|(m & e & Hf & He & Hm)].
      * rewrite Hz. exists 0. split; [reflexivity|]. split; [lia|]. intros H; lia.
      * rewrite Hf. cbn [mbind result_mbind result_bind].
        unfold PyFloat.mul, SFmul. change (xorb false false) with false.
        assert (Hprod : Z.pos (m * 7036874417766400)
                        <= 100 * (2 ^ 40 + 1) * 2 ^ (- (e + -46) - 40)).
        { replace (- (e + -46) - 40) with ((- e - 40) + 46) by lia.
          rewrite Z.pow_add_r by lia. rewrite Pos2Z.inj_mul.
          change (Z.pos 7036874417766400) with (100 * 2 ^ 46).
          assert (0 < 2 ^ (- e - 40)) by (apply Z.pow_pos_nonneg; lia). nia. }
        destruct (binary_round_aux_le (Z.pos (m * 7036874417766400)) (e + -46) loc_Exact
                    (100 * (2 ^ 40 + 1)) 40 ltac:(lia) ltac:(lia) ltac:(lia) ltac:(lia)
                    ltac:(vm_compute; reflexivity) Hprod)
          as [Hz|(m2 & e2 & Hf2 & He2 & Hm2)].
        { rewrite Hz. exists 0. split; [reflexivity|]. split; [lia|]. intros H; lia. }
        rewrite Hf2.
        assert (Hm3 : Z.pos m2 <= (100 * 2 ^ 40 + 2 ^ 40 - 1) * 2 ^ (- e2 - 40)).
        { eapply Z.le_trans; [exact Hm2|].
          apply Z.mul_le_mono_nonneg_r; [apply Z.pow_nonneg; lia|]. vm_compute. discriminate. }
        destruct (to_int_le m2 e2 40 100 ltac:(lia) ltac:(lia) ltac:(lia) Hm3)
          as (p & Hp & Hb).
        exists p. split; [exact Hp|]. split; [exact Hb|]. intros H. lia.
  - intros Hle.
    assert (Hgt : (Book.total_pages book >? 0) = false)
      by (rewrite Z.gtb_ltb; apply Z.ltb_ge; lia).
    rewrite Hgt. reflexivity.
Qed.

Lemma card_progress_is_a_percentage_witness :
  exists p, card_progress (sample_book 1 28 100) = Ok p /\ 0 <= p <= 100.
Proof.
  destruct (proj1 (card_progress_is_a_percentage (sample_book 1 28 100))
              ltac:(simpl; lia)) as (p & Hp & Hb & _).
  exists p. split; assumption.
Defined.

(** * Importing a book *)

Lemma extract_cover_image_path cw files path :
  fst (extract_cover_image cw files path) = None \/
  exists ext, (ext = ".png" \/ ext = ".jpg") /\
              fst (extract_cover_image cw files path) = Some (cover_out_path path ext).
Proof.
  unfold extract_cover_image.
  destruct (negb (cover_epub_available cw)); [left; reflexivity|].
  destruct (cover_read_epub cw path) as [items|]; [|left; reflexivity].
  destruct (select_cover items) as [c|]; [|left; reflexivity].
  cbv zeta. destruct (cover_writable cw _); [|left; reflexivity].
  right. eexists. split; [|reflexivity].
  unfold cover_extension. destruct (py_in "png" _); [left | right]; reflexivity.
Qed.

(** With every value present, the title and the author are those of
    [get_epub_metadata]. *)
Lemma get_epub_metadata_opt_present w p :
  get_epub_metadata_opt (import_world_of w) p =
  (Some (fst (get_epub_metadata w p)), Some (snd (get_epub_metadata w p))).
Proof.
  unfold get_epub_metadata_opt, get_epub_metadata, import_world_of. simpl.
  destruct (negb (epub_available w)); [reflexivity|].
  destruct (read_epub w p) as [book|exc]; [|reflexivity]. simpl.
  destruct (dc_title book) as [|[t ?] ?]; destruct (dc_creator book) as [|[a ?] ?];
    reflexivity.
Qed.

Lemma insert_book_inv conn book conn' book' :
  insert_book conn book = Ok (conn', book') ->
  sqlite_int (next_rowid conn) = true /\
  conn' = {| db_books := db_books conn ++ [row_of_book (next_rowid conn) book];
             db_sequence := next_rowid conn;
             db_settings := db_settings conn;
             db_last_read := db_last_read conn |} /\
  book' = with_id book (next_rowid conn).
Proof.
  unfold insert_book. destruct (negb _); [discriminate|].
  destruct (sqlite_int (next_rowid conn)); [|discriminate].
  intros [= <- <-]. repeat split.
Qed.

(** The table after the INSERT of [on_file_picked] loads as the table
    before it, followed by the new book. *)
Lemma insert_picked_then_load mk_path conn title author book conn' book' p :
  insert_picked conn title author book = Ok (conn', book') ->
  Book.file_path book = Some p ->
  mk_path (path_str p) = p ->
  (forall c, Book.cover_path book = Some c -> mk_path (path_str c) = c /\ path_str c <> "") ->
  exists t,
    title = Some t /\
    sqlite_int (next_rowid conn) = true /\
    book' = with_id (with_author (with_title book t) (default EmptyString author))
              (next_rowid conn) /\
    load_books mk_path conn' = load_books mk_path conn ++ [book'].
Proof.
  unfold insert_picked. destruct title as [t|]; [|discriminate].
  destruct (insert_book conn _) as [[conn1 book1]|exc] eqn:Hins; [|discriminate].
  cbn [mbind result_mbind result_bind]. intros [= <- <-] Hf Hp Hc.
  destruct (insert_book_inv _ _ _ _ Hins) as (Hid & -> & ->).
  exists t. split; [reflexivity|]. split; [exact Hid|]. split; [reflexivity|].
  set (nb := with_author (with_title book t) (default EmptyString author)).
  assert (Hrow : book_of_row mk_path (row_of_book (next_rowid conn) nb)
                 = with_id nb (next_rowid conn)).
  { apply (book_of_row_of_book mk_path _ nb p); [exact Hf | exact Hp | exact Hc]. }
  destruct author as [a|].
  - unfold load_books. cbn [db_books]. rewrite map_app. cbn [map]. rewrite Hrow.
    reflexivity.
  - unfold null_author, update_rows, load_books. cbn [db_books].
    rewrite !map_app. cbn [map row_of_book row_id]. rewrite Z.eqb_refl.
    f_equal.
    + rewrite map_map. apply map_ext_in. intros row Hrow'.
      destruct (next_rowid_above conn) as [_ Hr]. rewrite Forall_forall in Hr.
      apply list_elem_of_In, Hr in Hrow'.
      destruct (Z.eqb_spec (row_id row) (next_rowid conn)); [lia | reflexivity].
    + rewrite <- Hrow. reflexivity.
Qed.

(** X30: importing a file whose title is present appends one book to the
    library and stores it: when the book list mirrored the table before, it
    mirrors it after.  The new book has a fresh id, the title and the
    author of the file (an absent author reads as the empty string), the
    picked path, the cover that [extract_cover_image] gives, and starts
    unread, not a favourite, without tags, at page 0 of 0.  A file whose
    title is [None], as one with an empty [dc:title], is not imported: the
    INSERT raises, the library and the table stay as they were, and the
    cover has been written already.  Without a picked file nothing
    happens. *)
Theorem on_file_picked_adds_book
    (mk_path : string -> Path) (iw : import_world) (cw : cover_world)
    (files : gmap string string) (path : Path) (st : app) :
  load_books mk_path (conn st) = books st ->
  sqlite_int (next_rowid (conn st)) = true ->
  mk_path (path_str path) = path ->
  (forall ext, ext = ".png" \/ ext = ".jpg" ->
               mk_path (path_str (cover_out_path path ext)) = cover_out_path path ext) ->
  (forall title author,
     get_epub_metadata_opt iw path = (Some title, author) ->
     exists st' i,
       on_file_picked iw cw files (Some path) st
       = (st', snd (extract_cover_image cw files path), None) /\
       books st' =
         books st ++
         [ {| Book.id := Some i;
              Book.title := title;
              Book.author := default EmptyString author;
              Book.file_path := Some path;
              Book.cover_path := fst (extract_cover_image cw files path);
              Book.is_favorite := false; Book.is_read := false; Book.tags := "";
              Book.current_page := 0; Book.total_pages := 0 |} ] /\
       Forall (fun b => has_id i b = false) (books st) /\
       load_books mk_path (conn st') = books st' /\
       pages_cache st' = pages_cache st /\
       current_book st' = current_book st /\
       current_page_index st' = current_page_index st) /\
  (forall author,
     get_epub_metadata_opt iw path = (None, author) ->
     on_file_picked iw cw files (Some path) st
     = (st, snd (extract_cover_image cw files path),
        Some "NOT NULL constraint failed: books.title")) /\
  on_file_picked iw cw files None st = (st, files, None).
Proof.
  intros Hmirror Hid Hp Hcov. split; [|split; [|reflexivity]].
  - intros title author Hmeta. unfold on_file_picked. rewrite Hmeta.
    pose proof (extract_cover_image_path cw files path) as Hc.
    destruct (extract_cover_image cw files path) as [cover files1].
    simpl in Hc. simpl fst. simpl snd.
    set (nb := {| Book.id := None; Book.title := EmptyString; Book.author := EmptyString;
                  Book.file_path := Some path; Book.cover_path := cover;
                  Book.is_favorite := false; Book.is_read := false; Book.tags := "";
                  Book.current_page := 0; Book.total_pages := 0 |}).
    assert (Hcover : forall c, Book.cover_path nb = Some c ->
                               mk_path (path_str c) = c /\ path_str c <> "").
    { intros c Hc'. simpl in Hc'. subst cover.
      destruct Hc as [Hc|(ext & Hext & Hc)]; [discriminate|]. injection Hc as ->.
      split; [apply Hcov, Hext|]. unfold cover_out_path, COVERS_DIR. simpl. discriminate. }
    assert (Hins : exists conn' book',
               insert_picked (conn st) (Some title) author nb = Ok (conn', book')).
    { unfold insert_picked.
      rewrite (insert_book_ok (conn st)
                 (with_author (with_title nb title) (default EmptyString author))
                 eq_refl eq_refl Hid).
      cbn [mbind result_mbind result_bind]. eexists _, _. reflexivity. }
    destruct Hins as (conn' & book' & Hins). rewrite Hins.
    destruct (insert_picked_then_load mk_path _ _ _ _ _ _ path Hins eq_refl Hp Hcover)
      as (t & Ht & _ & Hbook & Hload).
    injection Ht as <-.
    exists {| conn := conn'; books := books st ++ [book'];
              pages_cache := pages_cache st; current_book := current_book st;
              current_page_index := current_page_index st; reader := reader st |},
           (next_rowid (conn st)).
    split; [reflexivity|]. cbn [books conn pages_cache current_book current_page_index].
    split; [rewrite Hbook; reflexivity|].
    split; [rewrite <- Hmirror; apply next_rowid_fresh|].
    split; [rewrite Hload, Hmirror; reflexivity|].
    split; [reflexivity|]. split; reflexivity.
  - intros author Hmeta. unfold on_file_picked. rewrite Hmeta.
    destruct (extract_cover_image cw files path) as [cover files1]. reflexivity.
Qed.

Lemma on_file_picked_adds_book_witness :
  on_file_picked
    {| import_epub_available := true;
       import_read_epub := fun _ => Ok {| md_title := [None]; md_creator := [] |} |}
    {| cover_epub_available := false; cover_read_epub := fun _ => Raise "";
       cover_writable := fun _ => true |}
    ∅ (Some sample_path)
    {| conn := init_db empty_db; books := []; pages_cache := ∅;
       current_book := None; current_page_index := 0; reader := None |}
  = ({| conn := init_db empty_db; books := []; pages_cache := ∅;
        current_book := None; current_page_index := 0; reader := None |},
     ∅, Some "NOT NULL constraint failed: books.title") /\
  exists st' i,
    on_file_picked (import_world_of (world_with bare_package))
      {| cover_epub_available := false; cover_read_epub := fun _ => Raise "";
         cover_writable := fun _ => true |}
      ∅ (Some sample_path)
      {| conn := init_db empty_db; books := []; pages_cache := ∅;
         current_book := None; current_page_index := 0; reader := None |}
    = (st', ∅, None) /\
    books st' = [ with_id (sample_book 0 0 0) i ].
Proof.
  split.
  - exact (proj1 (proj2 (on_file_picked_adds_book sample_mk_path
                           {| import_epub_available := true;
                              import_read_epub := fun _ =>
                                Ok {| md_title := [None]; md_creator := [] |} |}
                           {| cover_epub_available := false;
                              cover_read_epub := fun _ => Raise "";
                              cover_writable := fun _ => true |}
                           ∅ sample_path
                           {| conn := init_db empty_db; books := []; pages_cache := ∅;
                              current_book := None; current_page_index := 0;
                              reader := None |}
                           eq_refl eq_refl eq_refl
                           ltac:(intros ext [->| ->]; reflexivity)))
             (Some EmptyString) eq_refl).
  - destruct (proj1 (on_file_picked_adds_book sample_mk_path
                       (import_world_of (world_with bare_package))
                       {| cover_epub_available := false;
                          cover_read_epub := fun _ => Raise "";
                          cover_writable := fun _ => true |}
                       ∅ sample_path
                       {| conn := init_db empty_db; books := []; pages_cache := ∅;
                          current_book := None; current_page_index := 0;
                          reader := None |}
                       eq_refl eq_refl eq_refl
                       ltac:(intros ext [->| ->]; reflexivity))
                "novel" (Some EmptyString) eq_refl)
      as (st' & i & Hpick & Hbooks & _).
    exists st', i. split; [exact Hpick | exact Hbooks].
Defined.

(** * The record and the page cache *)

Lemma update_rows_ids i f conn :
  (forall row, row_id (f row) = row_id row) ->
  row_id <$> db_books (update_rows i f conn) = row_id <$> db_books conn.
Proof.
  intros Hf. unfold update_rows. simpl.
  rewrite <- list_fmap_compose. apply list_fmap_ext. intros ? row _. simpl.
  destruct (row_id row =? i); [apply Hf | reflexivity].
Qed.

Lemma database_ok_ids conn conn' :
  row_id <$> db_books conn' = row_id <$> db_books conn ->
  db_sequence conn' = db_sequence conn ->
  database_ok conn -> database_ok conn'.
Proof. unfold database_ok. intros -> ->. tauto. Qed.

Lemma update_book_progress_ids conn book :
  row_id <$> db_books (update_book_progress conn book) = row_id <$> db_books conn /\
  db_sequence (update_book_progress conn book) = db_sequence conn.
Proof.
  unfold update_book_progress. destruct (Book.id book); [|split; reflexivity].
  destruct (_ && _); [|split; reflexivity].
  split; [apply update_rows_ids; reflexivity | reflexivity].
Qed.

Lemma update_book_flags_ids conn book conn' :
  update_book_flags conn book = Ok conn' ->
  row_id <$> db_books conn' = row_id <$> db_books conn /\
  db_sequence conn' = db_sequence conn.
Proof.
  unfold update_book_flags. destruct (Book.id book); [|intros [= <-]; split; reflexivity].
  destruct (negb _); [discriminate|]. intros [= <-].
  split; [apply update_rows_ids; reflexivity | reflexivity].
Qed.

Lemma save_last_read_ids conn book conn' :
  save_last_read conn book = Ok conn' ->
  db_books conn' = db_books conn /\ db_sequence conn' = db_sequence conn.
Proof.
  unfold save_last_read. destruct (Book.id book); [|intros [= <-]; split; reflexivity].
  destruct (negb _); [discriminate|]. intros [= <-]. split; reflexivity.
Qed.

Lemma save_settings_ids conn settings conn' :
  save_settings conn settings = Ok conn' ->
  db_books conn' = db_books conn /\ db_sequence conn' = db_sequence conn.
Proof.
  unfold save_settings. destruct (negb _); [discriminate|]. intros [= <-].
  split; reflexivity.
Qed.

Lemma filter_rows_ok (p : book_row -> bool) rows s :
  NoDup (row_id <$> rows) /\ Forall (fun i => i <= s) (row_id <$> rows) ->
  NoDup (row_id <$> List.filter p rows) /\
  Forall (fun i => i <= s) (row_id <$> List.filter p rows).
Proof.
  induction rows as [|r rows IH]; [simpl; tauto|].
  rewrite fmap_cons. intros [Hn Hf].
  apply NoDup_cons in Hn as [Hr Hn]. apply Forall_cons in Hf as [Hs Hf].
  destruct (IH (conj Hn Hf)) as [IHn IHf].
  cbn [List.filter]. destruct (p r); [|split; assumption].
  rewrite fmap_cons. split.
  - apply NoDup_cons. split; [|exact IHn].
    intros Hin. apply Hr. apply list_elem_of_fmap in Hin as (r' & -> & Hin).
    apply list_elem_of_fmap. exists r'. split; [reflexivity|].
    apply list_elem_of_In. apply list_elem_of_In in Hin.
    apply filter_In in Hin. tauto.
  - apply Forall_cons. split; assumption.
Qed.

Lemma delete_book_ok removable conn files book conn' files' :
  delete_book removable conn files book = Ok (conn', files') ->
  database_ok conn ->
  database_ok conn' /\ db_sequence conn' = db_sequence conn.
Proof.
  unfold delete_book. destruct (Book.id book) as [k|]; [|intros [= <- <-]; tauto].
  destruct (negb _); [discriminate|]. intros H Hok.
  assert (Hc : conn' = {| db_books := List.filter (fun row => negb (row_id row =? k))
                                        (db_books conn);
                          db_sequence := db_sequence conn;
                          db_settings := db_settings conn;
                          db_last_read := db_last_read conn |}).
  { destruct (Book.cover_path book) as [c|]; [|congruence].
    destruct (files !! path_str c); [|congruence].
    destruct (removable (path_str c)); congruence. }
  subst conn'. split; [|reflexivity]. unfold database_ok. simpl.
  apply filter_rows_ok, Hok.
Qed.

Lemma insert_book_database_ok conn new_book conn' book' :
  insert_book conn new_book = Ok (conn', book') ->
  Forall (fun i => i <= db_sequence conn) (row_id <$> db_books conn) ->
  db_sequence conn < db_sequence conn' /\
  Book.id book' = Some (db_sequence conn') /\
  (database_ok conn -> database_ok conn').
Proof.
  unfold insert_book. destruct (negb _); [discriminate|].
  destruct (negb _); [discriminate|]. intros [= <- <-] Hle. simpl.
  destruct (next_rowid_above conn) as [Hs _].
  split; [exact Hs|]. split; [reflexivity|].
  intros [Hn Hf]. unfold database_ok. simpl. rewrite fmap_app. simpl. split.
  - apply NoDup_app. split; [exact Hn|]. split; [|apply NoDup_singleton].
    intros x Hx Hx'. apply list_elem_of_singleton in Hx'. subst x.
    rewrite Forall_forall in Hf. apply Hf in Hx. lia.
  - apply Forall_app. split; [|repeat constructor; lia].
    eapply Forall_impl; [exact Hf|]. simpl. intros; lia.
Qed.

Lemma insert_picked_ok conn title author new_book conn' book' :
  insert_picked conn title author new_book = Ok (conn', book') ->
  Forall (fun i => i <= db_sequence conn) (row_id <$> db_books conn) ->
  db_sequence conn < db_sequence conn' /\
  Book.id book' = Some (db_sequence conn') /\
  (database_ok conn -> database_ok conn').
Proof.
  unfold insert_picked. destruct title as [t|]; [|discriminate].
  destruct (insert_book conn _) as [[conn1 book1]|exc] eqn:Hins; [|discriminate].
  cbn [mbind result_mbind result_bind]. intros [= <- <-] Hle.
  destruct (insert_book_database_ok _ _ _ _ Hins Hle) as (Hlt & Hid & Hdb).
  destruct author as [a|]; [tauto|].
  unfold null_author.
  split; [exact Hlt|]. split; [exact Hid|]. intros Hok.
  apply (database_ok_ids conn1); [apply update_rows_ids; reflexivity | reflexivity|].
  apply Hdb, Hok.
Qed.

(** ** The invariant *)

Lemma library_ok_start mk_path db : database_ok db -> library_ok (start mk_path db).
Proof.
  intros [Hn Hf]. unfold library_ok, start. simpl.
  split; [split; assumption|]. split; [|split; [|split]].
  - unfold load_books. simpl.
    replace (Book.id <$> map (book_of_row mk_path) (db_books db))
      with (Some <$> (row_id <$> db_books db)).
    + apply NoDup_fmap_2; [|exact Hn]. intros x y [= ->]. reflexivity.
    + rewrite <- !list_fmap_compose. apply list_fmap_ext. reflexivity.
  - unfold load_books. apply Forall_forall. intros b Hb.
    apply list_elem_of_In, in_map_iff in Hb as (row & <- & Hrow).
    exists (row_id row). split; [reflexivity|].
    rewrite Forall_forall in Hf. apply Hf. apply list_elem_of_fmap.
    exists row. split; [reflexivity | apply list_elem_of_In, Hrow].
  - intros k pages H. rewrite lookup_empty in H. discriminate.
  - apply Forall_forall. intros b _ k pages _ H. rewrite lookup_empty in H. discriminate.
Qed.

Lemma ids_insert (bs : list Book.t) i book book' :
  bs !! i = Some book -> Book.id book' = Book.id book ->
  Book.id <$> <[i := book']> bs = Book.id <$> bs.
Proof.
  intros Hb Hid. rewrite list_fmap_insert, Hid. apply list_insert_id.
  rewrite list_lookup_fmap, Hb. reflexivity.
Qed.

(** A write to a record that keeps its id and its agreement with the
    cache. *)
Lemma library_ok_write st i book book' :
  library_ok st -> books st !! i = Some book ->
  Book.id book' = Book.id book ->
  record_agrees (pages_cache st) book' ->
  library_ok (with_books st (<[i := book']> (books st))).
Proof.
  intros (Hdb & Hn & Hids & Hc & Ha) Hb Hid Hag. unfold library_ok. simpl.
  split; [exact Hdb|]. split; [rewrite (ids_insert _ _ _ _ Hb Hid); exact Hn|].
  split; [|split; [exact Hc|]].
  - apply Forall_insert; [exact Hids|]. rewrite Hid.
    apply (Forall_lookup_1 _ _ _ _ Hids Hb).
  - apply Forall_insert; assumption.
Qed.

Lemma library_ok_conn st conn' :
  library_ok st -> database_ok conn' ->
  db_sequence (conn st) <= db_sequence conn' ->
  library_ok (with_conn st conn').
Proof.
  intros (Hdb & Hn & Hids & Hc & Ha) Hdb' Hs. unfold library_ok. simpl.
  split; [exact Hdb'|]. split; [exact Hn|]. split; [|split; [|exact Ha]].
  - eapply Forall_impl; [exact Hids|]. simpl. intros b (k & Hk & Hle).
    exists k. split; [exact Hk | lia].
  - intros k pages H. apply Hc in H. lia.
Qed.

Lemma get_pages_for_book_miss_cache w settings (cache : gmap Z (list ChapterPage)) book k :
  Book.id book = Some k -> cache !! k = None ->
  snd (get_pages_for_book w settings cache book)
  = <[k := fst (fst (get_pages_for_book w settings cache book))]> cache.
Proof.
  intros Hid Hc. unfold get_pages_for_book. rewrite Hid. simpl. rewrite Hc.
  pose proof (compute_pages_book w settings book) as Hb.
  destruct (compute_pages w settings book) as [pages b1]. simpl in Hb. simpl.
  destruct Hb as (Hid1 & _). rewrite Hid1, Hid. reflexivity.
Qed.

(** [get_pages_for_book] writes the cache and the record together. *)
Lemma library_ok_get_pages w settings st i book :
  library_ok st -> books st !! i = Some book ->
  library_ok (snd (get_pages_at w settings st i book)).
Proof.
  intros Hok Hb. pose proof Hok as (Hdb & Hn & Hids & Hc & Ha).
  destruct (Forall_lookup_1 _ _ _ _ Hids Hb) as (k & Hk & Hle).
  unfold get_pages_at.
  destruct (pages_cache st !! k) as [cached|] eqn:Hcache.
  - rewrite (get_pages_for_book_hit w settings _ book k cached Hk Hcache).
    rewrite Hk. simpl. rewrite Hcache. simpl.
    rewrite list_insert_id by exact Hb. exact Hok.
  - assert (Hmiss : Book.id book ≫= (fun i => pages_cache st !! i) = None)
      by (rewrite Hk; exact Hcache).
    pose proof (get_pages_for_book_miss_cache w settings _ book k Hk Hcache) as Hcache'.
    destruct (get_pages_for_book w settings (pages_cache st) book)
      as [[pages book'] cache'] eqn:Hcall.
    destruct (get_pages_for_book_miss w settings _ book Hmiss _ _ _ Hcall)
      as (Ht & _ & Hlt & _ & Hid & _).
    simpl in Hcache'. subst cache'. rewrite Hmiss. simpl.
    destruct (update_book_progress_ids (conn st) book') as [Hrows Hseq].
    unfold library_ok. simpl. rewrite Hseq.
    split; [exact (database_ok_ids _ _ Hrows Hseq Hdb)|].
    split; [rewrite (ids_insert _ _ _ _ Hb Hid); exact Hn|].
    split; [|split].
    + apply Forall_insert; [exact Hids|]. exists k. split; [congruence | exact Hle].
    + intros k' pages' H. apply lookup_insert_Some in H as [[<- _]|[_ H]];
        [exact Hle | apply (Hc _ _ H)].
    + apply Forall_lookup. intros j b Hj.
      apply list_lookup_insert_Some in Hj as [(<- & <- & _)|(Hij & Hj)].
      * intros k' pages' Hk' H. assert (k' = k) as -> by congruence.
        rewrite lookup_insert_eq in H. injection H as <-. split; assumption.
      * intros k' pages' Hk' H.
        assert (Hne : k <> k').
        { intros <-. apply Hij.
          apply (NoDup_lookup (Book.id <$> books st) i j (Some k) Hn);
            rewrite list_lookup_fmap; [rewrite Hb | rewrite Hj]; simpl; congruence. }
        rewrite lookup_insert_ne in H by exact Hne.
        apply (Forall_lookup_1 _ _ _ _ Ha Hj k' pages' Hk' H).
Qed.

Lemma library_ok_step st st' : step st st' -> library_ok st -> library_ok st'.
Proof.
  intros Hstep Hok. pose proof Hok as (Hdb & Hn & Hids & Hc & Ha).
  destruct Hstep as [w settings st i book Hb
                    |st i book k pages idx Hb Hk Hp Hidx
                    |st i book Hb
                    |st i book Hb
                    |st i book tags Hb
                    |st i book last_page Hb
                    |st book
                    |st book conn' Hw
                    |st book conn' Hw
                    |st settings conn' Hw
                    |st removable files book conn' files' Hw
                    |st i
                    |st title author new_book conn' book' Hw
                    |st cb idx rd].
  - apply library_ok_get_pages; assumption.
  - apply (library_ok_write st i book); [exact Hok | exact Hb | reflexivity |].
    intros k' pages' Hk' H. simpl in *.
    assert (k' = k) as -> by congruence. assert (pages' = pages) as -> by congruence.
    split; [reflexivity | lia].
  - apply (library_ok_write st i book); [exact Hok | exact Hb | |].
    + unfold toggled. destruct (Book.is_read book); reflexivity.
    + pose proof (Forall_lookup_1 _ _ _ _ Ha Hb) as Hag.
      intros k' pages' Hk' H. unfold toggled in *.
      destruct (Book.is_read book); simpl in *; destruct (Hag k' pages' Hk' H); split;
        try assumption; lia.
  - apply (library_ok_write st i book); [exact Hok | exact Hb | reflexivity |].
    exact (Forall_lookup_1 _ _ _ _ Ha Hb).
  - apply (library_ok_write st i book); [exact Hok | exact Hb | reflexivity |].
    exact (Forall_lookup_1 _ _ _ _ Ha Hb).
  - apply (library_ok_write st i book); [exact Hok | exact Hb | reflexivity |].
    pose proof (Forall_lookup_1 _ _ _ _ Ha Hb) as Hag.
    intros k' pages' Hk' H. simpl in *. destruct (Hag k' pages' Hk' H) as [Ht Hlt].
    split; [exact Ht|]. intros Hpos.
    destruct (Z.gtb_spec (Book.total_pages book) 0); lia.
  - destruct (update_book_progress_ids (conn st) book) as [Hrows Hseq].
    apply library_ok_conn; [exact Hok | exact (database_ok_ids _ _ Hrows Hseq Hdb) | lia].
  - destruct (update_book_flags_ids _ _ _ Hw) as [Hrows Hseq].
    apply library_ok_conn; [exact Hok | exact (database_ok_ids _ _ Hrows Hseq Hdb) | lia].
  - destruct (save_last_read_ids _ _ _ Hw) as [Hrows Hseq].
    apply library_ok_conn; [exact Hok | | lia].
    apply (database_ok_ids (conn st)); [rewrite Hrows; reflexivity | exact Hseq | exact Hdb].
  - destruct (save_settings_ids _ _ _ Hw) as [Hrows Hseq].
    apply library_ok_conn; [exact Hok | | lia].
    apply (database_ok_ids (conn st)); [rewrite Hrows; reflexivity | exact Hseq | exact Hdb].
  - destruct (delete_book_ok _ _ _ _ _ _ Hw Hdb) as [Hdb' Hseq].
    apply library_ok_conn; [exact Hok | exact Hdb' | lia].
  - unfold library_ok. simpl. split; [exact Hdb|]. split; [|split; [|split; [exact Hc|]]].
    + rewrite list_fmap_delete. eapply sublist_NoDup; [exact Hn | apply sublist_delete].
    + apply Forall_delete, Hids.
    + apply Forall_delete, Ha.
  - destruct (insert_picked_ok _ _ _ _ _ _ Hw (proj2 Hdb)) as (Hlt & Hid & Hdb').
    unfold library_ok. simpl. split; [exact (Hdb' Hdb)|]. split; [|split; [|split]].
    + rewrite fmap_app. apply NoDup_app. split; [exact Hn|]. split; [|apply NoDup_singleton].
      intros x Hx Hx'. apply list_elem_of_singleton in Hx'. subst x.
      apply list_elem_of_fmap in Hx as (b & Hb' & Hin).
      rewrite Forall_forall in Hids. destruct (Hids b Hin) as (k & Hk & Hle).
      rewrite Hk, Hid in Hb'. injection Hb' as Hb'. lia.
    + apply Forall_app. split.
      * eapply Forall_impl; [exact Hids|]. simpl. intros b (k & Hk & Hle).
        exists k. split; [exact Hk | lia].
      * constructor; [|constructor]. exists (db_sequence conn'). split; [exact Hid | lia].
    + intros k0 pages0 H. apply Hc in H. lia.
    + apply Forall_app. split; [exact Ha|]. constructor; [|constructor].
      intros k0 pages0 Hk0 H. apply Hc in H. rewrite Hid in Hk0. injection Hk0 as <-. lia.
  - exact Hok.
Qed.

Lemma reachable_ok mk_path db st : reachable mk_path db st -> library_ok st.
Proof.
  induction 1 as [Hdb|st st' _ IH Hstep]; [apply library_ok_start, Hdb|].
  exact (library_ok_step _ _ Hstep IH).
Qed.

(** ** The handlers are sequences of these writes *)

Section Handlers.

Variable mk_path : string -> Path.
Variable db : database.

Lemma get_pages_at_reachable w settings st i book :
  reachable mk_path db st -> books st !! i = Some book ->
  reachable mk_path db (snd (get_pages_at w settings st i book)).
Proof.
  intros Hr Hb. exact (reach_step _ _ _ _ Hr (step_get_pages w settings st i book Hb)).
Qed.

Lemma with_index_reachable st idx :
  reachable mk_path db st -> reachable mk_path db (with_index st idx).
Proof.
  intros Hr.
  exact (reach_step _ _ _ _ Hr (step_select st (current_book st) idx (reader st))).
Qed.

Lemma show_page_reachable w settings st st' :
  reachable mk_path db st -> show_page w settings st = Ok st' ->
  reachable mk_path db st'.
Proof.
  intros Hr H.
  destruct (current_book st) as [i|] eqn:Hcur;
    [|unfold show_page in H; rewrite Hcur in H; injection H as <-; exact Hr].
  destruct (books st !! i) as [book|] eqn:Hb;
    [|unfold show_page in H; rewrite Hcur, Hb in H; injection H as <-; exact Hr].
  destruct (reachable_ok _ _ _ Hr) as (_ & _ & Hids & _).
  destruct (Forall_lookup_1 _ _ _ _ Hids Hb) as (k & Hk & _).
  rewrite (show_page_via_cache w settings st i book k Hcur Hb Hk) in H.
  pose proof (get_pages_at_reachable w settings st i book Hr Hb) as Hr1.
  destruct (get_pages_at w settings st i book) as [[pages book1] st1] eqn:E.
  destruct (get_pages_at_state w settings st i book k Hb Hk _ _ _ E)
    as (_ & Hb1 & Hid1 & Hc1 & Hcur1 & _).
  simpl snd in *. unfold show_page in H. rewrite Hcur1, Hcur, Hb1 in H.
  rewrite (get_pages_at_hit w settings st1 i book1 k pages Hb1 Hid1 Hc1) in H.
  destruct pages as [|p0 ps]; [injection H as <-; exact Hr1|].
  cbv zeta in H.
  set (len := Z.of_nat (length (p0 :: ps))) in *.
  set (idx := if (if current_page_index st1 <? 0 then 0 else current_page_index st1) >=? len
              then len - 1
              else if current_page_index st1 <? 0 then 0 else current_page_index st1) in *.
  assert (Hidx : 0 <= idx < len).
  { assert (1 <= len) by (unfold len; simpl; lia). unfold idx.
    destruct (Z.ltb_spec (current_page_index st1) 0);
      [destruct (Z.geb_spec 0 len) | destruct (Z.geb_spec (current_page_index st1) len)]; lia. }
  set (book2 := with_progress (with_is_read book1 true) idx len) in *.
  destruct (save_last_read (update_book_progress (conn st1) book2) book2)
    as [conn2|exc] eqn:Hs; [|discriminate H].
  cbn [mbind result_mbind result_bind] in H.
  destruct ((p0 :: ps) !! Z.to_nat idx) as [pd|]; [|discriminate H].
  destruct (build_page_view settings (snd (get_theme_colors settings)) pd)
    as [controls|exc]; [|discriminate H].
  cbn [mbind result_mbind result_bind] in H. injection H as <-.
  pose proof (reach_step _ _ _ _ Hr1
                (step_show_page st1 i book1 k (p0 :: ps) idx Hb1 Hid1 Hc1 Hidx)) as Hr2.
  set (st2 := with_books st1 (<[i := book2]> (books st1))) in *.
  pose proof (reach_step _ _ _ _ Hr2 (step_update_book_progress st2 book2)) as Hr3.
  set (st3 := with_conn st2 (update_book_progress (conn st2) book2)) in *.
  pose proof (reach_step _ _ _ _ Hr3 (step_save_last_read st3 book2 conn2 Hs)) as Hr4.
  exact (reach_step _ _ _ _ Hr4 (step_select (with_conn st3 conn2) _ _ _)).
Qed.

Lemma on_slider_change_reachable w settings value st st' :
  reachable mk_path db st -> on_slider_change w settings value st = Ok st' ->
  reachable mk_path db st'.
Proof.
  intros Hr H. unfold on_slider_change in H.
  exact (show_page_reachable w settings _ _ (with_index_reachable st value Hr) H).
Qed.

Lemma handle_keyboard_reachable w settings key st st' :
  reachable mk_path db st -> handle_keyboard w settings key st = Ok st' ->
  reachable mk_path db st'.
Proof.
  intros Hr H. unfold handle_keyboard in H.
  destruct (current_book st) as [i|]; [|injection H as <-; exact Hr].
  destruct (_ || _).
  - destruct (books st !! i) as [book|] eqn:Hb; [|injection H as <-; exact Hr].
    pose proof (get_pages_at_reachable w settings st i book Hr Hb) as Hr1.
    destruct (get_pages_at w settings st i book) as [[pages book1] st1].
    simpl snd in Hr1. destruct (_ <? _); [|injection H as <-; exact Hr1].
    exact (show_page_reachable w settings _ _ (with_index_reachable st1 _ Hr1) H).
  - destruct (_ || _); [|injection H as <-; exact Hr].
    destruct (_ >? _); [|injection H as <-; exact Hr].
    exact (show_page_reachable w settings _ _ (with_index_reachable st _ Hr) H).
Qed.

Lemma open_reader_reachable w settings i st st' :
  reachable mk_path db st -> open_reader w settings i st = Ok st' ->
  reachable mk_path db st'.
Proof.
  intros Hr H. unfold open_reader in H.
  destruct (books st !! i) as [book|]; [|injection H as <-; exact Hr].
  pose proof (reach_step _ _ _ _ Hr
                (step_select st (Some i) (Book.current_page book) (reader st))) as Hr1.
  destruct (show_page w settings _) as [st1|exc] eqn:H1 in H; [|discriminate H].
  cbn [mbind result_mbind result_bind] in H.
  exact (show_page_reachable w settings _ _
           (show_page_reachable w settings _ _ Hr1 H1) H).
Qed.

Lemma continuar_click_reachable w settings st st' :
  reachable mk_path db st -> continuar_click w settings st = Ok st' ->
  reachable mk_path db st'.
Proof.
  intros Hr H. unfold continuar_click in H.
  destruct (load_last_read (conn st)) as [last_book_id last_page].
  assert (Hrest : forall st1,
             match books st with
             | [] => Ok st
             | _ :: _ =>
                 match find_index Book.is_read (books st) with
                 | Some i => open_reader w settings i st
                 | None => open_reader w settings 0%nat st
                 end
             end = Ok st1 -> reachable mk_path db st1).
  { intros st1 H1. destruct (books st); [injection H1 as <-; exact Hr|].
    destruct (find_index Book.is_read _);
      exact (open_reader_reachable w settings _ _ _ Hr H1). }
  destruct last_book_id as [k|]; [|exact (Hrest _ H)].
  destruct (find_index (has_id k) (books st)) as [i|]; [|exact (Hrest _ H)].
  destruct (books st !! i) as [b|] eqn:Hb; [|exact (Hrest _ H)].
  exact (open_reader_reachable w settings i _ _
           (reach_step _ _ _ _ Hr (step_continuar st i b last_page Hb)) H).
Qed.

Lemma toggle_read_reachable i st st' :
  reachable mk_path db st -> toggle_read i st = Ok st' -> reachable mk_path db st'.
Proof.
  intros Hr H. unfold toggle_read in H.
  destruct (books st !! i) as [book|] eqn:Hb; [|injection H as <-; exact Hr].
  fold (toggled book) in H.
  destruct (update_book_flags (update_book_progress (conn st) (toggled book)) (toggled book))
    as [conn2|exc] eqn:Hf; [|discriminate H].
  cbn [mbind result_mbind result_bind] in H. injection H as <-.
  pose proof (reach_step _ _ _ _ Hr (step_toggle_read st i book Hb)) as Hr1.
  set (st1 := with_books st (<[i := toggled book]> (books st))) in *.
  pose proof (reach_step _ _ _ _ Hr1 (step_update_book_progress st1 (toggled book))) as Hr2.
  exact (reach_step _ _ _ _ Hr2
           (step_update_book_flags
              (with_conn st1 (update_book_progress (conn st1) (toggled book)))
              (toggled book) conn2 Hf)).
Qed.

Lemma on_file_picked_reachable iw cw files picked st st' files' exc :
  reachable mk_path db st ->
  on_file_picked iw cw files picked st = (st', files', exc) ->
  reachable mk_path db st'.
Proof.
  intros Hr H. unfold on_file_picked in H.
  destruct picked as [path|]; [|injection H as <- _ _; exact Hr].
  destruct (get_epub_metadata_opt iw path) as [title author].
  destruct (extract_cover_image cw files path) as [cover files1].
  destruct (insert_picked (conn st) title author _) as [[conn' book']|e] eqn:Hins;
    [|injection H as <- _ _; exact Hr].
  injection H as <- _ _.
  exact (reach_step _ _ _ _ Hr (step_import st title author _ conn' book' Hins)).
Qed.

(** A later run of the program starts from the database this run left. *)
Lemma restart_reachable st :
  reachable mk_path db st -> reachable mk_path (conn st) (start mk_path (conn st)).
Proof.
  intros Hr. apply reach_start. apply (reachable_ok _ _ _ Hr).
Qed.

(** A record that disagrees with the page list cached under its id is not
    met. *)
Lemma disagreement_unreachable st i :
  books st !! i = Some (sample_book 1 7 9) ->
  pages_cache st !! 1 = Some three_pages ->
  ~ reachable mk_path db st.
Proof.
  intros Hb Hc Hr. destruct (reachable_ok _ _ _ Hr) as (_ & _ & _ & _ & Ha).
  destruct (Forall_lookup_1 _ _ _ _ Ha Hb 1 three_pages eq_refl Hc) as [Ht _].
  discriminate Ht.
Qed.

End Handlers.

(** C10: in every state the program reaches, and for every book of the
    library, after [get_pages_for_book] returns, [total_pages] is the length
    of the returned list and [current_page] is below [total_pages] whenever
    [total_pages > 0]; a non-negative stored position stays non-negative,
    so it indexes a page of every non-empty list.  The position is the
    stored one or 0: a position at or past the end of a non-empty list is
    reset to 0, and so is one at or past the end of any list that the call
    has computed.  (A cached list is returned as it is; the record already
    agrees with it, by what the program has written before.)  The list is
    cached under the book's id, and the state after the call is again one
    the program reaches. *)
Theorem get_pages_for_book_position_in_range
    (mk_path : string -> Path) (db : database) (st : app)
    (w : world) (settings : Settings) (i : nat) (book : Book.t) :
  reachable mk_path db st ->
  books st !! i = Some book ->
  exists pages book' cache',
    get_pages_for_book w settings (pages_cache st) book = (pages, book', cache') /\
    Book.total_pages book' = Z.of_nat (length pages) /\
    (0 < Book.total_pages book' -> Book.current_page book' < Book.total_pages book') /\
    (0 <= Book.current_page book ->
     0 <= Book.current_page book' /\
     (pages <> [] -> is_Some (pages !! Z.to_nat (Book.current_page book')))) /\
    (Book.current_page book' = Book.current_page book \/ Book.current_page book' = 0) /\
    (pages <> [] -> Z.of_nat (length pages) <= Book.current_page book ->
     Book.current_page book' = 0) /\
    (Book.id book ≫= (fun k => pages_cache st !! k) = None ->
     Z.of_nat (length pages) <= Book.current_page book ->
     Book.current_page book' = 0) /\
    (exists k, Book.id book' = Some k /\ cache' !! k = Some pages) /\
    reachable mk_path db (snd (get_pages_at w settings st i book)).
Proof.
  intros Hr Hb.
  pose proof (reachable_ok _ _ _ Hr) as (Hdb & Hn & Hids & Hc & Ha).
  destruct (Forall_lookup_1 _ _ _ _ Hids Hb) as (k & Hk & Hle).
  pose proof (Forall_lookup_1 _ _ _ _ Ha Hb) as Hag.
  pose proof (get_pages_at_reachable mk_path db w settings st i book Hr Hb) as Hr'.
  assert (Hin : forall (pages : list ChapterPage) c,
             0 <= c -> c < Z.of_nat (length pages) -> is_Some (pages !! Z.to_nat c)).
  { intros pages c H0 H1. apply lookup_lt_is_Some_2. lia. }
  assert (Hlen : forall pages : list ChapterPage, pages <> [] -> 0 < Z.of_nat (length pages)).
  { intros [|p ps] Hne; [congruence | simpl; lia]. }
  destruct (pages_cache st !! k) as [cached|] eqn:Hcache.
  - destruct (Hag k cached Hk Hcache) as [Ht Hlt].
    exists cached, book, (pages_cache st).
    split; [exact (get_pages_for_book_hit w settings _ book k cached Hk Hcache)|].
    split; [exact Ht|]. split; [exact Hlt|].
    split.
    { intros H0. split; [exact H0|]. intros Hne. apply Hin; [exact H0|].
      specialize (Hlen _ Hne). lia. }
    split; [left; reflexivity|].
    split; [intros Hne Hpast; specialize (Hlen _ Hne); lia|].
    split; [rewrite Hk; simpl; rewrite Hcache; discriminate|].
    split; [exists k; split; assumption | exact Hr'].
  - assert (Hmiss : Book.id book ≫= (fun k => pages_cache st !! k) = None)
      by (rewrite Hk; exact Hcache).
    destruct (get_pages_for_book w settings (pages_cache st) book)
      as [[pages book'] cache'] eqn:Hcall.
    destruct (get_pages_for_book_miss w settings _ book Hmiss _ _ _ Hcall)
      as (Ht & Hcp & Hlt & H0' & Hid & Hcached).
    exists pages, book', cache'. split; [reflexivity|].
    split; [exact Ht|]. split; [exact Hlt|].
    assert (Hcases : Z.of_nat (length pages) <= Book.current_page book /\
                     Book.current_page book' = 0 \/
                     Book.current_page book < Z.of_nat (length pages) /\
                     Book.current_page book' = Book.current_page book).
    { rewrite Hcp. destruct (Z.geb_spec (Book.current_page book) (Z.of_nat (length pages)));
        [left | right]; split; (reflexivity || lia). }
    split.
    { intros H0. split; [apply H0', H0|]. intros Hne. apply Hin; [apply H0', H0|].
      specialize (Hlen _ Hne). lia. }
    split; [destruct Hcases as [[_ ->]|[_ ->]]; [right | left]; reflexivity|].
    split; [intros _ Hpast; destruct Hcases as [[_ H]|[H _]]; [exact H | lia]|].
    split; [intros _ Hpast; destruct Hcases as [[_ H]|[H _]]; [exact H | lia]|].
    split; [exists k; split; [congruence | apply Hcached, Hk] | exact Hr'].
Qed.

Lemma get_pages_for_book_position_in_range_witness :
  exists pages,
    get_pages_for_book
      {| epub_available := true; path_exists := fun _ => false;
         read_epub := fun _ => Raise "" |}
      (settings_of_font_size 18) ∅ (sample_book 1 7 9)
    = (pages, sample_book 1 0 1, {[ 1 := pages ]}) /\
    exists book' cache',
      get_pages_for_book
        {| epub_available := true; path_exists := fun _ => false;
           read_epub := fun _ => Raise "" |}
        (settings_of_font_size 30) {[ 1 := pages ]} (sample_book 1 0 1)
      = (pages, book', cache') /\
      Book.total_pages book' = Z.of_nat (length pages) /\
      (0 < Book.total_pages book' -> Book.current_page book' < Book.total_pages book').
Proof.
  destruct (get_pages_for_book_position_in_range sample_mk_path stale_db
              (start sample_mk_path stale_db)
              {| epub_available := true; path_exists := fun _ => false;
                 read_epub := fun _ => Raise "" |}
              (settings_of_font_size 18) 0%nat (sample_book 1 7 9)
              (reach_start sample_mk_path stale_db
                 ltac:(split; [apply NoDup_singleton | constructor; [simpl; lia | constructor]]))
              eq_refl)
    as (pages & book1 & cache1 & Hcall & _ & _ & _ & _ & _ & _ & _ & Hr1).
  vm_compute in Hcall. injection Hcall as <- <- <-.
  eexists. split; [vm_compute; reflexivity|].
  destruct (get_pages_for_book_position_in_range sample_mk_path stale_db _
              {| epub_available := true; path_exists := fun _ => false;
                 read_epub := fun _ => Raise "" |}
              (settings_of_font_size 30) 0%nat (sample_book 1 0 1) Hr1 eq_refl)
    as (pages & book' & cache' & Hcall & Ht & Hlt & _).
  vm_compute in Hcall. injection Hcall as <- <- <-.
  eexists _, _. split; [vm_compute; reflexivity|]. split; [exact Ht | exact Hlt].
Defined.
